(** * ptool [publish]: the publishing pipeline of one content folder

    A shallow embedding of [cmd/publish/publish.go]: the front-matter parser
    [parseMetadataFile], the per-folder pipeline [publicTorrent] and the
    download-and-seed step [downloadPublishedTorrent], followed by the
    properties of the design document that concern them.

    Go strings and byte slices are Rocq strings (one [ascii] per byte),
    [url.Values] is a finite map from field names to lists of values, the
    file system is a function from paths to nodes, and the collaborators the
    pipeline talks to (site, client, torrent tools, YAML decoder) are records
    of functions over an abstract state of the outside world. *)

From Stdlib Require Import ZArith Lia List Ascii String Bool DecimalString.
From stdpp Require Import base option list gmap strings.
Import ListNotations.

Set Warnings "-register-all".

Local Open Scope string_scope.
Local Open Scope Z_scope.

(** ** Bytes and strings *)

Module Str.

Definition len (s : string) : nat := String.length s.

(** [s[:n]] and [s[n:]]. *)
Fixpoint sliceTo (n : nat) (s : string) : string :=
  match n, s with
  | S n', String c s' => String c (sliceTo n' s')
  | _, _ => EmptyString
  end.

Fixpoint sliceFrom (n : nat) (s : string) : string :=
  match n, s with
  | S n', String _ s' => sliceFrom n' s'
  | _, _ => s
  end.

(** [strings.HasPrefix s p]. *)
Fixpoint HasPrefix (s p : string) {struct p} : bool :=
  match p, s with
  | EmptyString, _ => true
  | String a p', String b s' => Ascii.eqb a b && HasPrefix s' p'
  | String _ _, EmptyString => false
  end.

(** [strings.HasSuffix s p]. *)
Definition HasSuffix (s p : string) : bool :=
  (len p <=? len s)%nat && String.eqb (sliceFrom (len s - len p) s) p.

(** Position of the first occurrence of [sep] in [s], if any. *)
Fixpoint find (sep s : string) : option nat :=
  if HasPrefix s sep then Some O
  else match s with
       | EmptyString => None
       | String _ s' => option_map S (find sep s')
       end.

(** [bytes.Index(s, sep)]: -1 when [sep] does not occur. *)
Definition Index (s sep : string) : Z :=
  match find sep s with
  | Some i => Z.of_nat i
  | None => -1
  end.

(** The white space [strings.TrimSpace] removes, on single bytes. *)
Definition isSpace (c : ascii) : bool :=
  match nat_of_ascii c with
  | 9%nat | 10%nat | 11%nat | 12%nat | 13%nat | 32%nat => true
  | _ => false
  end.

Fixpoint trimLeft (s : string) : string :=
  match s with
  | String c s' => if isSpace c then trimLeft s' else s
  | EmptyString => EmptyString
  end.

Fixpoint trimRight (s : string) : string :=
  match s with
  | String c s' =>
      let t := trimRight s' in
      if isSpace c && String.eqb t EmptyString then EmptyString else String c t
  | EmptyString => EmptyString
  end.

(** [strings.TrimSpace]. *)
Definition TrimSpace (s : string) : string := trimRight (trimLeft s).

(** [strings.ContainsAny s chars]. *)
Fixpoint inChars (c : ascii) (chars : string) : bool :=
  match chars with
  | EmptyString => false
  | String d chars' => Ascii.eqb c d || inChars c chars'
  end.

Fixpoint ContainsAny (s chars : string) : bool :=
  match s with
  | EmptyString => false
  | String c s' => inChars c chars || ContainsAny s' chars
  end.

(** [strings.ReplaceAll s old new] for a one-byte [old], the only form the
    program uses. *)
Fixpoint ReplaceAll (s : string) (old : ascii) (new : string) : string :=
  match s with
  | EmptyString => EmptyString
  | String c s' =>
      if Ascii.eqb c old then new ++ ReplaceAll s' old new
      else String c (ReplaceAll s' old new)
  end.

(** [strings.Split s sep] for a one-byte [sep]. *)
Fixpoint Split (s : string) (sep : ascii) : list string :=
  match s with
  | EmptyString => [EmptyString]
  | String c s' =>
      if Ascii.eqb c sep then EmptyString :: Split s' sep
      else match Split s' sep with
           | x :: xs => String c x :: xs
           | [] => [String c EmptyString]
           end
  end.

(** [strings.Join l sep]. *)
Fixpoint Join (l : list string) (sep : string) : string :=
  match l with
  | [] => EmptyString
  | [x] => x
  | x :: l' => x ++ sep ++ Join l' sep
  end.

(** Byte-wise map, used to describe [ReplaceAll] on single bytes. *)
Fixpoint mapBytes (f : ascii -> ascii) (s : string) : string :=
  match s with
  | EmptyString => EmptyString
  | String c s' => String (f c) (mapBytes f s')
  end.

End Str.

(** ** Errors

    The sentinel errors of the packages involved, compared by identity in
    [printResult]. [Errorf] stands for a [fmt.Errorf] value and [Errorw] for
    one whose format ends in [%w]; neither is ever identical to a sentinel,
    also when it wraps one. *)

Inductive error : Type :=
| ErrInvalidMetadataFile
| ErrNoMetadataFile
| ErrExisting
| ErrAlreadyPublished
| ErrSmall
| ErrFs
| ErrDryRun                 (* constants.ErrDryRun *)
| TorrentutilErrSmall       (* torrentutil.ErrSmall *)
| Errorf (format : string) (args : list string)
| Errorw (format : string) (args : list string) (cause : error).

(** A Go result pair [(v, err)] whose value is only used when [err == nil]. *)
Inductive result (A : Type) : Type :=
| Ok (a : A)
| Fail (e : error).
Arguments Ok {A} a.
Arguments Fail {A} e.

(** ** [url.Values] *)

Module Values.

Abbreviation t := (gmap string (list string)).

Definition Get (m : t) (key : string) : string :=
  match m !! key with
  | Some (v :: _) => v
  | _ => EmptyString
  end.

Definition Set_ (m : t) (key value : string) : t := <[key := [value]]> m.

Definition Add (m : t) (key value : string) : t :=
  <[key := (default [] (m !! key) ++ [value])%list]> m.

(** [m[key]]: the nil slice for an absent key. *)
Definition at_ (m : t) (key : string) : list string := default [] (m !! key).

End Values.

(** ** The file system

    A path names at most one node. Modification times are Unix seconds, as
    [ModTime().Unix()] reads them. *)

Inductive node : Type :=
| Dir (mtime : Z)
| File (data : string) (mtime : Z).

Definition FS : Type := string -> option node.

Module filepath.

Definition sep : string := "/".

(** Paths are taken to be clean: no doubled or trailing separators, no
    [.] or [..] elements.

    [filepath.Join dir name] for a relative [name]. *)
Definition Join (dir name : string) : string := dir ++ sep ++ name.

(** Splits after the last separator: [(directory part, base name)]. *)
Fixpoint split (p : string) : string * string :=
  match p with
  | EmptyString => (EmptyString, EmptyString)
  | String c p' =>
      if Str.inChars "/" p' then (String c (fst (split p')), snd (split p'))
      else if Ascii.eqb c "/" then (String c EmptyString, p')
      else (EmptyString, p)
  end.

(** [filepath.Base]. *)
Definition Base (p : string) : string := snd (split p).

(** [filepath.Dir]: the directory part without its trailing separator,
    ["."] when there is none. *)
Definition Dir (p : string) : string :=
  let d := fst (split p) in
  if String.eqb d EmptyString then "."
  else if String.eqb d "/" then d
  else Str.sliceTo (Str.len d - 1) d.

(** [filepath.IsAbs]. *)
Definition IsAbs (p : string) : bool := Str.HasPrefix p "/".

End filepath.

(** Modelled from the spec: [util.FileExists], whose source is missing. A
    marker "exists" when there is a node at its path. *)
Definition FileExists (fs : FS) (path : string) : bool :=
  match fs path with Some _ => true | None => false end.

(** [os.ReadFile]. *)
Definition ReadFile (fs : FS) (path : string) : result string :=
  match fs path with
  | Some (File data _) => Ok data
  | Some (Dir _) => Fail (Errorf "read %s: is a directory" [path])
  | None => Fail (Errorf "open %s: no such file or directory" [path])
  end.

(** [os.Stat(path)] followed by [ModTime().Unix()]. *)
Definition StatModTime (fs : FS) (path : string) : result Z :=
  match fs path with
  | Some (File _ t) | Some (Dir t) => Ok t
  | None => Fail (Errorf "stat %s: no such file or directory" [path])
  end.

Definition writeNode (fs : FS) (path : string) (n : node) : FS :=
  fun p => if String.eqb p path then Some n else fs p.

(** [os.Rename]: the node at [src] and everything below it moves to [dst]. *)
Definition renameTree (fs : FS) (src dst : string) : FS :=
  fun p =>
    if String.eqb p dst then fs src
    else if Str.HasPrefix p (dst ++ filepath.sep)
    then fs (src ++ filepath.sep ++ Str.sliceFrom (Str.len (dst ++ filepath.sep)) p)
    else if String.eqb p src || Str.HasPrefix p (src ++ filepath.sep) then None
    else fs p.

(** ** Decoded YAML values

    What [yaml.Unmarshal] stores in a [map[string]any], as far as the type
    switch of [parseMetadataFile] tells values apart; any other dynamic value
    is kept as its [fmt.Sprint] rendering. *)

Inductive any : Type :=
| AString (s : string)
| AStrings (l : list string)
| ASlice (l : list any)
| AOther (printed : string).

Fixpoint Sprint (v : any) : string :=
  match v with
  | AString s => s
  | AStrings l => "[" ++ Str.Join l " " ++ "]"
  | ASlice l => "[" ++ Str.Join (List.map Sprint l) " " ++ "]"
  | AOther printed => printed
  end.

Definition nl : string := String (ascii_of_nat 10) EmptyString.
Definition tab : ascii := ascii_of_nat 9.

(** Modelled from the spec: [util.SplitCsv], whose source is missing. The
    design document has a scalar value of an array-typed field "split on
    comma into trimmed elements". *)
Definition SplitCsv (v : string) : list string :=
  List.map Str.TrimSpace (Str.Split v ",").

(** What lines 244-247 do to one byte of a field name. *)
Definition blankToUnderscore (c : ascii) : ascii :=
  if Ascii.eqb c " " || Ascii.eqb c tab then "_"%char else c.

(** ** Metadata extraction *)

Section Metadata.

(** [yaml.Unmarshal(contents, &rawMetadata)]: the decoded fields in the
    order in which the loop of [parseMetadataFile] visits them. *)
Variable yamlUnmarshal : string -> result (list (string * any)).

(** Lines 244-247: the name under which a field is stored. *)
Definition normalizeKey (key : string) : string :=
  if Str.ContainsAny key (String " " (String tab EmptyString)) then
    let key := Str.ReplaceAll key " " "_" in
    Str.ReplaceAll key tab "_"
  else key.

(** Lines 243-264: the body of the loop over the decoded fields. *)
Definition addField (arrayKeys : list string) (metadata : Values.t)
    (field : string * any) : Values.t :=
  let key := normalizeKey (fst field) in
  match snd field with
  | AString v =>
      if bool_decide (key ∈ arrayKeys) then <[key := SplitCsv v]> metadata
      else Values.Set_ metadata key v
  | AStrings v => <[key := v]> metadata
  | ASlice v =>
      fold_left (fun m vi => Values.Add m key (Sprint vi)) v metadata
  | AOther _ as v => Values.Set_ metadata key (Sprint v)
  end.

Definition parseMetadataFile (fs : FS) (metadataFile : string)
    (arrayKeys : list string) : result Values.t :=
  match ReadFile fs metadataFile with
  | Fail err => Fail err
  | Ok contents =>
      let deli := "---" ++ nl in
      if (Str.len contents <? 10)%nat
         || negb (String.eqb (Str.sliceTo (Str.len deli) contents) deli)
      then Fail ErrInvalidMetadataFile
      else
        let contents := Str.sliceFrom (Str.len deli) contents in
        let deli := nl ++ "---" ++ nl in
        let index := Str.Index contents deli in
        if index <? 3 then Fail ErrInvalidMetadataFile
        else
          let text :=
            Str.TrimSpace (Str.sliceFrom (Z.to_nat index + Str.len deli) contents) in
          let contents := Str.sliceTo (Z.to_nat index) contents in
          match yamlUnmarshal contents with
          | Fail err => Fail err
          | Ok rawMetadata =>
              let metadata := fold_left (addField arrayKeys) rawMetadata ∅ in
              let metadata := Values.Set_ metadata "_text" text in
              let metadata := Values.Set_ metadata "_meta" contents in
              Ok metadata
          end
  end.

End Metadata.

(** A decoder for flat blocks of [key: value] lines, enough to run the parser
    on concrete files: a value is a string scalar, an empty value is null. *)
Definition flatField (line : string) : option (string * any) :=
  match Str.find ":" line with
  | Some i =>
      let v := Str.TrimSpace (Str.sliceFrom (S i) line) in
      Some (Str.sliceTo i line,
            if String.eqb v EmptyString then AOther "<nil>" else AString v)
  | None => None
  end.

Fixpoint flatFields (lines : list string) : result (list (string * any)) :=
  match lines with
  | [] => Ok []
  | line :: lines' =>
      if String.eqb (Str.TrimSpace line) EmptyString then flatFields lines'
      else match flatField line, flatFields lines' with
           | Some f, Ok fs => Ok (f :: fs)
           | None, _ => Fail (Errorf "yaml: unmarshal errors" [line])
           | _, Fail e => Fail e
           end
  end.

Definition flatYaml (block : string) : result (list (string * any)) :=
  flatFields (Str.Split block (ascii_of_nat 10)).


(** ** Whole-word matching

    [regexp.MustCompile(`\b` + regexp.QuoteMeta(number) + `\b`).MatchString(s)]:
    [number] occurs literally in [s] with an ASCII word boundary on both
    sides of the occurrence. *)

Module regexp.

(** The class [\w]. *)
Definition isWordByte (c : ascii) : bool :=
  let n := nat_of_ascii c in
  ((48 <=? n) && (n <=? 57) || (65 <=? n) && (n <=? 90)
   || (97 <=? n) && (n <=? 122) || (n =? 95))%nat.

Definition headIsWord (s : string) : bool :=
  match s with
  | String c _ => isWordByte c
  | EmptyString => false
  end.

(** Whether the last byte of [prev ++ s] is a word byte, [prev] telling it
    for the text before [s]. *)
Fixpoint lastIsWord (prev : bool) (s : string) : bool :=
  match s with
  | EmptyString => prev
  | String c s' => lastIsWord (isWordByte c) s'
  end.

(** A match of [\bnumber\b] starting at the head of [s]; [prev] tells
    whether the byte before [s] is a word byte. *)
Definition matchHere (prev : bool) (number s : string) : bool :=
  Str.HasPrefix s number
  && xorb prev (headIsWord s)
  && xorb (lastIsWord prev number)
          (headIsWord (Str.sliceFrom (Str.len number) s)).

Fixpoint matchFrom (prev : bool) (number s : string) : bool :=
  matchHere prev number s
  || match s with
     | EmptyString => false
     | String c s' => matchFrom (isWordByte c) number s'
     end.

Definition MatchWord (number s : string) : bool := matchFrom false number s.

End regexp.

(** ** Collaborators *)

(** [site.Torrent], as far as the pipeline reads it. *)
Record Torrent : Type := { Id : string; Name : string; Description : string }.

Record TorrentOption : Type :=
  { SkipChecking : bool; SavePath : string; Category : string }.

Record TorrentMakeOptions : Type :=
  { Force : bool;
    ContentPath : string;
    Private : bool;
    PieceLengthStr : string;
    Output : string;
    MinSize : Z;
    Excludes : list string }.

(** [common.PathMapper], nil when no mapping was asked for. *)
Record PathMapper : Type := { Before2After : string -> string * bool }.

(** The constants of packages [constants] and [config] the pipeline refers
    to, whatever their values. *)
Record Constants : Type :=
  { METADATA_FILE : string;
    META_TORRENT_FILE : string;
    METADATA_KEY_ARRAY_KEYS : string;
    METADATA_KEY_DRY_RUN : string;
    TORRENT_DEFAULT_PIECE_LENGTH : string;
    ImgExts : list string;
    SEEDING_CAT : string }.

Definition EXISTING_FLAG_FILE (sitename : string) : string := ".existing-" ++ sitename.
Definition PUBLISHED_FLAG_FILE (sitename : string) : string := ".published-" ++ sitename.
Definition PUBLISHED_TORRENT_FILENAME (sitename : string) : string :=
  "." ++ sitename ++ ".torrent".
Definition COVER : string := "cover".

(** What a run does to the outside, in the order in which it does it. Calls
    carry their arguments and what they returned. *)
Inductive Event : Type :=
| CallSearchTorrents (keyword baseUrl : string) (res : result (list Torrent))
| CallPublishTorrent (contents : string) (metadata : Values.t) (res : result string)
| CallDownloadTorrentById (id : string) (res : result (string * string))
| CallAddTorrent (contents : string) (opt : TorrentOption) (err : option error)
| CallMakeTorrent (options : TorrentMakeOptions) (err : option error)
| CallVerify (contentPath : string) (res : result Z)
| FsWriteFile (path data : string)
| FsTouchFile (path : string)
| FsReplaceFile (source destination : string) (err : option error).

(** Line 366: a search result whose name or description holds [number] as
    a whole word. *)
Definition isMatch (number : string) (t : Torrent) : bool :=
  regexp.MatchWord number (Name t) || regexp.MatchWord number (Description t).

Definition isPublishCall (e : Event) : bool :=
  match e with CallPublishTorrent _ _ _ => true | _ => false end.

Definition isSearchCall (e : Event) : bool :=
  match e with CallSearchTorrents _ _ _ => true | _ => false end.

Definition isMakeCall (e : Event) : bool :=
  match e with CallMakeTorrent _ _ => true | _ => false end.

Definition isVerifyCall (e : Event) : bool :=
  match e with CallVerify _ _ => true | _ => false end.

(** Line 411: the torrent file fails verification or is older than the
    contents. *)
Definition stale (res : result Z) (torrentModTime : Z) : bool :=
  match res with
  | Fail _ => true
  | Ok ts => ts >? torrentModTime
  end.

(** The events before a submission. *)
Definition isPreparation (e : Event) : bool :=
  isSearchCall e || isMakeCall e || isVerifyCall e.

(** The events of relocation and of [downloadPublishedTorrent]. *)
Definition isSeedingEvent (e : Event) : bool :=
  match e with
  | FsReplaceFile _ _ _ | CallDownloadTorrentById _ _ | CallAddTorrent _ _ _ => true
  | _ => false
  end.

(** How a piece of a function body ends: it goes on with a value, the
    function returns, or the process panics. *)
Inductive step (R A : Type) : Type :=
| Next (a : A)
| Returns (r : R)
| Panics (msg : string).
Arguments Next {R A} a.
Arguments Returns {R A} r.
Arguments Panics {R A} msg.

Section Pipeline.

(** The state of the site, the client and the clock. *)
Variable W : Type.

(** [site.Site], the methods the pipeline calls. *)
Record Site : Type :=
  { GetName : string;
    SearchTorrents : string -> string -> W -> result (list Torrent) * W;
    PublishTorrent : string -> Values.t -> W -> result string * W;
    DownloadTorrentById : string -> W -> result (string * string) * W }.

(** [client.Client], the method the pipeline calls. *)
Record Client : Type :=
  { AddTorrent : string -> TorrentOption -> W -> option error * W }.

(** What a run works on: the local file system and the outside world. *)
Record State : Type := { fs : FS; world : W }.

(** A piece of a function body, run: how it ends, the state it leaves
    and the events it caused, oldest first. *)
Record Run (R A : Type) : Type :=
  { outcome : step R A; final : State; log : list Event }.
Arguments outcome {R A} _.
Arguments final {R A} _.
Arguments log {R A} _.

(** A piece of the body of a function returning [R] that goes on with an
    [A]. *)
Definition M (R A : Type) : Type := State -> Run R A.

(** Going on with [a]. *)
Definition ret {R A} (a : A) : M R A :=
  fun st => {| outcome := Next a; final := st; log := [] |}.

(** The statement [return r]. *)
Definition Return {R A} (r : R) : M R A :=
  fun st => {| outcome := Returns r; final := st; log := [] |}.

(** [m] and then, unless [m] returned or panicked, [k]. *)
Definition bind {R A B} (m : M R A) (k : A -> M R B) : M R B :=
  fun st =>
    match m st with
    | {| outcome := Next a; final := st1; log := l1 |} =>
        match k a st1 with
        | {| outcome := o; final := st2; log := l2 |} =>
            {| outcome := o; final := st2; log := (l1 ++ l2)%list |}
        end
    | {| outcome := Returns x; final := st1; log := l1 |} =>
        {| outcome := Returns x; final := st1; log := l1 |}
    | {| outcome := Panics msg; final := st1; log := l1 |} =>
        {| outcome := Panics msg; final := st1; log := l1 |}
    end.

(** A call of a function whose body is [m]: its return value is the
    value of the call. *)
Definition call {R R'} (m : M R' R') : M R R' :=
  fun st =>
    match m st with
    | {| outcome := o; final := st1; log := l1 |} =>
        {| outcome := match o with
                      | Next a | Returns a => Next a
                      | Panics msg => Panics msg
                      end;
           final := st1; log := l1 |}
    end.

Notation "'let*' x ':=' m 'in' k" := (bind m (fun x => k))
  (at level 10, x name, m at level 100, k at level 200).
Notation "'let*' ' p ':=' m 'in' k" := (bind m (fun x => match x with p => k end))
  (at level 10, p pattern, m at level 100, k at level 200).

(** The clock that stamps written files. *)
Variable now : W -> Z.

(** The file system as it is now, for helpers that read it. *)
Definition getFs {R} : M R FS :=
  fun st => {| outcome := Next (fs st); final := st; log := [] |}.

Definition fileExists {R} (path : string) : M R bool :=
  fun st => {| outcome := Next (FileExists (fs st) path); final := st; log := [] |}.

Definition readFile {R} (path : string) : M R (result string) :=
  fun st => {| outcome := Next (ReadFile (fs st) path); final := st; log := [] |}.

(** [atomic.WriteFile(path, reader)]. *)
Definition writeFile {R} (path data : string) : M R (option error) :=
  fun st =>
    {| outcome := Next None;
       final := {| fs := writeNode (fs st) path (File data (now (world st)));
                   world := world st |};
       log := [FsWriteFile path data] |}.

(** Modelled from the spec: [util.TouchFile], whose source is missing. It
    leaves a marker that "is empty" when there was none and otherwise only
    refreshes the modification time. *)
Definition touchFile {R} (path : string) : M R unit :=
  fun st =>
    let n := match fs st path with
             | Some (File data _) => File data (now (world st))
             | Some (Dir _) => Dir (now (world st))
             | None => File EmptyString (now (world st))
             end in
    {| outcome := Next tt;
       final := {| fs := writeNode (fs st) path n; world := world st |};
       log := [FsTouchFile path] |}.

(** [atomic.ReplaceFile(source, destination)]. *)
Definition replaceFile {R} (source destination : string) : M R (option error) :=
  fun st =>
    match fs st source with
    | None =>
        let err := Errorf "rename %s %s: no such file or directory" [source; destination] in
        {| outcome := Next (Some err); final := st;
           log := [FsReplaceFile source destination (Some err)] |}
    | Some _ =>
        {| outcome := Next None;
           final := {| fs := renameTree (fs st) source destination; world := world st |};
           log := [FsReplaceFile source destination None] |}
    end.

Definition searchTorrents {R} (s : Site) (keyword baseUrl : string)
  : M R (result (list Torrent)) :=
  fun st =>
    let '(res, w) := SearchTorrents s keyword baseUrl (world st) in
    {| outcome := Next res; final := {| fs := fs st; world := w |};
       log := [CallSearchTorrents keyword baseUrl res] |}.

Definition publishTorrent {R} (s : Site) (contents : string) (metadata : Values.t)
  : M R (result string) :=
  fun st =>
    let '(res, w) := PublishTorrent s contents metadata (world st) in
    {| outcome := Next res; final := {| fs := fs st; world := w |};
       log := [CallPublishTorrent contents metadata res] |}.

Definition downloadTorrentById {R} (s : Site) (id : string)
  : M R (result (string * string)) :=
  fun st =>
    let '(res, w) := DownloadTorrentById s id (world st) in
    {| outcome := Next res; final := {| fs := fs st; world := w |};
       log := [CallDownloadTorrentById id res] |}.

(** A method call on the client interface value; on the nil interface the
    Go runtime panics. *)
Definition addTorrent {R} (c : option Client) (contents : string)
    (opt : TorrentOption) : M R (option error) :=
  fun st =>
    match c with
    | None =>
        {| outcome := Panics "invalid memory address or nil pointer dereference";
           final := st; log := [] |}
    | Some c =>
        let '(err, w) := AddTorrent c contents opt (world st) in
        {| outcome := Next err; final := {| fs := fs st; world := w |};
           log := [CallAddTorrent contents opt err] |}
    end.

(** *** Torrent tools and other helpers from outside the file *)

Variable K : Constants.
Variable yamlUnmarshal : string -> result (list (string * any)).

(** [*torrentutil.TorrentMeta]. *)
Variable TorrentMeta : Type.
(** The torrent of a content folder and its encoding, or why there is
    none ([torrentutil.ErrSmall] below the minimum size). *)
Variable buildTorrent : TorrentMakeOptions -> FS -> result (TorrentMeta * string).
Variable ParseTorrent : string -> result TorrentMeta.
(** [tinfo.Verify(savePath, contentPath, checkHash)]: the newest
    modification time among the content files, or the mismatch. *)
Variable Verify : TorrentMeta -> string -> string -> Z -> FS -> result Z.
Variable GetWildcardFilenames : FS -> string -> list string.
(** [filepath.Clean]. *)
Variable Clean : string -> string.

(** Modelled from the spec: [torrentutil.MakeTorrent], whose source is
    missing. "Build torrent for directory D", failing with the
    distinguished "too small" error below the minimum size; with [Force]
    set the build "always fully replaces the artifact file" at [Output]. *)
Definition MakeTorrent {R} (options : TorrentMakeOptions) : M R (result TorrentMeta) :=
  fun st =>
    match buildTorrent options (fs st) with
    | Fail err =>
        {| outcome := Next (Fail err); final := st;
           log := [CallMakeTorrent options (Some err)] |}
    | Ok (tinfo, data) =>
        {| outcome := Next (Ok tinfo);
           final := {| fs := writeNode (fs st) (Output options)
                                (File data (now (world st)));
                       world := world st |};
           log := [CallMakeTorrent options None] |}
    end.

Definition verify {R} (tinfo : TorrentMeta) (savePath contentPath : string)
    (checkHash : Z) : M R (result Z) :=
  fun st =>
    let res := Verify tinfo savePath contentPath checkHash (fs st) in
    {| outcome := Next res; final := st; log := [CallVerify contentPath res] |}.

(** [util.HasAnySuffix]. *)
Definition HasAnySuffix (s : string) (suffixes : list string) : bool :=
  existsb (Str.HasSuffix s) suffixes.

(** [util.UniqueSlice]: the first occurrence of each element. *)
Fixpoint UniqueSlice (l : list string) : list string :=
  match l with
  | [] => []
  | x :: l' => x :: List.filter (fun y => negb (String.eqb x y)) (UniqueSlice l')
  end.

(** Modelled from the spec: [util.ExistsFileWithAnySuffix], whose source
    is missing. It finds the "optional cover image", the first existing
    file [prefix ++ suffix], and is empty when there is none. *)
Fixpoint ExistsFileWithAnySuffix (f : FS) (prefix : string) (suffixes : list string)
  : string :=
  match suffixes with
  | [] => EmptyString
  | suffix :: suffixes' =>
      if FileExists f (prefix ++ suffix) then prefix ++ suffix
      else ExistsFileWithAnySuffix f prefix suffixes'
  end.

(** Lines 315-333: the body of the loop over [imageFiles]. *)
Definition addImages (f : FS) (contentPath : string) (images : list string)
    (imageFile : string) : list string :=
  let imageFilePath :=
    if filepath.IsAbs imageFile then Clean imageFile
    else filepath.Join contentPath imageFile in
  let files := GetWildcardFilenames f imageFilePath in
  let files := match files with [] => [imageFilePath] | _ => files end in
  let images :=
    fold_left
      (fun images file =>
         if negb (HasAnySuffix file (ImgExts K)) || negb (FileExists f file)
         then images else (images ++ [file])%list)
      files images in
  UniqueSlice images.

(** *** [downloadPublishedTorrent] *)

Definition downloadPublishedTorrent (siteInstance : Site)
    (clientInstance : option Client) (contentPath : string)
    (savePathMapper : option PathMapper) : M (option error) (option error) :=
  let sitename := GetName siteInstance in
  let torrentFilename :=
    filepath.Join contentPath (PUBLISHED_TORRENT_FILENAME sitename) in
  let* cached := fileExists torrentFilename in
  let* torrentContents :=
    if negb cached then
      let publishedFlagFile :=
        filepath.Join contentPath (PUBLISHED_FLAG_FILE sitename) in
      let* flagged := fileExists publishedFlagFile in
      if negb flagged then Return (Some (Errorf "id file not exists" []))
      else
        let* contents := readFile publishedFlagFile in
        match contents with
        | Fail _ => Return (Some (Errorf "failed to read %s" [publishedFlagFile]))
        | Ok contents =>
            let id := contents in
            if String.eqb id EmptyString
            then Return (Some (Errorf "published torrent id file is empty" []))
            else
              let* res := downloadTorrentById siteInstance id in
              match res with
              | Fail err => Return (Some err)
              | Ok (torrentContents, _) =>
                  let* err := writeFile torrentFilename torrentContents in
                  match err with
                  | Some err =>
                      Return (Some (Errorw "failed to write downloaded torrent file: %w" [] err))
                  | None => ret torrentContents
                  end
              end
        end
    else
      let* contents := readFile torrentFilename in
      match contents with
      | Fail err =>
          Return (Some (Errorw "failed to read downloaded torrent file: %w" [] err))
      | Ok contents => ret contents
      end in
  let savePath := filepath.Dir contentPath in
  let* savePath :=
    match savePathMapper with
    | Some mapper =>
        let '(newSavePath, matched) := Before2After mapper savePath in
        if negb matched
        then Return (Some (Errorf "local path %q can not be converted to client path" [savePath]))
        else ret newSavePath
    | None => ret savePath
    end in
  let* err :=
    addTorrent clientInstance torrentContents
      {| SkipChecking := true; SavePath := savePath; Category := SEEDING_CAT K |} in
  match err with
  | Some err => Return (Some (Errorw "failed to add torrent to client: %w" [] err))
  | None => Return None
  end.

(** *** [publicTorrent] *)

(** What [publicTorrent] returns: [(id, err)]. *)
Definition Ret : Type := string * option error.

Section Body.

Variables (siteInstance : Site) (clientInstance : option Client)
  (contentPath : string) (otherFields : Values.t)
  (mustMetadataFile checkExisting : bool)
  (savePathMapper : option PathMapper) (minTorrentSize : Z)
  (imageFiles : list string) (moveOk : string) (dryRun : bool)
  (mustTags : option (list string)) (metaArrayKeys : list string).

Definition sitename : string := GetName siteInstance.
Definition publishedFlagFile : string :=
  filepath.Join contentPath (PUBLISHED_FLAG_FILE sitename).
Definition existingFlagFile : string :=
  filepath.Join contentPath (EXISTING_FLAG_FILE sitename).
Definition torrent : string := filepath.Join contentPath (META_TORRENT_FILE K).
Definition makeTorrentOptions : TorrentMakeOptions :=
  {| Force := true;
     ContentPath := contentPath;
     Private := true;
     PieceLengthStr := TORRENT_DEFAULT_PIECE_LENGTH K;
     Output := torrent;
     MinSize := minTorrentSize;
     Excludes := [METADATA_FILE K] |}.

(** Lines 273-340: where the folder goes, the checks made before
    anything is touched, and the metadata to publish with. *)
Definition preflight : M Ret (string * Values.t) :=
  let* targetContentPath :=
    if negb (String.eqb moveOk EmptyString) then
      let targetContentPath := filepath.Join moveOk (filepath.Base contentPath) in
      let* occupied := fileExists targetContentPath in
      if occupied
      then Return (EmptyString,
                   Some (Errorf "target path in move-ok-to dir %q already exists"
                                [targetContentPath]))
      else ret targetContentPath
    else ret contentPath in
  let* _ :=
    match savePathMapper with
    | Some mapper =>
        let savePath := filepath.Dir targetContentPath in
        let '(_, matched) := Before2After mapper savePath in
        if negb matched
        then Return (EmptyString,
                     Some (Errorf "local path %q can not be mapped to client path"
                                  [savePath]))
        else ret tt
    | None => ret tt
    end in
  let metadataFile := filepath.Join contentPath (METADATA_FILE K) in
  let* hasMetadataFile := fileExists metadataFile in
  let* metadata :=
    if hasMetadataFile then
      let* f := getFs in
      match parseMetadataFile yamlUnmarshal f metadataFile metaArrayKeys with
      | Fail _ => Return (EmptyString, Some ErrInvalidMetadataFile)
      | Ok metadata => ret metadata
      end
    else if mustMetadataFile then Return (EmptyString, Some ErrNoMetadataFile)
    else ret (∅ : Values.t) in
  let metadata : Values.t := otherFields ∪ metadata in
  let metadata : Values.t := <[METADATA_KEY_ARRAY_KEYS K := metaArrayKeys]> metadata in
  if String.eqb (Values.Get metadata "title") EmptyString
  then Return (EmptyString, Some (Errorf "no title meta data found" []))
  else
    if match mustTags with
       | Some tags =>
           negb (existsb (fun t => bool_decide (t ∈ Values.at_ metadata "tags")) tags)
       | None => false
       end
    then Return (EmptyString,
                 Some (Errorf "torrent metadata does not has any tag of %v"
                              (default [] mustTags)))
    else
      let* f := getFs in
      let metadata : Values.t :=
        if (0 <? length imageFiles)%nat then
          let images := fold_left (addImages f contentPath) imageFiles [] in
          if (0 <? length images)%nat then <["_images" := images]> metadata
          else metadata
        else metadata in
      let metadata : Values.t :=
        if dryRun then Values.Set_ metadata (METADATA_KEY_DRY_RUN K) "1"
        else metadata in
      ret (targetContentPath, metadata).

(** Lines 342-353: the folder was published before. *)
Definition whenPublished (targetContentPath : string) : M Ret unit :=
  let* published := fileExists publishedFlagFile in
  if published then
    let* _ :=
      if negb (String.eqb targetContentPath contentPath) then
        let* err := replaceFile contentPath targetContentPath in
        match err with
        | Some err =>
            Return (EmptyString,
                    Some (Errorw "torrent already published but failed to move content folder: %w"
                                 [] err))
        | None => ret tt
        end
      else ret tt in
    let* err :=
      call (downloadPublishedTorrent siteInstance clientInstance
              targetContentPath savePathMapper) in
    match err with
    | Some err =>
        Return (EmptyString,
                Some (Errorw "failed to download published torrent: %w" [] err))
    | None => Return (EmptyString, Some ErrAlreadyPublished)
    end
  else ret tt.

(** Lines 365-370: the loop over the search results, left at the first
    match. *)
Fixpoint firstMatchId (number : string) (torrents : list Torrent) : string :=
  match torrents with
  | [] => EmptyString
  | t :: torrents' =>
      if isMatch number t then Id t else firstMatchId number torrents'
  end.

(** Lines 354-375: the site is known, or found, to have the contents. *)
Definition whenExisting (metadata : Values.t) : M Ret unit :=
  let* existing := fileExists existingFlagFile in
  if existing then Return (EmptyString, Some ErrExisting)
  else
    let number := Values.Get metadata "number" in
    if negb (String.eqb number EmptyString) && checkExisting then
      let* res := searchTorrents siteInstance number EmptyString in
      match res with
      | Fail err =>
          Return (EmptyString,
                  Some (Errorw "failed to search site torrents to check existing: %w"
                               [] err))
      | Ok torrents =>
          let existingTorrentId := firstMatchId number torrents in
          if negb (String.eqb existingTorrentId EmptyString) then
            let* _ := writeFile existingFlagFile existingTorrentId in
            Return (EmptyString, Some ErrExisting)
          else ret tt
      end
    else ret tt.

(** Lines 389-394 and 414-419: a build that did not go through. *)
Definition makeFailed {A} (err : error) : M Ret A :=
  match err with
  | TorrentutilErrSmall => Return (EmptyString, Some ErrSmall)
  | _ => Return (EmptyString, Some (Errorw "failed to make torrent: %w" [] err))
  end.

(** Lines 377-425: the torrent file to submit, built, reused or rebuilt. *)
Definition ensureTorrent : M Ret string :=
  let* present := fileExists torrent in
  let* _ :=
    if negb present then
      let* res := MakeTorrent makeTorrentOptions in
      match res with
      | Fail err => makeFailed err
      | Ok _ => ret tt
      end
    else ret tt in
  let* f := getFs in
  match StatModTime f torrent with
  | Fail err =>
      Return (EmptyString, Some (Errorw "failed to read torrent stat: %w" [] err))
  | Ok torrentModTime =>
      let* contents := readFile torrent in
      match contents with
      | Fail err =>
          Return (EmptyString, Some (Errorw "failed to read torrent: %w" [] err))
      | Ok torrentContents =>
          match ParseTorrent torrentContents with
          | Fail err =>
              Return (EmptyString, Some (Errorw "failed to parse torrent: %w" [] err))
          | Ok tinfo =>
              let* res := verify tinfo EmptyString contentPath 1 in
              if stale res torrentModTime then
                let* res := MakeTorrent makeTorrentOptions in
                match res with
                | Fail err => makeFailed err
                | Ok _ =>
                    let* contents := readFile torrent in
                    match contents with
                    | Fail err =>
                        Return (EmptyString,
                                Some (Errorw "failed to read torrent: %w" [] err))
                    | Ok torrentContents => ret torrentContents
                    end
                end
              else ret torrentContents
          end
      end
  end.

(** Lines 442-451: relocation and seeding after a publication. *)
Definition relocateAndSeed (targetContentPath id : string) : M Ret Ret :=
  let* _ :=
    if negb (String.eqb targetContentPath contentPath) then
      let* err := replaceFile contentPath targetContentPath in
      match err with
      | Some err =>
          Return (id,
                  Some (Errorw "torrent published (id: %s) but failed to move content folder: %w"
                               [id] err))
      | None => ret tt
      end
    else ret tt in
  let* err :=
    call (downloadPublishedTorrent siteInstance clientInstance
            targetContentPath savePathMapper) in
  match err with
  | Some err => Return (id, Some err)
  | None => Return (id, None)
  end.

(** Lines 426-451: submission, the marker, relocation and seeding. *)
Definition submit (targetContentPath : string) (metadata : Values.t)
    (torrentContents : string) : M Ret Ret :=
  let* f := getFs in
  let coverImage :=
    ExistsFileWithAnySuffix f (filepath.Join contentPath COVER) (ImgExts K) in
  let metadata : Values.t :=
    if negb (String.eqb coverImage EmptyString)
    then Values.Set_ metadata "_cover" coverImage else metadata in
  let* res := publishTorrent siteInstance torrentContents metadata in
  match res with
  | Fail err =>
      let* _ :=
        if match err with ErrDryRun => true | _ => false end
           && negb (String.eqb targetContentPath contentPath)
        then let* _ := replaceFile contentPath targetContentPath in ret tt
        else ret tt in
      Return (EmptyString, Some err)
  | Ok id =>
      let* _ :=
        if negb (String.eqb id EmptyString)
        then let* _ := writeFile publishedFlagFile id in ret tt
        else touchFile existingFlagFile in
      relocateAndSeed targetContentPath id
  end.

Definition publicTorrent : M Ret Ret :=
  let* '(targetContentPath, metadata) := preflight in
  let* _ := whenPublished targetContentPath in
  let* _ := whenExisting metadata in
  let* torrentContents := ensureTorrent in
  submit targetContentPath metadata torrentContents.

End Body.

End Pipeline.

Arguments fs {W} _.
Arguments world {W} _.
Arguments outcome {W R A} _.
Arguments final {W R A} _.
Arguments log {W R A} _.
Arguments GetName {W} _.
Arguments ret {W R A} a _.
Arguments Return {W R A} r _.
Arguments bind {W R A B} m k _.
Arguments call {W R R'} m _.
Arguments downloadPublishedTorrent : simpl never.
Arguments preflight : simpl never.
Arguments whenPublished : simpl never.
Arguments whenExisting : simpl never.
Arguments ensureTorrent : simpl never.
Arguments submit : simpl never.
Arguments relocateAndSeed : simpl never.
Arguments publicTorrent : simpl never.

(** ** Properties of pieces of function bodies *)

Section RunProperties.

Context {W : Type}.

(** [m] neither changes the state nor does anything observable. *)
Definition pure {R A} (m : M W R A) : Prop :=
  forall st, final (m st) = st /\ log (m st) = [].

(** Every event of [m] is of class [C]. *)
Definition emits {R A} (C : Event -> Prop) (m : M W R A) : Prop :=
  forall st, Forall C (log (m st)).

(** Whatever [m] does to the file system is related by [rel]. *)
Definition frames {R A} (rel : FS -> FS -> Prop) (m : M W R A) : Prop :=
  forall st, rel (fs st) (fs (final (m st))).

(** The file system is left alone. *)
Definition keepsFs {R A} (m : M W R A) : Prop :=
  forall st, fs (final (m st)) = fs st.

(** [m] never goes on: it returns or panics. *)
Definition ends {R A} (m : M W R A) : Prop :=
  forall st a, outcome (m st) <> Next a.


(** [m] never makes the function return [x]. *)
Definition neverReturns {R A} (x : R) (m : M W R A) : Prop :=
  forall st, outcome (m st) <> Returns x.

(** The run [r] after the events [l]. *)
Definition prepend {R A} (l : list Event) (r : Run W R A) : Run W R A :=
  {| outcome := outcome r; final := final r; log := (l ++ log r)%list |}.

(** How a sequence ends when its first part does not go on. *)
Definition abort {R A B} (s : step R A) : step R B :=
  match s with
  | Next _ => Panics "unreachable"
  | Returns x => Returns x
  | Panics msg => Panics msg
  end.

End RunProperties.

(** [g] is [f] except possibly at the paths in [P]. *)
Definition sameExcept (P : string -> Prop) (f g : FS) : Prop :=
  forall p, ~ P p -> g p = f p.

(** ** A concrete world

    A clock for a world, a site and a client with canned answers, and torrent
    tools over a folder with a single [payload] file: enough to run the
    pipeline on concrete folders. *)

Module Demo.

Definition K : Constants :=
  {| METADATA_FILE := "metadata.nfo";
     META_TORRENT_FILE := ".torrent";
     METADATA_KEY_ARRAY_KEYS := "_array_keys";
     METADATA_KEY_DRY_RUN := "_dry_run";
     TORRENT_DEFAULT_PIECE_LENGTH := "16MiB";
     ImgExts := [".png"; ".jpg"];
     SEEDING_CAT := "_seeding" |}.

Definition site (search : result (list Torrent)) (published : result string)
    (downloaded : result (string * string)) : Site Z :=
  {| GetName := "s";
     SearchTorrents := fun _ _ w => (search, w + 1);
     PublishTorrent := fun _ _ w => (published, w + 1);
     DownloadTorrentById := fun _ w => (downloaded, w + 1) |}.

Definition client (err : option error) : Client Z :=
  {| AddTorrent := fun _ _ w => (err, w + 1) |}.

Definition payload (contentPath : string) : string :=
  filepath.Join contentPath "payload".

Definition buildTorrent (options : TorrentMakeOptions) (f : FS)
  : result (string * string) :=
  match f (payload (ContentPath options)) with
  | Some (File data _) =>
      if Z.of_nat (Str.len data) <? MinSize options then Fail TorrentutilErrSmall
      else Ok (data, "torrent:" ++ data)
  | _ => Fail (Errorf "no contents" [])
  end.

Definition ParseTorrent (contents : string) : result string :=
  if Str.HasPrefix contents "torrent:" then Ok (Str.sliceFrom 8 contents)
  else Fail (Errorf "bencode: syntax error" []).

Definition Verify (tinfo savePath contentPath : string) (checkHash : Z) (f : FS)
  : result Z :=
  match f (payload contentPath) with
  | Some (File data t) =>
      if String.eqb data tinfo then Ok t else Fail (Errorf "hash mismatch" [])
  | _ => Fail (Errorf "no contents" [])
  end.

Fixpoint files (l : list (string * node)) : FS :=
  fun p =>
    match l with
    | [] => None
    | (q, n) :: l' => if String.eqb p q then Some n else files l' p
    end.

Definition start (f : FS) : State Z := {| fs := f; world := 100 |}.

Definition item : string := "dir/item".

Definition run (s : Site Z) (c : option (Client Z)) (moveOk : string)
    (checkExisting : bool) (st : State Z) : Run Z Ret Ret :=
  publicTorrent Z (fun w => w) K flatYaml string buildTorrent ParseTorrent Verify
    (fun _ _ => []) (fun p => p)
    s c item ∅ true checkExisting None 3 [] moveOk false None ["tags"] st.


Definition metadataNfo : string :=
  "---" ++ nl ++ "title: Foo" ++ nl ++ "number: ABC-123" ++ nl ++ "---" ++ nl
  ++ "text" ++ nl.

Definition spacedNfo : string :=
  "---" ++ nl ++ "a  b: x" ++ nl ++ "tags: a, b,c" ++ nl ++ "---" ++ nl ++ "body" ++ nl.

(** The metadata the folders below are published with. *)
Definition metadata : Values.t :=
  <["_array_keys" := ["tags"]]>
    (<["_meta" := ["title: Foo" ++ nl ++ "number: ABC-123"]]>
       (<["_text" := ["text"]]>
          (<["number" := ["ABC-123"]]> (<["title" := ["Foo"]]> ∅)))).

Definition folder : list (string * node) :=
  [("dir/item", Dir 1); ("dir/item/payload", File "content" 5)].

(** A folder never seen before. *)
Definition fresh : FS :=
  files (("dir/item/metadata.nfo", File metadataNfo 1) :: folder).


(** Published before, with and without the cached copy of the torrent. *)
Definition published : FS :=
  files (("dir/item/.published-s", File "123" 7)
         :: ("dir/item/.s.torrent", File "bytes" 7)
         :: ("dir/item/metadata.nfo", File metadataNfo 1) :: folder).

Definition publishedNoCopy : FS :=
  files (("dir/item/.published-s", File "123" 7)
         :: ("dir/item/metadata.nfo", File metadataNfo 1) :: folder).

(** Known to exist on the site, with and without its metadata file. *)
Definition known : FS :=
  files (("dir/item/.existing-s", File "77" 7)
         :: ("dir/item/metadata.nfo", File metadataNfo 1) :: folder).

Definition knownBare : FS :=
  files (("dir/item/.existing-s", File "77" 7) :: folder).

Definition siteOk : Site Z :=
  site (Ok []) (Ok "123") (Ok ("bytes", "x.torrent")).


(** The site accepts the upload and returns no id. *)
Definition siteDuplicate : Site Z :=
  site (Ok []) (Ok EmptyString) (Ok ("bytes", "x.torrent")).

Definition found : list Torrent :=
  [ {| Id := "9"; Name := "XABC-123"; Description := "another release" |};
    {| Id := "42"; Name := "Foo"; Description := "release ABC-123, remastered" |};
    {| Id := "43"; Name := "ABC-123"; Description := EmptyString |} ].

Definition siteFound : Site Z :=
  site (Ok found) (Ok "123") (Ok ("bytes", "x.torrent")).



Definition isAddCall (e : Event) : bool :=
  match e with CallAddTorrent _ _ _ => true | _ => false end.

End Demo.


(** ** The command

    [publish] and [printResult] of [cmd/publish/publish.go]: the flags are
    checked, the site and the client are set up, the content folders are
    listed, and [publicTorrent] is run on one folder after the other, each
    result being printed and counted. *)

(** A signed 64-bit integer computed from [z]. *)
Definition int64 (z : Z) : Z := (z + 2 ^ 63) mod 2 ^ 64 - 2 ^ 63.

(** The verb [%d] on an integer. *)
Definition itoa (z : Z) : string := NilZero.string_of_int (Z.to_int z).

(** An operand of [fmt.Printf]. *)
Inductive operand : Type :=
| OString (s : string)
| OError (e : error).

(** A call [fmt.Printf(format, args...)]. *)
Inductive Line : Type :=
| Printf (format : string) (args : list operand).

(** What the command does to the outside: the events of the runs of
    [publicTorrent] and the lines printed, in the order in which they
    happen. *)
Inductive Action : Type :=
| Effect (e : Event)
| Print (l : Line).

(** Lines 507-535. The line printed, and [(ok, published)]. *)
Definition printResult (contentPath id : string) (err : option error)
    (sitename clientname : string) : Line * (bool * bool) :=
  match err with
  | None =>
      let torrentFilename :=
        filepath.Join contentPath (PUBLISHED_TORRENT_FILENAME sitename) in
      (if negb (String.eqb clientname EmptyString)
       then Printf ("✓ %q: published as id %s (%s)" ++ nl)
              [OString contentPath; OString id; OString torrentFilename]
       else Printf ("✓ %q: published as id %s (%s); added to client" ++ nl)
              [OString contentPath; OString id; OString torrentFilename],
       (true, true))
  | Some ErrDryRun =>
      (Printf ("→ %q: Ready to publish to site (Dry Run)" ++ nl) [OString contentPath],
       (true, true))
  | Some ErrAlreadyPublished =>
      (Printf ("* %q: %v" ++ nl) [OString contentPath; OError ErrAlreadyPublished],
       (true, false))
  | Some (ErrNoMetadataFile as e) | Some (ErrExisting as e) =>
      (Printf ("- %q: %v" ++ nl) [OString contentPath; OError e], (true, false))
  | Some ErrSmall =>
      (Printf ("! %q: %v" ++ nl) [OString contentPath; OError ErrSmall], (true, false))
  | Some e =>
      (Printf ("X %q: %v" ++ nl) [OString contentPath; OError e], (false, false))
  end.

(** The lines of a trace. *)
Definition printed (trace : list Action) : list Line :=
  omap (fun o => match o with Print l => Some l | Effect _ => None end) trace.

(** The events of a trace. *)
Definition effects (trace : list Action) : list Event :=
  omap (fun o => match o with Effect e => Some e | Print _ => None end) trace.

(** The folder a line is about: its first operand. *)
Definition lineFolder (l : Line) : string :=
  match l with
  | Printf _ (OString contentPath :: _) => contentPath
  | _ => EmptyString
  end.

(** The mark a line starts with. *)
Definition marked (mark : string) (l : Line) : bool :=
  match l with Printf format _ => Str.HasPrefix format (mark ++ " ") end.

(** A folder published ([✓]), or ready to be in a dry run ([→]). *)
Definition isPublishedLine (l : Line) : bool := marked "✓" l || marked "→" l.

(** A folder that failed ([X]). *)
Definition isFailureLine (l : Line) : bool := marked "X" l.

(** The package variables the flags of the command are parsed into. *)
Module Flags.

Record t : Type :=
  { dryRun : bool;
    checkExisting : bool;
    showJson : bool;
    maxTorrents : Z;
    minTorrentSizeStr : string;
    sitename : string;
    clientname : string;
    contentPath : string;
    savePath : string;
    comment : string;
    commentFile : string;
    moveOkTo : string;
    mustTag : string;
    metaArrayKeysStr : string;
    imageFiles : list string;
    fields : list string;
    mapSavePaths : list string }.

End Flags.

(** [os.DirEntry], as far as the command reads it. *)
Module DirEntry.

Record t : Type := { Name : string; IsDir : bool }.

End DirEntry.

(** The functions of package [util] the command calls, whose source is
    missing. A slice that can be nil is an option. *)
Module util.

Record t : Type :=
  { CountNonZeroVariables : list string -> Z;
    RAMInBytes : string -> Z * option error;
    SplitCsv : string -> option (list string) }.

End util.

Section Command.

Variable W : Type.
Variable now : W -> Z.
Variable K : Constants.
Variable yamlUnmarshal : string -> result (list (string * any)).
Variable TorrentMeta : Type.
Variable buildTorrent : TorrentMakeOptions -> FS -> result (TorrentMeta * string).
Variable ParseTorrent : string -> result TorrentMeta.
Variable Verify : TorrentMeta -> string -> string -> Z -> FS -> result Z.
Variable GetWildcardFilenames : FS -> string -> list string.
Variable Clean : string -> string.

(** *** What the command calls from outside the file *)

Variable U : util.t.
(** [url.ParseQuery]. *)
Variable ParseQuery : string -> result Values.t.
(** [common.NewPathMapper]. *)
Variable NewPathMapper : list string -> result PathMapper.
(** [site.CreateSite] and the method [GetStatus] of the site, of which
    only the error is looked at. *)
Variable CreateSite : string -> W -> result (Site W) * W.
Variable SiteGetStatus : Site W -> W -> option error * W.
(** [client.CreateClient] and the method [GetStatus] of the client. *)
Variable CreateClient : string -> W -> result (Client W) * W.
Variable ClientGetStatus : Client W -> W -> option error * W.
(** [os.ReadDir]: the entries of a directory, sorted by name. *)
Variable ReadDir : FS -> string -> result (list DirEntry.t).
(** [os.MkdirAll(path, constants.PERM_DIR)] at a given time. *)
Variable MkdirAll : string -> FS -> Z -> option error * FS.

Notation "'let*' x ':=' m 'in' k" := (bind m (fun x => k))
  (at level 10, x name, m at level 100, k at level 200).

Definition createSite {R} (name : string) : M W R (result (Site W)) :=
  fun st =>
    let '(res, w) := CreateSite name (world st) in
    {| outcome := Next res; final := {| fs := fs st; world := w |}; log := [] |}.

Definition siteGetStatus {R} (s : Site W) : M W R (option error) :=
  fun st =>
    let '(err, w) := SiteGetStatus s (world st) in
    {| outcome := Next err; final := {| fs := fs st; world := w |}; log := [] |}.

Definition createClient {R} (name : string) : M W R (result (Client W)) :=
  fun st =>
    let '(res, w) := CreateClient name (world st) in
    {| outcome := Next res; final := {| fs := fs st; world := w |}; log := [] |}.

Definition clientGetStatus {R} (c : Client W) : M W R (option error) :=
  fun st =>
    let '(err, w) := ClientGetStatus c (world st) in
    {| outcome := Next err; final := {| fs := fs st; world := w |}; log := [] |}.

Definition mkdirAll {R} (path : string) : M W R (option error) :=
  fun st =>
    let '(err, f) := MkdirAll path (fs st) (now (world st)) in
    {| outcome := Next err; final := {| fs := f; world := world st |}; log := [] |}.

(** Lines 125-133: the [--meta] flags, merged in order. *)
Fixpoint mergeFields (fields : list string) (metaValues : Values.t)
  : result Values.t :=
  match fields with
  | [] => Ok metaValues
  | field :: fields' =>
      match ParseQuery field with
      | Fail err => Fail (Errorw "inalid field value: %w" [] err)
      | Ok values => mergeFields fields' (values ∪ metaValues)
      end
  end.

(** Lines 170-175: the folders below the save path. *)
Definition listFolders (savePath : string) (entries : list DirEntry.t) : list string :=
  List.map (fun entry => filepath.Join savePath (DirEntry.Name entry))
    (List.filter
       (fun entry =>
          negb (negb (DirEntry.IsDir entry) || Str.HasPrefix (DirEntry.Name entry) "."))
       entries).

(** What lines 109-183 set up for the loop. *)
Record Setup : Type :=
  { metaValues : Values.t;
    minTorrentSize : Z;
    mustTags : option (list string);
    metaArrayKeys : list string;
    savePathMapper : option PathMapper;
    siteInstance : Site W;
    clientInstance : option (Client W);
    contentPathes : list string }.

(** Lines 109-183. *)
Definition prepare (flags : Flags.t) : M W (option error) Setup :=
  if negb (util.CountNonZeroVariables U [Flags.contentPath flags; Flags.savePath flags]
           =? 1)
  then Return (Some (Errorf "exact one of the --content-path and --save-path flsgs must be set"
                       []))
  else if negb (String.eqb (Flags.comment flags) EmptyString)
          && negb (String.eqb (Flags.commentFile flags) EmptyString)
  then Return (Some (Errorf "--comment and --comment-file flags are NOT compatible" []))
  else
    let* comment :=
      if negb (String.eqb (Flags.commentFile flags) EmptyString) then
        let* contents := readFile W (Flags.commentFile flags) in
        match contents with
        | Fail err => Return (Some (Errorw "failed to read comment file: %w" [] err))
        | Ok contents => ret contents
        end
      else ret (Flags.comment flags) in
    let comment := Str.TrimSpace comment in
    let minTorrentSize := fst (util.RAMInBytes U (Flags.minTorrentSizeStr flags)) in
    let* metaValues :=
      match mergeFields (Flags.fields flags) ∅ with
      | Fail err => Return (Some err)
      | Ok metaValues => ret metaValues
      end in
    let metaValues : Values.t :=
      if negb (String.eqb comment EmptyString)
      then Values.Set_ metaValues "comment" comment else metaValues in
    let mustTags := util.SplitCsv U (Flags.mustTag flags) in
    let metaArrayKeys := default [] (util.SplitCsv U (Flags.metaArrayKeysStr flags)) in
    let* savePathMapper :=
      if (0 <? length (Flags.mapSavePaths flags))%nat then
        match NewPathMapper (Flags.mapSavePaths flags) with
        | Fail err => Return (Some (Errorw "invalid map-save-path(s): %w" [] err))
        | Ok mapper => ret (Some mapper)
        end
      else ret None in
    let* res := createSite (Flags.sitename flags) in
    match res with
    | Fail err => Return (Some (Errorw "failed to create site: %w" [] err))
    | Ok siteInstance =>
        let* err := siteGetStatus siteInstance in
        match err with
        | Some err => Return (Some (Errorw "failed to get site status: %w" [] err))
        | None =>
            let* clientInstance :=
              if negb (String.eqb (Flags.clientname flags) EmptyString) then
                let* res := createClient (Flags.clientname flags) in
                match res with
                | Fail err =>
                    Return (Some (Errorw "failed to create client: %w" [] err))
                | Ok clientInstance =>
                    let* err := clientGetStatus clientInstance in
                    match err with
                    | Some err =>
                        Return (Some (Errorw "client status is not ok: %w" [] err))
                    | None => ret (Some clientInstance)
                    end
                end
              else ret None in
            let* contentPathes :=
              if negb (String.eqb (Flags.savePath flags) EmptyString) then
                let* f := getFs W in
                match ReadDir f (Flags.savePath flags) with
                | Fail err =>
                    Return (Some (Errorw "failed to read save path: %w" [] err))
                | Ok entries => ret (listFolders (Flags.savePath flags) entries)
                end
              else ret [Flags.contentPath flags] in
            let* _ :=
              if negb (String.eqb (Flags.moveOkTo flags) EmptyString) then
                let* err := mkdirAll (Flags.moveOkTo flags) in
                match err with
                | Some err =>
                    Return (Some (Errorw "move-ok-to dir %q does not exist and cann't be created: %w"
                                    [Flags.moveOkTo flags] err))
                | None => ret tt
                end
              else ret tt in
            ret {| metaValues := metaValues;
                   minTorrentSize := minTorrentSize;
                   mustTags := mustTags;
                   metaArrayKeys := metaArrayKeys;
                   savePathMapper := savePathMapper;
                   siteInstance := siteInstance;
                   clientInstance := clientInstance;
                   contentPathes := contentPathes |}
        end
    end.

(** A run of the command, or of its loop: how it ends, the state it
    leaves and what it did and printed, oldest first. *)
Record Session (A : Type) : Type :=
  { ended : step (option error) A; state : State W; trace : list Action }.
Arguments ended {A} _.
Arguments state {A} _.
Arguments trace {A} _.

(** Line 188: the call of [publicTorrent] on one folder. *)
Definition publishOne (flags : Flags.t) (s : Setup) (contentPath : string)
  : M W Ret Ret :=
  publicTorrent W now K yamlUnmarshal TorrentMeta buildTorrent ParseTorrent Verify
    GetWildcardFilenames Clean (siteInstance s) (clientInstance s) contentPath
    (metaValues s) true (Flags.checkExisting flags) (savePathMapper s)
    (minTorrentSize s) (Flags.imageFiles flags) (Flags.moveOkTo flags)
    (Flags.dryRun flags) (mustTags s) (metaArrayKeys s).

(** Lines 187-200: the loop over the folders, from the counters
    [errorCnt] and [cntHandled]; it goes on with [errorCnt]. *)
Fixpoint publishAll (flags : Flags.t) (s : Setup) (contentPathes : list string)
    (errorCnt cntHandled : Z) (st : State W) : Session Z :=
  match contentPathes with
  | [] => {| ended := Next errorCnt; state := st; trace := [] |}
  | contentPath :: contentPathes' =>
      let r := publishOne flags s contentPath st in
      match outcome r with
      | Panics msg =>
          {| ended := Panics msg; state := final r; trace := List.map Effect (log r) |}
      | Next (id, err) | Returns (id, err) =>
          let '(line, (ok, published)) :=
            printResult contentPath id err (Flags.sitename flags)
              (Flags.clientname flags) in
          let errorCnt := if negb ok then int64 (errorCnt + 1) else errorCnt in
          let cntHandled :=
            if negb ok || published then int64 (cntHandled + 1) else cntHandled in
          let here := (List.map Effect (log r) ++ [Print line])%list in
          if (Flags.maxTorrents flags >? 0) && (cntHandled >=? Flags.maxTorrents flags)
          then {| ended := Next errorCnt; state := final r; trace := here |}
          else
            let rest := publishAll flags s contentPathes' errorCnt cntHandled (final r) in
            {| ended := ended rest; state := state rest;
               trace := (here ++ trace rest)%list |}
      end
  end.

(** Lines 108-205. *)
Definition publish (flags : Flags.t) (st : State W) : Session (option error) :=
  let r := prepare flags st in
  match outcome r with
  | Next s =>
      let l := publishAll flags s (contentPathes s) 0 0 (final r) in
      {| ended := match ended l with
                  | Next errorCnt =>
                      Returns (if errorCnt >? 0
                               then Some (Errorf "%d errors" [itoa errorCnt])
                               else None)
                  | Returns err => Returns err
                  | Panics msg => Panics msg
                  end;
         state := state l; trace := trace l |}
  | Returns err => {| ended := Returns err; state := final r; trace := [] |}
  | Panics msg => {| ended := Panics msg; state := final r; trace := [] |}
  end.

End Command.

Arguments ended {W A} _.
Arguments state {W A} _.
Arguments trace {W A} _.
Arguments metaValues {W} _.
Arguments minTorrentSize {W} _.
Arguments mustTags {W} _.
Arguments metaArrayKeys {W} _.
Arguments savePathMapper {W} _.
Arguments siteInstance {W} _.
Arguments clientInstance {W} _.
Arguments contentPathes {W} _.
Arguments publishOne : simpl never.

(** ** More concrete folders, and a concrete save path *)

Module Cases.

Definition taggedNfo : string :=
  "---" ++ nl ++ "title: Foo" ++ nl ++ "tags: a, b,c" ++ nl ++ "---" ++ nl
  ++ "body" ++ nl.

(** The metadata a folder with [taggedNfo] is published with. *)
Definition tagged : Values.t :=
  <["_array_keys" := ["tags"]]>
    (<["_meta" := ["title: Foo" ++ nl ++ "tags: a, b,c"]]>
       (<["_text" := ["body"]]>
          (<["tags" := ["a"; "b"; "c"]]> (<["title" := ["Foo"]]> ∅)))).

(** A folder with tags. *)
Definition labelled : FS :=
  Demo.files (("dir/item/metadata.nfo", File taggedNfo 1) :: Demo.folder).

(** A folder whose contents are below the minimum size. *)
Definition tiny : FS :=
  Demo.files [("dir/item", Dir 1);
              ("dir/item/metadata.nfo", File Demo.metadataNfo 1);
              ("dir/item/payload", File "ab" 5)].

(** A folder without a metadata file. *)
Definition bare : FS := Demo.files Demo.folder.

(** The site is in dry-run mode. *)
Definition siteDryRun : Site Z :=
  Demo.site (Ok []) (Fail ErrDryRun) (Ok ("bytes", "x.torrent")).

(** The metadata of [Demo.fresh] in a dry run. *)
Definition rehearsed : Values.t := <["_dry_run" := ["1"]]> Demo.metadata.

(** The download-and-seed step on the folder of [Demo]. *)
Definition download (s : Site Z) (c : option (Client Z)) (st : State Z)
  : Run Z (option error) (option error) :=
  downloadPublishedTorrent Z (fun w => w) Demo.K s c Demo.item None st.

Definition seeding : TorrentOption :=
  {| SkipChecking := true; SavePath := "dir"; Category := "_seeding" |}.

(** [publicTorrent] on the folder of [Demo], with a relocation target, the
    dry-run option and required tags to choose. *)
Definition run (s : Site Z) (c : option (Client Z)) (moveOk : string) (dryRun : bool)
    (mustTags : option (list string)) (st : State Z) : Run Z Ret Ret :=
  publicTorrent Z (fun w => w) Demo.K flatYaml string Demo.buildTorrent
    Demo.ParseTorrent Demo.Verify (fun _ _ => []) (fun p => p)
    s c Demo.item ∅ true false None 3 [] moveOk dryRun mustTags ["tags"] st.

(** A decoder that knows one block, and the same with the fields the
    other way round. *)
Definition fields : list (string * any) :=
  [("title", AString "Foo");
   ("tags", ASlice [AString "a"; AOther "7"]);
   ("notes", ASlice [])].

Definition decode (block : string) : result (list (string * any)) := Ok fields.

Definition decode' (block : string) : result (list (string * any)) :=
  Ok (List.rev fields).

End Cases.

Module Batch.

Definition U : util.t :=
  {| util.CountNonZeroVariables :=
       fun l =>
         Z.of_nat (length (List.filter (fun s => negb (String.eqb s EmptyString)) l));
     util.RAMInBytes := fun _ => (3, None);
     util.SplitCsv :=
       fun s => if String.eqb s EmptyString then None else Some (SplitCsv s) |}.

Definition ParseQuery (field : string) : result Values.t := Ok ∅.

Definition NewPathMapper (rules : list string) : result PathMapper :=
  Fail (Errorf "invalid path mapper rule" rules).

Definition CreateSite (s : Site Z) (name : string) (w : Z) : result (Site Z) * Z :=
  (Ok s, w + 1).

Definition CreateClient (c : Client Z) (name : string) (w : Z)
  : result (Client Z) * Z :=
  (Ok c, w + 1).

Definition GetStatus {A} (x : A) (w : Z) : option error * Z := (None, w + 1).

Definition entries : list DirEntry.t :=
  [ {| DirEntry.Name := ".git"; DirEntry.IsDir := true |};
    {| DirEntry.Name := "item"; DirEntry.IsDir := true |};
    {| DirEntry.Name := "notes.txt"; DirEntry.IsDir := false |};
    {| DirEntry.Name := "other"; DirEntry.IsDir := true |};
    {| DirEntry.Name := "zeta"; DirEntry.IsDir := true |} ].

Definition ReadDir (f : FS) (path : string) : result (list DirEntry.t) :=
  if String.eqb path "dir" then Ok entries
  else Fail (Errorf "open %s: no such file or directory" [path]).

Definition MkdirAll (path : string) (f : FS) (t : Z) : option error * FS :=
  (None, writeNode f path (Dir t)).

(** The save path [dir]: a folder ready to be published, one without a
    metadata file, one whose metadata file is not valid, a hidden
    directory and a file. *)
Definition shelf : FS :=
  Demo.files
    [ ("dir", Dir 1);
      ("dir/.git", Dir 1);
      ("dir/item", Dir 1);
      ("dir/item/metadata.nfo", File Demo.metadataNfo 1);
      ("dir/item/payload", File "content" 5);
      ("dir/notes.txt", File "remember" 1);
      ("dir/other", Dir 1);
      ("dir/other/payload", File "more content" 5);
      ("dir/zeta", Dir 1);
      ("dir/zeta/metadata.nfo", File "title: Zeta" 1);
      ("dir/zeta/payload", File "even more" 5) ].

Definition flags (clientname : string) (maxTorrents : Z) : Flags.t :=
  {| Flags.dryRun := false;
     Flags.checkExisting := false;
     Flags.showJson := false;
     Flags.maxTorrents := maxTorrents;
     Flags.minTorrentSizeStr := "3";
     Flags.sitename := "s";
     Flags.clientname := clientname;
     Flags.contentPath := EmptyString;
     Flags.savePath := "dir";
     Flags.comment := EmptyString;
     Flags.commentFile := EmptyString;
     Flags.moveOkTo := EmptyString;
     Flags.mustTag := EmptyString;
     Flags.metaArrayKeysStr := "tags";
     Flags.imageFiles := [];
     Flags.fields := [];
     Flags.mapSavePaths := [] |}.

Definition run (s : Site Z) (c : Client Z) (flags : Flags.t) (st : State Z)
  : Session Z (option error) :=
  publish Z (fun w => w) Demo.K flatYaml string Demo.buildTorrent Demo.ParseTorrent
    Demo.Verify (fun _ _ => []) (fun p => p) U ParseQuery NewPathMapper (CreateSite s)
    GetStatus (CreateClient c) GetStatus ReadDir MkdirAll flags st.

(** The number of lines for which [p] holds. *)
Definition count (p : Line -> bool) (t : list Action) : Z :=
  Z.of_nat (length (List.filter p (printed t))).

End Batch.

(** * Properties *)

(** ** Strings *)

Lemma append_nil (b : string) : EmptyString ++ b = b.
Proof. reflexivity. Qed.

Lemma append_cons (x : ascii) (a b : string) : String x a ++ b = String x (a ++ b).
Proof. reflexivity. Qed.

Ltac str_simpl := rewrite ?append_nil, ?append_cons; simpl.

Lemma append_assoc (a b c : string) : (a ++ b) ++ c = a ++ (b ++ c).
Proof. induction a as [|x a IH]; str_simpl; [reflexivity | now rewrite IH]. Qed.

Lemma len_append (a b : string) : Str.len (a ++ b) = (Str.len a + Str.len b)%nat.
Proof. induction a as [|x a IH]; str_simpl; [reflexivity | now rewrite IH]. Qed.

Lemma append_inv_head (p a b : string) : p ++ a = p ++ b -> a = b.
Proof. induction p as [|x p IH]; str_simpl; [easy | intros [= H]; auto]. Qed.

Lemma HasPrefix_append (p s : string) : Str.HasPrefix (p ++ s) p = true.
Proof.
  induction p as [|x p IH]; str_simpl; [reflexivity |].
  now rewrite Ascii.eqb_refl, IH.
Qed.


Lemma sliceTo_append (p s : string) : Str.sliceTo (Str.len p) (p ++ s) = p.
Proof. induction p as [|x p IH]; str_simpl; [now destruct s | now rewrite IH]. Qed.

Lemma sliceFrom_append (p s : string) : Str.sliceFrom (Str.len p) (p ++ s) = s.
Proof. induction p as [|x p IH]; str_simpl; [now destruct s | exact IH]. Qed.

Lemma sliceTo_eqb_prefix (s p : string) :
  String.eqb (Str.sliceTo (Str.len p) s) p = Str.HasPrefix s p.
Proof.
  revert s; induction p as [|x p IH]; intros [|y s]; simpl; try reflexivity.
  rewrite IH, (Ascii.eqb_sym y x). now destruct (Ascii.eqb x y).
Qed.

Lemma slice_split (n : nat) (s : string) : s = Str.sliceTo n s ++ Str.sliceFrom n s.
Proof.
  revert s; induction n as [|n IH]; intros [|x s]; simpl; try reflexivity.
  rewrite append_cons. now rewrite <- IH.
Qed.

Lemma sliceFrom_add (n m : nat) (s : string) :
  Str.sliceFrom (n + m) s = Str.sliceFrom m (Str.sliceFrom n s).
Proof.
  revert s; induction n as [|n IH]; intros s; simpl; [reflexivity |].
  destruct s as [|x s]; [now destruct m | apply IH].
Qed.

(** An occurrence of [sep] is found at or before the place it is known at. *)
Lemma find_append (sep a b : string) :
  exists i, Str.find sep (a ++ sep ++ b) = Some i /\ (i <= Str.len a)%nat.
Proof.
  induction a as [|x a (i & Hi & Hle)].
  - exists O. rewrite append_nil.
    pose proof (HasPrefix_append sep b) as H.
    destruct (sep ++ b); simpl; rewrite H; auto.
  - rewrite append_cons. simpl.
    destruct (Str.HasPrefix (String x (a ++ sep ++ b)) sep).
    + exists O. split; [reflexivity | lia].
    + exists (S i). rewrite Hi. split; [reflexivity | simpl; lia].
Qed.



Lemma ReplaceAll_mapBytes (s : string) (old new : ascii) :
  Str.ReplaceAll s old (String new EmptyString)
  = Str.mapBytes (fun c => if Ascii.eqb c old then new else c) s.
Proof.
  induction s as [|x s IH]; simpl; [reflexivity |].
  destruct (Ascii.eqb x old); simpl; now rewrite IH.
Qed.

Lemma mapBytes_mapBytes (f g : ascii -> ascii) (s : string) :
  Str.mapBytes g (Str.mapBytes f s) = Str.mapBytes (fun c => g (f c)) s.
Proof. induction s as [|x s IH]; simpl; [reflexivity | now rewrite IH]. Qed.

Lemma mapBytes_ext (f g : ascii -> ascii) (s : string) :
  (forall c, f c = g c) -> Str.mapBytes f s = Str.mapBytes g s.
Proof. intros H. induction s as [|x s IH]; simpl; [reflexivity | now rewrite H, IH]. Qed.

Lemma mapBytes_no_blank (s : string) :
  Str.ContainsAny s (String " " (String tab EmptyString)) = false ->
  Str.mapBytes blankToUnderscore s = s.
Proof.
  induction s as [|x s IH]; simpl; [reflexivity |].
  intros H. apply orb_false_elim in H as [Hx Hs].
  rewrite (IH Hs). unfold blankToUnderscore.
  rewrite orb_false_r in Hx. now rewrite Hx.
Qed.

Lemma normalizeKey_mapBytes (key : string) :
  normalizeKey key = Str.mapBytes blankToUnderscore key.
Proof.
  unfold normalizeKey.
  destruct (Str.ContainsAny key _) eqn:E.
  - rewrite !ReplaceAll_mapBytes, mapBytes_mapBytes.
    apply mapBytes_ext. intros c. unfold blankToUnderscore.
    destruct (Ascii.eqb c " ") eqn:E1; simpl; [reflexivity |].
    destruct (Ascii.eqb c tab); reflexivity.
  - symmetry. now apply mapBytes_no_blank.
Qed.

Lemma len_mapBytes (f : ascii -> ascii) (s : string) :
  Str.len (Str.mapBytes f s) = Str.len s.
Proof. induction s as [|x s IH]; simpl; [reflexivity | now rewrite IH]. Qed.

(** ** Metadata extraction *)

Section MetadataFacts.

Variable yamlUnmarshal : string -> result (list (string * any)).

Local Abbreviation opening := ("---" ++ nl).
Local Abbreviation closing := (nl ++ "---" ++ nl).
Local Abbreviation parse := (parseMetadataFile yamlUnmarshal).

(** A file that starts with the opening line is parsed by looking for the
    closing line in what follows. *)
Lemma parse_opened fs path arrayKeys rest :
  ReadFile fs path = Ok (opening ++ rest) ->
  (10 <= Str.len (opening ++ rest))%nat ->
  parse fs path arrayKeys =
    let index := Str.Index rest closing in
    if index <? 3 then Fail ErrInvalidMetadataFile
    else
      let block := Str.sliceTo (Z.to_nat index) rest in
      match yamlUnmarshal block with
      | Fail err => Fail err
      | Ok raw =>
          Ok (Values.Set_
                (Values.Set_ (fold_left (addField arrayKeys) raw ∅) "_text"
                   (Str.TrimSpace
                      (Str.sliceFrom (Z.to_nat index + Str.len closing) rest)))
                "_meta" block)
      end.
Proof.
  intros Hread Hlen. unfold parseMetadataFile. rewrite Hread. cbv zeta.
  apply Nat.ltb_ge in Hlen. rewrite Hlen.
  rewrite sliceTo_eqb_prefix, HasPrefix_append, sliceFrom_append.
  reflexivity.
Qed.


Lemma parse_short fs path arrayKeys contents :
  ReadFile fs path = Ok contents ->
  (Str.len contents < 10)%nat ->
  parse fs path arrayKeys = Fail ErrInvalidMetadataFile.
Proof.
  intros Hread Hlen. unfold parseMetadataFile. rewrite Hread. cbv zeta.
  apply Nat.ltb_lt in Hlen. rewrite Hlen. reflexivity.
Qed.

(** A field leaves the entries stored under other names alone. *)
Lemma addField_other arrayKeys (m : gmap string (list string)) field k :
  normalizeKey (fst field) <> k ->
  addField arrayKeys m field !! k = m !! k.
Proof.
  intros Hne. unfold addField. destruct (snd field) as [v|v|v|v].
  - case_bool_decide; unfold Values.Set_; now rewrite lookup_insert_ne.
  - now rewrite lookup_insert_ne.
  - revert m. induction v as [|vi v IH]; intros m; simpl; [reflexivity |].
    rewrite IH. unfold Values.Add. now rewrite lookup_insert_ne.
  - unfold Values.Set_. now rewrite lookup_insert_ne.
Qed.

(** Only fields store entries. *)
Lemma addFields_dom arrayKeys raw (m : gmap string (list string)) k :
  is_Some (fold_left (addField arrayKeys) raw m !! k) ->
  is_Some (m !! k) \/ exists field, In field raw /\ normalizeKey (fst field) = k.
Proof.
  revert m. induction raw as [|field raw IH]; intros m; simpl; [auto |].
  intros H. apply IH in H as [H | (f & Hin & Hf)].
  - destruct (decide (normalizeKey (fst field) = k)) as [Heq | Hne].
    + right. exists field. auto.
    + left. now rewrite addField_other in H.
  - right. exists f. auto.
Qed.


Lemma addField_mono arrayKeys (m : gmap string (list string)) field k :
  is_Some (m !! k) -> is_Some (addField arrayKeys m field !! k).
Proof.
  intros H. destruct (decide (normalizeKey (fst field) = k)) as [<- | Hne];
    [| now rewrite addField_other].
  unfold addField. destruct (snd field) as [v|v|v|v].
  - case_bool_decide; unfold Values.Set_; rewrite lookup_insert_eq; eauto.
  - rewrite lookup_insert_eq; eauto.
  - revert m H. induction v as [|vi v IH]; intros m H; simpl; [exact H |].
    apply IH. unfold Values.Add. rewrite lookup_insert_eq; eauto.
  - unfold Values.Set_. rewrite lookup_insert_eq; eauto.
Qed.

Lemma addFields_mono arrayKeys raw (m : gmap string (list string)) k :
  is_Some (m !! k) -> is_Some (fold_left (addField arrayKeys) raw m !! k).
Proof.
  revert m. induction raw as [|f raw IH]; intros m H; simpl; [exact H |].
  apply IH. now apply addField_mono.
Qed.

(** A string-valued field is stored, whatever follows it. *)
Lemma addFields_string arrayKeys raw (m : gmap string (list string)) key v :
  In (key, AString v) raw ->
  is_Some (fold_left (addField arrayKeys) raw m !! normalizeKey key).
Proof.
  revert m. induction raw as [|f raw IH]; intros m; simpl; [intros [] |].
  intros [-> | Hin]; [| now apply IH].
  apply addFields_mono. unfold addField. simpl.
  case_bool_decide; unfold Values.Set_; rewrite lookup_insert_eq; eauto.
Qed.

(** A file with a decodable block of at least three bytes between its
    delimiter lines parses to the fields of the block and the two reserved
    entries. *)
Lemma parse_delimited fs path arrayKeys block rest :
  ReadFile fs path = Ok (opening ++ block ++ closing ++ rest) ->
  Str.find closing (block ++ closing ++ rest) = Some (Str.len block) ->
  (3 <= Str.len block)%nat ->
  parse fs path arrayKeys =
    match yamlUnmarshal block with
    | Fail err => Fail err
    | Ok raw =>
        Ok (Values.Set_
              (Values.Set_ (fold_left (addField arrayKeys) raw ∅) "_text"
                 (Str.TrimSpace rest))
              "_meta" block)
    end.
Proof.
  intros Hread Hfind Hlen.
  rewrite parse_opened with (rest := block ++ closing ++ rest);
    [| exact Hread | rewrite !len_append; simpl; lia].
  unfold Str.Index. rewrite Hfind. cbv zeta.
  destruct (Z.of_nat (Str.len block) <? 3) eqn:E;
    [apply Z.ltb_lt in E; lia |].
  now rewrite Nat2Z.id, sliceTo_append, sliceFrom_add, !sliceFrom_append.
Qed.


(** C10. A metadata file shorter than ten bytes is refused with
    [ErrInvalidMetadataFile], and so is a file whose block between the
    opening and the closing delimiter line is shorter than three bytes,
    the empty block included. *)
Theorem parseMetadataFile_short_rejected fs path arrayKeys contents :
  ReadFile fs path = Ok contents ->
  ((Str.len contents < 10)%nat ->
     parse fs path arrayKeys = Fail ErrInvalidMetadataFile)
  /\ (forall block rest,
        contents = opening ++ block ++ closing ++ rest ->
        (Str.len block < 3)%nat ->
        parse fs path arrayKeys = Fail ErrInvalidMetadataFile).
Proof.
  intros Hread. split; [now apply parse_short |].
  intros block rest -> Hlen.
  destruct (Nat.lt_ge_cases
              (Str.len (opening ++ block ++ closing ++ rest)) 10) as [Hlt | Hge].
  - now apply parse_short with (opening ++ block ++ closing ++ rest).
  - rewrite parse_opened with (rest := block ++ closing ++ rest) by assumption.
    destruct (find_append closing block rest) as (i & Hi & Hle).
    unfold Str.Index. rewrite Hi. cbv zeta.
    destruct (Z.of_nat i <? 3) eqn:E; [reflexivity |].
    apply Z.ltb_ge in E. lia.
Qed.

(** C8, amended. Parsing stores a field under its name with every space
    and every tab replaced by one underscore each, byte by byte: a run of
    n such bytes yields n underscores and other bytes are kept. Every name
    in the parsed mapping other than [_text] and [_meta] arises this way,
    and every string-valued field is stored under such a name. *)
Theorem field_names_bytewise fs path arrayKeys block rest raw :
  ReadFile fs path = Ok (opening ++ block ++ closing ++ rest) ->
  Str.find closing (block ++ closing ++ rest) = Some (Str.len block) ->
  (3 <= Str.len block)%nat ->
  yamlUnmarshal block = Ok raw ->
  exists m : gmap string (list string),
    parse fs path arrayKeys = Ok m
    /\ (forall k, is_Some (m !! k) ->
          k = "_text" \/ k = "_meta"
          \/ exists key v, In (key, v) raw
                           /\ k = Str.mapBytes blankToUnderscore key)
    /\ (forall key v, In (key, AString v) raw ->
          is_Some (m !! Str.mapBytes blankToUnderscore key)).
Proof.
  intros Hread Hfind Hlen Hraw.
  rewrite (parse_delimited _ _ _ block rest) by assumption. rewrite Hraw.
  eexists. split; [reflexivity |]. unfold Values.Set_. split.
  - intros k Hk.
    destruct (decide (k = "_meta")) as [-> | H1]; [auto |].
    destruct (decide (k = "_text")) as [-> | H2]; [auto |].
    rewrite !lookup_insert_ne in Hk by congruence.
    apply addFields_dom in Hk as [Hk | ((key & v) & Hin & Hkey)].
    + rewrite lookup_empty in Hk. now destruct Hk.
    + right; right. exists key, v. split; [exact Hin |].
      now rewrite <- normalizeKey_mapBytes.
  - intros key v Hin. rewrite <- normalizeKey_mapBytes.
    destruct (decide ("_meta" = normalizeKey key)) as [<- | H1];
      [rewrite lookup_insert_eq; eauto |].
    rewrite lookup_insert_ne by exact H1.
    destruct (decide ("_text" = normalizeKey key)) as [<- | H2];
      [rewrite lookup_insert_eq; eauto |].
    rewrite lookup_insert_ne by exact H2.
    now apply addFields_string with v.
Qed.


End MetadataFacts.

(** ** Metadata extraction on concrete files *)



Lemma parseMetadataFile_short_rejected_witness :
  parseMetadataFile flatYaml
    (Demo.files [("m", File ("---" ++ nl ++ nl ++ "---" ++ nl ++ "some text" ++ nl) 0)])
    "m" [] = Fail ErrInvalidMetadataFile.
Proof.
  destruct (parseMetadataFile_short_rejected flatYaml
              (Demo.files [("m", File ("---" ++ nl ++ nl ++ "---" ++ nl ++ "some text" ++ nl) 0)])
              "m" [] _ eq_refl) as (_ & H).
  apply (H EmptyString ("some text" ++ nl) eq_refl). simpl. lia.
Defined.

(** A field name with a run of two spaces is stored with two underscores,
    not with one. *)
Lemma field_names_bytewise_counterexample :
  exists m : gmap string (list string),
    parseMetadataFile flatYaml (Demo.files [("m", File Demo.spacedNfo 0)]) "m" ["tags"] = Ok m
    /\ m !! "a__b" = Some ["x"]
    /\ m !! "a_b" = None.
Proof. eexists. split; [reflexivity |]. split; reflexivity. Qed.

Lemma field_names_bytewise_witness :
  exists m : gmap string (list string),
    parseMetadataFile flatYaml (Demo.files [("m", File Demo.spacedNfo 0)]) "m" ["tags"] = Ok m
    /\ is_Some (m !! "a__b").
Proof.
  destruct (field_names_bytewise flatYaml (Demo.files [("m", File Demo.spacedNfo 0)]) "m" ["tags"]
              ("a  b: x" ++ nl ++ "tags: a, b,c") ("body" ++ nl)
              [("a  b", AString "x"); ("tags", AString "a, b,c")]
              eq_refl eq_refl ltac:(simpl; lia) eq_refl) as (m & Hm & _ & H).
  exists m. split; [exact Hm |].
  apply (H "a  b" "x"). simpl. auto.
Defined.


(** ** Runs *)

Section RunFacts.

Context {W : Type}.

Lemma bind_next {R A B} (m : M W R A) (k : A -> M W R B) st a :
  outcome (m st) = Next a ->
  outcome (bind m k st) = outcome (k a (final (m st)))
  /\ final (bind m k st) = final (k a (final (m st)))
  /\ log (bind m k st) = (log (m st) ++ log (k a (final (m st))))%list.
Proof.
  intros H. unfold bind. destruct (m st) as [o st1 l1]. simpl in *. subst o.
  now destruct (k a st1).
Qed.

Lemma bind_returns {R A B} (m : M W R A) (k : A -> M W R B) st x :
  outcome (m st) = Returns x ->
  outcome (bind m k st) = Returns x
  /\ final (bind m k st) = final (m st)
  /\ log (bind m k st) = log (m st).
Proof.
  intros H. unfold bind. destruct (m st) as [o st1 l1]. simpl in *. now subst o.
Qed.

Lemma bind_panics {R A B} (m : M W R A) (k : A -> M W R B) st msg :
  outcome (m st) = Panics msg ->
  outcome (bind m k st) = Panics msg
  /\ final (bind m k st) = final (m st)
  /\ log (bind m k st) = log (m st).
Proof.
  intros H. unfold bind. destruct (m st) as [o st1 l1]. simpl in *. now subst o.
Qed.

(** An event of a sequence belongs to its first part, or to its second
    part when the first part goes on. *)
Lemma in_log_bind {R A B} (m : M W R A) (k : A -> M W R B) st e :
  In e (log (bind m k st)) ->
  In e (log (m st))
  \/ exists a, outcome (m st) = Next a /\ In e (log (k a (final (m st)))).
Proof.
  unfold bind. destruct (m st) as [[a | x | msg] st1 l1]; simpl; auto.
  destruct (k a st1) as [o st2 l2] eqn:E. simpl.
  intros H. apply in_app_or in H as [H | H]; [auto |].
  right. exists a. rewrite E. auto.
Qed.

Lemma bind_step {R A B} (m : M W R A) (k : A -> M W R B) st a :
  outcome (m st) = Next a ->
  bind m k st = prepend (log (m st)) (k a (final (m st))).
Proof.
  intros H. unfold bind, prepend. destruct (m st) as [o st1 l1]. simpl in *. subst o.
  now destruct (k a st1).
Qed.

Lemma bind_stop {R A B} (m : M W R A) (k : A -> M W R B) st :
  (forall a, outcome (m st) <> Next a) ->
  bind m k st
  = {| outcome := abort (outcome (m st)); final := final (m st); log := log (m st) |}.
Proof.
  intros H. unfold bind. destruct (m st) as [[a | x | msg] st1 l1]; simpl in *;
    [now destruct (H a) | reflexivity | reflexivity].
Qed.

Lemma bind_ret {R A B} (a : A) (k : A -> M W R B) st : bind (ret a) k st = k a st.
Proof. unfold bind, ret. now destruct (k a st). Qed.

Lemma bind_Return {R A B} (x : R) (k : A -> M W R B) st :
  bind (Return x) k st = Return x st.
Proof. reflexivity. Qed.

Lemma bind_fileExists {R B} path (k : bool -> M W R B) st :
  bind (fileExists W path) k st = k (FileExists (fs st) path) st.
Proof. unfold bind, fileExists. now destruct (k _ st). Qed.

Lemma bind_readFile {R B} path (k : result string -> M W R B) st :
  bind (readFile W path) k st = k (ReadFile (fs st) path) st.
Proof. unfold bind, readFile. now destruct (k _ st). Qed.

Lemma bind_getFs {R B} (k : FS -> M W R B) st :
  bind (getFs W) k st = k (fs st) st.
Proof. unfold bind, getFs. now destruct (k _ st). Qed.

Lemma bind_next_inv {R A B} (m : M W R A) (k : A -> M W R B) st b :
  outcome (bind m k st) = Next b ->
  exists a, outcome (m st) = Next a /\ outcome (k a (final (m st))) = Next b.
Proof.
  unfold bind. destruct (m st) as [[a | x | msg] st1 l1]; simpl;
    [| discriminate | discriminate].
  destruct (k a st1) as [o st2 l2] eqn:E. simpl. intros ->.
  exists a. rewrite E. auto.
Qed.

Lemma pure_ret {R A} (a : A) : pure (W := W) (ret (R := R) a).
Proof. intros st. auto. Qed.

Lemma pure_Return {R A} (x : R) : pure (W := W) (Return (A := A) x).
Proof. intros st. auto. Qed.

Lemma pure_bind {R A B} (m : M W R A) (k : A -> M W R B) :
  pure m -> (forall a, pure (k a)) -> pure (bind m k).
Proof.
  intros Hm Hk st. destruct (Hm st) as [Hf Hl]. unfold bind.
  destruct (m st) as [[a | x | msg] st1 l1]; simpl in *; auto. subst st1 l1.
  destruct (Hk a st) as [Hf' Hl']. destruct (k a st) as [o st2 l2]. simpl in *.
  now subst.
Qed.

Lemma emits_pure {R A} C (m : M W R A) : pure m -> emits C m.
Proof. intros H st. destruct (H st) as [_ ->]. constructor. Qed.

Lemma emits_bind {R A B} C (m : M W R A) (k : A -> M W R B) :
  emits C m -> (forall a, emits C (k a)) -> emits C (bind m k).
Proof.
  intros Hm Hk st. unfold bind. specialize (Hm st).
  destruct (m st) as [[a | x | msg] st1 l1]; simpl in *; auto.
  specialize (Hk a st1). destruct (k a st1) as [o st2 l2]. simpl in *.
  apply Forall_app; split; auto.
Qed.

Lemma emits_call {R R'} C (m : M W R' R') : emits C m -> emits C (call (R := R) m).
Proof.
  intros Hm st. specialize (Hm st). unfold call. now destruct (m st).
Qed.

Lemma emits_weaken {R A} (C D : Event -> Prop) (m : M W R A) :
  (forall e, C e -> D e) -> emits C m -> emits D m.
Proof. intros H Hm st. eapply Forall_impl; [apply Hm | exact H]. Qed.

Lemma frames_pure {R A} (rel : FS -> FS -> Prop) (m : M W R A) :
  (forall f, rel f f) -> pure m -> frames rel m.
Proof. intros Hrefl H st. destruct (H st) as [-> _]. apply Hrefl. Qed.

Lemma frames_bind {R A B} (rel : FS -> FS -> Prop) (m : M W R A) (k : A -> M W R B) :
  (forall f g h, rel f g -> rel g h -> rel f h) ->
  frames rel m -> (forall a, frames rel (k a)) -> frames rel (bind m k).
Proof.
  intros Htrans Hm Hk st. unfold bind. specialize (Hm st).
  destruct (m st) as [[a | x | msg] st1 l1]; simpl in *; auto.
  specialize (Hk a st1). destruct (k a st1) as [o st2 l2]. simpl in *.
  eapply Htrans; eauto.
Qed.

Lemma frames_call {R R'} rel (m : M W R' R') : frames rel m -> frames rel (call (R := R) m).
Proof.
  intros Hm st. specialize (Hm st). unfold call. now destruct (m st).
Qed.

Lemma ends_Return {R A} (x : R) : ends (W := W) (Return (A := A) x).
Proof. intros st a. discriminate. Qed.

Lemma ends_bind_l {R A B} (m : M W R A) (k : A -> M W R B) :
  ends m -> ends (bind m k).
Proof.
  intros Hm st b Hb. apply bind_next_inv in Hb as (a & Ha & _). now apply Hm in Ha.
Qed.

Lemma ends_bind_r {R A B} (m : M W R A) (k : A -> M W R B) :
  (forall a, ends (k a)) -> ends (bind m k).
Proof.
  intros Hk st b Hb. apply bind_next_inv in Hb as (a & _ & Ha). now apply Hk in Ha.
Qed.




Lemma pure_fileExists {R} path : pure (fileExists W (R := R) path).
Proof. intros st. auto. Qed.

Lemma pure_readFile {R} path : pure (readFile W (R := R) path).
Proof. intros st. auto. Qed.

Lemma pure_getFs {R} : pure (getFs W (R := R)).
Proof. intros st. auto. Qed.

(** *** The primitive actions *)

Variable now : W -> Z.

Lemma emits_writeFile {R} (C : Event -> Prop) path data :
  C (FsWriteFile path data) -> emits C (writeFile W now (R := R) path data).
Proof. intros H st. repeat constructor. exact H. Qed.

Lemma emits_touchFile {R} (C : Event -> Prop) path :
  C (FsTouchFile path) -> emits C (touchFile W now (R := R) path).
Proof. intros H st. repeat constructor. exact H. Qed.

Lemma emits_replaceFile {R} (C : Event -> Prop) source destination :
  (forall err, C (FsReplaceFile source destination err)) ->
  emits C (replaceFile W (R := R) source destination).
Proof.
  intros H st. unfold replaceFile. destruct (fs st source); repeat constructor; apply H.
Qed.

Lemma emits_searchTorrents {R} (C : Event -> Prop) s keyword baseUrl :
  (forall res, C (CallSearchTorrents keyword baseUrl res)) ->
  emits C (searchTorrents W (R := R) s keyword baseUrl).
Proof.
  intros H st. unfold searchTorrents. destruct (SearchTorrents _ _ _ _ _).
  repeat constructor. apply H.
Qed.

Lemma emits_publishTorrent {R} (C : Event -> Prop) s contents metadata :
  (forall res, C (CallPublishTorrent contents metadata res)) ->
  emits C (publishTorrent W (R := R) s contents metadata).
Proof.
  intros H st. unfold publishTorrent. destruct (PublishTorrent _ _ _ _ _).
  repeat constructor. apply H.
Qed.

Lemma emits_downloadTorrentById {R} (C : Event -> Prop) s id :
  (forall res, C (CallDownloadTorrentById id res)) ->
  emits C (downloadTorrentById W (R := R) s id).
Proof.
  intros H st. unfold downloadTorrentById. destruct (DownloadTorrentById _ _ _ _).
  repeat constructor. apply H.
Qed.

Lemma emits_addTorrent {R} (C : Event -> Prop) c contents opt :
  (forall err, C (CallAddTorrent contents opt err)) ->
  emits C (addTorrent W (R := R) c contents opt).
Proof.
  intros H st. unfold addTorrent. destruct c as [c|]; [| constructor].
  destruct (AddTorrent _ _ _ _ _). repeat constructor. apply H.
Qed.

Lemma bind_assoc {R A B C} (m : M W R A) (k1 : A -> M W R B) (k2 : B -> M W R C) st :
  bind (bind m k1) k2 st = bind m (fun a => bind (k1 a) k2) st.
Proof.
  unfold bind. destruct (m st) as [[a | x | msg] st1 l1]; [| reflexivity | reflexivity].
  destruct (k1 a st1) as [[b | x | msg] st2 l2]; [| reflexivity | reflexivity].
  destruct (k2 b st2) as [o st3 l3]. now rewrite app_assoc.
Qed.

Lemma bind_call {R R' B} (m : M W R' R') (k : R' -> M W R B) st :
  bind (call m) k st
  = match outcome (m st) with
    | Next a | Returns a => prepend (log (m st)) (k a (final (m st)))
    | Panics msg =>
        {| outcome := Panics msg; final := final (m st); log := log (m st) |}
    end.
Proof.
  unfold bind, call, prepend. destruct (m st) as [[a | a | msg] st1 l1]; simpl;
    try reflexivity; now destruct (k a st1).
Qed.

Lemma bind_writeFile {R B} path data (k : option error -> M W R B) st :
  bind (writeFile W now path data) k st
  = prepend [FsWriteFile path data]
      (k None {| fs := writeNode (fs st) path (File data (now (world st)));
                 world := world st |}).
Proof. unfold bind, writeFile, prepend. now destruct (k None _). Qed.

Lemma bind_touchFile {R B} path (k : unit -> M W R B) st :
  bind (touchFile W now path) k st
  = prepend [FsTouchFile path]
      (k tt {| fs := writeNode (fs st) path
                       match fs st path with
                       | Some (File data _) => File data (now (world st))
                       | Some (Dir _) => Dir (now (world st))
                       | None => File EmptyString (now (world st))
                       end;
               world := world st |}).
Proof. unfold bind, touchFile, prepend. now destruct (k tt _). Qed.

Lemma bind_replaceFile {R B} source destination (k : option error -> M W R B) st :
  bind (replaceFile W source destination) k st
  = match fs st source with
    | None =>
        let err := Errorf "rename %s %s: no such file or directory"
                     [source; destination] in
        prepend [FsReplaceFile source destination (Some err)] (k (Some err) st)
    | Some _ =>
        prepend [FsReplaceFile source destination None]
          (k None {| fs := renameTree (fs st) source destination; world := world st |})
    end.
Proof.
  unfold bind, replaceFile, prepend. destruct (fs st source); cbv zeta;
    now destruct (k _ _).
Qed.

Lemma bind_searchTorrents {R B} s keyword baseUrl
    (k : result (list Torrent) -> M W R B) st :
  bind (searchTorrents W s keyword baseUrl) k st
  = let called := SearchTorrents W s keyword baseUrl (world st) in
    prepend [CallSearchTorrents keyword baseUrl (fst called)]
      (k (fst called) {| fs := fs st; world := snd called |}).
Proof.
  unfold bind, searchTorrents, prepend. cbv zeta.
  destruct (SearchTorrents W s keyword baseUrl (world st)) as [res w]. simpl.
  now destruct (k res _).
Qed.

Lemma bind_publishTorrent {R B} s contents metadata (k : result string -> M W R B) st :
  bind (publishTorrent W s contents metadata) k st
  = let called := PublishTorrent W s contents metadata (world st) in
    prepend [CallPublishTorrent contents metadata (fst called)]
      (k (fst called) {| fs := fs st; world := snd called |}).
Proof.
  unfold bind, publishTorrent, prepend. cbv zeta.
  destruct (PublishTorrent W s contents metadata (world st)) as [res w]. simpl.
  now destruct (k res _).
Qed.

Lemma outcome_prepend {R A} l (r : Run W R A) : outcome (prepend l r) = outcome r.
Proof. reflexivity. Qed.

Lemma final_prepend {R A} l (r : Run W R A) : final (prepend l r) = final r.
Proof. reflexivity. Qed.

Lemma log_prepend {R A} l (r : Run W R A) : log (prepend l r) = (l ++ log r)%list.
Proof. reflexivity. Qed.

Lemma keepsFs_pure {R A} (m : M W R A) : pure m -> keepsFs m.
Proof. intros H st. now destruct (H st) as [-> _]. Qed.

Lemma keepsFs_bind {R A B} (m : M W R A) (k : A -> M W R B) :
  keepsFs m -> (forall a, keepsFs (k a)) -> keepsFs (bind m k).
Proof.
  intros Hm Hk st. unfold bind. specialize (Hm st).
  destruct (m st) as [[a | x | msg] st1 l1]; simpl in *; auto.
  specialize (Hk a st1). destruct (k a st1) as [o st2 l2]. simpl in *.
  congruence.
Qed.

Lemma keepsFs_searchTorrents {R} s keyword baseUrl :
  keepsFs (searchTorrents W (R := R) s keyword baseUrl).
Proof. intros st. unfold searchTorrents. now destruct (SearchTorrents _ _ _ _ _). Qed.

Lemma keepsFs_publishTorrent {R} s contents metadata :
  keepsFs (publishTorrent W (R := R) s contents metadata).
Proof. intros st. unfold publishTorrent. now destruct (PublishTorrent _ _ _ _ _). Qed.

Lemma keepsFs_downloadTorrentById {R} s id :
  keepsFs (downloadTorrentById W (R := R) s id).
Proof. intros st. unfold downloadTorrentById. now destruct (DownloadTorrentById _ _ _ _). Qed.

Lemma keepsFs_addTorrent {R} c contents opt :
  keepsFs (addTorrent W (R := R) c contents opt).
Proof.
  intros st. unfold addTorrent. destruct c as [c|]; [| reflexivity].
  now destruct (AddTorrent _ _ _ _ _).
Qed.

Lemma frames_keepsFs {R A} (rel : FS -> FS -> Prop) (m : M W R A) :
  (forall f, rel f f) -> keepsFs m -> frames rel m.
Proof. intros Hrefl H st. rewrite H. apply Hrefl. Qed.

Lemma sameExcept_refl P f : sameExcept P f f.
Proof. intros p _. reflexivity. Qed.

Lemma sameExcept_trans P f g h :
  sameExcept P f g -> sameExcept P g h -> sameExcept P f h.
Proof. intros H1 H2 p Hp. now rewrite H2, H1. Qed.

Lemma writeNode_other f path n p : p <> path -> writeNode f path n p = f p.
Proof.
  intros Hne. unfold writeNode.
  destruct (String.eqb p path) eqn:E; [| reflexivity].
  now apply String.eqb_eq in E.
Qed.

Lemma writeNode_same f path n : writeNode f path n path = Some n.
Proof. unfold writeNode. now rewrite String.eqb_refl. Qed.

Lemma frames_writeFile {R} (P : string -> Prop) path data :
  P path -> frames (sameExcept P) (writeFile W now (R := R) path data).
Proof.
  intros HP st p Hp. simpl. apply writeNode_other. congruence.
Qed.

End RunFacts.

(** Structural steps through a piece of a function body. *)
Ltac step_pure :=
  repeat match goal with
    | |- pure (bind _ _) => apply pure_bind; [| intros ?]
    | |- pure (ret _) => apply pure_ret
    | |- pure (Return _) => apply pure_Return
    | |- pure (fileExists _ _) => apply pure_fileExists
    | |- pure (readFile _ _) => apply pure_readFile
    | |- pure (getFs _) => apply pure_getFs
    | |- pure (match ?x with _ => _ end) => destruct x
    end.

Ltac step_emits :=
  repeat match goal with
    | |- emits _ (bind _ _) => apply emits_bind; [| intros ?]
    | |- emits _ (call _) => apply emits_call
    | |- emits _ (ret _) => apply emits_pure, pure_ret
    | |- emits _ (Return _) => apply emits_pure, pure_Return
    | |- emits _ (fileExists _ _) => apply emits_pure, pure_fileExists
    | |- emits _ (readFile _ _) => apply emits_pure, pure_readFile
    | |- emits _ (getFs _) => apply emits_pure, pure_getFs
    | |- emits _ (match ?x with _ => _ end) => destruct x
    end.

Ltac step_keepsFs :=
  repeat match goal with
    | |- keepsFs (bind _ _) => apply keepsFs_bind; [| intros ?]
    | |- keepsFs (ret _) => apply keepsFs_pure, pure_ret
    | |- keepsFs (Return _) => apply keepsFs_pure, pure_Return
    | |- keepsFs (fileExists _ _) => apply keepsFs_pure, pure_fileExists
    | |- keepsFs (readFile _ _) => apply keepsFs_pure, pure_readFile
    | |- keepsFs (getFs _) => apply keepsFs_pure, pure_getFs
    | |- keepsFs (searchTorrents _ _ _ _) => apply keepsFs_searchTorrents
    | |- keepsFs (publishTorrent _ _ _ _) => apply keepsFs_publishTorrent
    | |- keepsFs (downloadTorrentById _ _ _) => apply keepsFs_downloadTorrentById
    | |- keepsFs (addTorrent _ _ _ _) => apply keepsFs_addTorrent
    | |- keepsFs (match ?x with _ => _ end) => destruct x
    end.

Ltac step_frames :=
  repeat match goal with
    | |- frames _ (bind _ _) => apply frames_bind; [apply sameExcept_trans | | intros ?]
    | |- frames _ (call _) => apply frames_call
    | |- frames _ (ret _) => apply frames_keepsFs; [apply sameExcept_refl | step_keepsFs]
    | |- frames _ (Return _) => apply frames_keepsFs; [apply sameExcept_refl | step_keepsFs]
    | |- frames _ (fileExists _ _) => apply frames_keepsFs; [apply sameExcept_refl | step_keepsFs]
    | |- frames _ (readFile _ _) => apply frames_keepsFs; [apply sameExcept_refl | step_keepsFs]
    | |- frames _ (getFs _) => apply frames_keepsFs; [apply sameExcept_refl | step_keepsFs]
    | |- frames _ (searchTorrents _ _ _ _) => apply frames_keepsFs; [apply sameExcept_refl | step_keepsFs]
    | |- frames _ (publishTorrent _ _ _ _) => apply frames_keepsFs; [apply sameExcept_refl | step_keepsFs]
    | |- frames _ (downloadTorrentById _ _ _) => apply frames_keepsFs; [apply sameExcept_refl | step_keepsFs]
    | |- frames _ (addTorrent _ _ _ _) => apply frames_keepsFs; [apply sameExcept_refl | step_keepsFs]
    | |- frames _ (match ?x with _ => _ end) => destruct x
    end.


Section PipelineFacts.

Context {W : Type}.
Variable now : W -> Z.
Variable K : Constants.
Variable yamlUnmarshal : string -> result (list (string * any)).
Variable TorrentMeta : Type.
Variable buildTorrent : TorrentMakeOptions -> FS -> result (TorrentMeta * string).
Variable ParseTorrent : string -> result TorrentMeta.
Variable Verify : TorrentMeta -> string -> string -> Z -> FS -> result Z.
Variable GetWildcardFilenames : FS -> string -> list string.
Variable Clean : string -> string.

Variables (siteInstance : Site W) (clientInstance : option (Client W))
  (contentPath : string) (otherFields : gmap string (list string))
  (mustMetadataFile checkExisting : bool)
  (savePathMapper : option PathMapper) (minTorrentSize : Z)
  (imageFiles : list string) (moveOk : string) (dryRun : bool)
  (mustTags : option (list string)) (metaArrayKeys : list string).

Local Abbreviation preflight' :=
  (preflight W K yamlUnmarshal GetWildcardFilenames Clean contentPath otherFields
     mustMetadataFile savePathMapper imageFiles moveOk dryRun mustTags metaArrayKeys).

Lemma preflight_pure : pure preflight'.
Proof. unfold preflight. step_pure. Qed.



(** *** [downloadPublishedTorrent] *)

Section Download.

Variable path : string.

Local Abbreviation download :=
  (downloadPublishedTorrent W now K siteInstance clientInstance path savePathMapper).
Local Abbreviation torrentFilename :=
  (filepath.Join path (PUBLISHED_TORRENT_FILENAME (GetName siteInstance))).

Lemma download_emits :
  emits (fun e => isSeedingEvent e = true
                  \/ exists data, e = FsWriteFile torrentFilename data)
    download.
Proof.
  unfold downloadPublishedTorrent. step_emits.
  - apply emits_downloadTorrentById. intros res. now left.
  - apply emits_writeFile. right. eauto.
  - apply emits_addTorrent. intros err. now left.
Qed.

Lemma download_frames :
  frames (sameExcept (fun p => p = torrentFilename)) download.
Proof.
  unfold downloadPublishedTorrent. step_frames.
  apply frames_writeFile. reflexivity.
Qed.

Lemma download_ends : ends download.
Proof.
  unfold downloadPublishedTorrent.
  do 4 (apply ends_bind_r; intros ?).
  match goal with |- ends (match ?x with _ => _ end) => destruct x end;
    apply ends_Return.
Qed.

End Download.

End PipelineFacts.

(** ** Paths *)

Lemma Join_ne_dir (d n : string) : filepath.Join d n <> d.
Proof.
  intros H. apply (f_equal Str.len) in H. unfold filepath.Join in H.
  rewrite !len_append in H. simpl in H. lia.
Qed.

Lemma Join_inj (d a b : string) : filepath.Join d a = filepath.Join d b -> a = b.
Proof.
  unfold filepath.Join. intros H. apply append_inv_head in H.
  now apply append_inv_head in H.
Qed.

Lemma published_flag_ne_copy (s : string) :
  PUBLISHED_FLAG_FILE s <> PUBLISHED_TORRENT_FILENAME s.
Proof.
  intros H. apply (f_equal Str.len) in H.
  unfold PUBLISHED_FLAG_FILE, PUBLISHED_TORRENT_FILENAME in H.
  rewrite !len_append in H. simpl in H. lia.
Qed.

Lemma existing_flag_ne_published (s : string) :
  EXISTING_FLAG_FILE s <> PUBLISHED_FLAG_FILE s.
Proof.
  unfold EXISTING_FLAG_FILE, PUBLISHED_FLAG_FILE. rewrite !append_cons. discriminate.
Qed.


Lemma renameTree_below f src dst n :
  renameTree f src dst (filepath.Join dst n) = f (filepath.Join src n).
Proof.
  unfold renameTree.
  destruct (String.eqb (filepath.Join dst n) dst) eqn:E.
  - apply String.eqb_eq in E. now apply Join_ne_dir in E.
  - unfold filepath.Join. rewrite <- (append_assoc dst).
    now rewrite HasPrefix_append, sliceFrom_append.
Qed.

Lemma ReadFile_Ok f p data :
  ReadFile f p = Ok data <-> exists t, f p = Some (File data t).
Proof.
  unfold ReadFile. destruct (f p) as [[t | d t] |]; split;
    try discriminate; try (intros [t' [=]]; fail).
  - intros [= ->]. eauto.
  - intros [t' [= -> ->]]. reflexivity.
Qed.

Lemma FileExists_writeNode_other f path n p :
  p <> path -> FileExists (writeNode f path n) p = FileExists f p.
Proof. intros H. unfold FileExists. now rewrite writeNode_other. Qed.

Section MarkerFacts.

Context {W : Type}.
Variable now : W -> Z.
Variable K : Constants.
Variables (siteInstance : Site W) (clientInstance : option (Client W))
  (contentPath : string) (checkExisting : bool)
  (savePathMapper : option PathMapper).

Local Abbreviation marker := (publishedFlagFile W siteInstance contentPath).
Local Abbreviation existingMarker := (existingFlagFile W siteInstance contentPath).
Local Abbreviation copyAt target :=
  (filepath.Join target (PUBLISHED_TORRENT_FILENAME (GetName siteInstance))).
Local Abbreviation download target :=
  (downloadPublishedTorrent W now K siteInstance clientInstance target savePathMapper).
Local Abbreviation pubStep :=
  (whenPublished W now K siteInstance clientInstance contentPath savePathMapper).
Local Abbreviation exStep :=
  (whenExisting W now siteInstance contentPath checkExisting).

(** *** With the published marker *)

Lemma whenPublished_absent target st :
  FileExists (fs st) marker = false ->
  outcome (pubStep target st) = Next tt
  /\ final (pubStep target st) = st /\ log (pubStep target st) = [].
Proof.
  intros H. unfold whenPublished. rewrite bind_fileExists, H. auto.
Qed.

Lemma whenPublished_present_ends target st :
  FileExists (fs st) marker = true ->
  forall a, outcome (pubStep target st) <> Next a.
Proof.
  intros H a. unfold whenPublished. rewrite bind_fileExists, H.
  apply ends_bind_r. intros _. apply ends_bind_r. intros [err|]; apply ends_Return.
Qed.

Lemma whenPublished_emits target :
  emits (fun e => isSeedingEvent e = true
                  \/ exists data, e = FsWriteFile (copyAt target) data)
    (pubStep target).
Proof.
  unfold whenPublished. step_emits.
  - apply emits_replaceFile. intros err. now left.
  - apply download_emits.
Qed.

Lemma whenPublished_next target st a :
  outcome (pubStep target st) = Next a ->
  FileExists (fs st) marker = false
  /\ final (pubStep target st) = st /\ log (pubStep target st) = [].
Proof.
  intros H. destruct (FileExists (fs st) marker) eqn:E.
  - now apply whenPublished_present_ends with (target := target) (a := a) in E.
  - split; [reflexivity |]. now apply whenPublished_absent.
Qed.



(** *** With the existing marker, or a match on the site *)


Lemma whenExisting_marked metadata st :
  FileExists (fs st) existingMarker = true ->
  outcome (exStep metadata st) = Returns (EmptyString, Some ErrExisting)
  /\ final (exStep metadata st) = st /\ log (exStep metadata st) = [].
Proof.
  intros H. unfold whenExisting. rewrite bind_fileExists, H. auto.
Qed.

Lemma whenExisting_emits metadata :
  emits (fun e => isSearchCall e = true
                  \/ exists data, e = FsWriteFile existingMarker data)
    (exStep metadata).
Proof.
  unfold whenExisting. step_emits.
  - apply emits_searchTorrents. intros res. now left.
  - apply emits_writeFile. right. eauto.
Qed.

Lemma whenExisting_next metadata st a :
  outcome (exStep metadata st) = Next a ->
  FileExists (fs st) existingMarker = false
  /\ fs (final (exStep metadata st)) = fs st
  /\ Forall (fun e => isSearchCall e = true) (log (exStep metadata st)).
Proof.
  unfold whenExisting. rewrite bind_fileExists.
  destruct (FileExists (fs st) existingMarker); [discriminate |].
  destruct (negb _ && checkExisting); [| auto].
  rewrite bind_searchTorrents. cbv zeta.
  destruct (SearchTorrents _ _ _ _ _) as [[torrents | err] w]; [| discriminate].
  cbn [fst snd]. destruct (negb _); [rewrite bind_writeFile; discriminate |].
  intros _. repeat split. repeat constructor.
Qed.


End MarkerFacts.

(** ** The whole run *)

Section WholeRun.

Context {W : Type}.
Variable now : W -> Z.
Variable K : Constants.
Variable yamlUnmarshal : string -> result (list (string * any)).
Variable TorrentMeta : Type.
Variable buildTorrent : TorrentMakeOptions -> FS -> result (TorrentMeta * string).
Variable ParseTorrent : string -> result TorrentMeta.
Variable Verify : TorrentMeta -> string -> string -> Z -> FS -> result Z.
Variable GetWildcardFilenames : FS -> string -> list string.
Variable Clean : string -> string.

Variables (siteInstance : Site W) (clientInstance : option (Client W))
  (contentPath : string) (otherFields : gmap string (list string))
  (mustMetadataFile checkExisting : bool)
  (savePathMapper : option PathMapper) (minTorrentSize : Z)
  (imageFiles : list string) (moveOk : string) (dryRun : bool)
  (mustTags : option (list string)) (metaArrayKeys : list string).

Local Abbreviation marker := (publishedFlagFile W siteInstance contentPath).
Local Abbreviation existingMarker := (existingFlagFile W siteInstance contentPath).
Local Abbreviation torrentFile := (torrent K contentPath).
Local Abbreviation options := (makeTorrentOptions K contentPath minTorrentSize).
Local Abbreviation copyAt target :=
  (filepath.Join target (PUBLISHED_TORRENT_FILENAME (GetName siteInstance))).
Local Abbreviation markerAt target :=
  (filepath.Join target (PUBLISHED_FLAG_FILE (GetName siteInstance))).
Local Abbreviation download target :=
  (downloadPublishedTorrent W now K siteInstance clientInstance target savePathMapper).
Local Abbreviation pre :=
  (preflight W K yamlUnmarshal GetWildcardFilenames Clean contentPath otherFields
     mustMetadataFile savePathMapper imageFiles moveOk dryRun mustTags metaArrayKeys).
Local Abbreviation pubStep :=
  (whenPublished W now K siteInstance clientInstance contentPath savePathMapper).
Local Abbreviation exStep :=
  (whenExisting W now siteInstance contentPath checkExisting).
Local Abbreviation ensure :=
  (ensureTorrent W now K TorrentMeta buildTorrent ParseTorrent Verify contentPath
     minTorrentSize).
Local Abbreviation seed :=
  (relocateAndSeed W now K siteInstance clientInstance contentPath savePathMapper).
Local Abbreviation submit' :=
  (submit W now K siteInstance clientInstance contentPath savePathMapper).
Local Abbreviation run :=
  (publicTorrent W now K yamlUnmarshal TorrentMeta buildTorrent ParseTorrent Verify
     GetWildcardFilenames Clean siteInstance clientInstance contentPath otherFields
     mustMetadataFile checkExisting savePathMapper minTorrentSize imageFiles moveOk
     dryRun mustTags metaArrayKeys).

(** The events after a publication, or after finding the marker. *)
Local Abbreviation tailEvent target :=
  (fun e => isSeedingEvent e = true
            \/ exists data, e = FsWriteFile (copyAt target) data).

(** *** The torrent file *)

Lemma emits_MakeTorrent {R} (C : Event -> Prop) opts :
  (forall err, C (CallMakeTorrent opts err)) ->
  emits C (MakeTorrent W now TorrentMeta buildTorrent (R := R) opts).
Proof.
  intros H st. unfold MakeTorrent.
  destruct (buildTorrent opts (fs st)) as [[tinfo data] | err];
    repeat constructor; apply H.
Qed.

Lemma emits_verify {R} (C : Event -> Prop) tinfo savePath path checkHash :
  (forall res, C (CallVerify path res)) ->
  emits C (verify W TorrentMeta Verify (R := R) tinfo savePath path checkHash).
Proof. intros H st. repeat constructor. apply H. Qed.

Lemma bind_MakeTorrent {R B} opts (k : result TorrentMeta -> M W R B) st :
  bind (MakeTorrent W now TorrentMeta buildTorrent opts) k st
  = match buildTorrent opts (fs st) with
    | Fail err => prepend [CallMakeTorrent opts (Some err)] (k (Fail err) st)
    | Ok (tinfo, data) =>
        prepend [CallMakeTorrent opts None]
          (k (Ok tinfo)
             {| fs := writeNode (fs st) (Output opts) (File data (now (world st)));
                world := world st |})
    end.
Proof.
  unfold bind, MakeTorrent, prepend.
  destruct (buildTorrent opts (fs st)) as [[tinfo data] | err]; now destruct (k _ _).
Qed.

Lemma bind_verify {R B} tinfo savePath path checkHash (k : result Z -> M W R B) st :
  bind (verify W TorrentMeta Verify tinfo savePath path checkHash) k st
  = prepend [CallVerify path (Verify tinfo savePath path checkHash (fs st))]
      (k (Verify tinfo savePath path checkHash (fs st)) st).
Proof. unfold bind, verify, prepend. now destruct (k _ st). Qed.


Lemma ensureTorrent_emits :
  emits (fun e => isMakeCall e = true \/ isVerifyCall e = true) ensure.
Proof.
  unfold ensureTorrent, makeFailed. step_emits.
  all: try (apply emits_MakeTorrent; intros err; now left).
  all: try (apply emits_verify; intros res; now right).
Qed.


(** *** Submission *)

Lemma seed_emits target id : emits (tailEvent target) (seed target id).
Proof.
  unfold relocateAndSeed. step_emits.
  - apply emits_replaceFile. intros err. now left.
  - apply download_emits.
Qed.

Lemma download_keeps_at target p st :
  p <> copyAt target -> fs (final (download target st)) p = fs st p.
Proof. intros H. apply (download_frames now K _ _ _ target st). exact H. Qed.

Lemma markerAt_ne_copyAt target : markerAt target <> copyAt target.
Proof. intros H. apply Join_inj in H. now apply published_flag_ne_copy in H. Qed.

(** The marker written after a publication is kept, in place or in the
    relocated folder. *)
Lemma seed_keeps_marker target id st :
  ReadFile (fs st) marker = Ok id ->
  ReadFile (fs (final (seed target id st))) marker = Ok id
  \/ ReadFile (fs (final (seed target id st))) (markerAt target) = Ok id.
Proof.
  intros H. apply ReadFile_Ok in H as [t H]. unfold relocateAndSeed.
  destruct (String.eqb target contentPath) eqn:Et; cbn [negb].
  - left. apply String.eqb_eq in Et as ->. rewrite bind_ret, bind_call.
    pose proof (download_keeps_at contentPath marker st (markerAt_ne_copyAt _)) as Hk.
    destruct (download contentPath st) as [o f l]. cbn [final fs] in Hk.
    rewrite <- Hk in H. apply ReadFile_Ok. exists t.
    now destruct o as [[e|] | [e|] | msg].
  - rewrite bind_assoc, bind_replaceFile.
    destruct (fs st contentPath) as [n|] eqn:Esrc;
      [| left; apply ReadFile_Ok; now exists t].
    right. rewrite final_prepend, bind_ret, bind_call.
    match goal with
    | |- context [download target ?s] =>
        pose proof (download_keeps_at target (markerAt target) s
                      (markerAt_ne_copyAt _)) as Hk;
        destruct (download target s) as [o f l]
    end.
    cbn [final fs] in Hk. rewrite renameTree_below in Hk.
    unfold publishedFlagFile, sitename in H. rewrite <- Hk in H.
    apply ReadFile_Ok. exists t.
    now destruct o as [[e|] | [e|] | msg].
Qed.

(** A submission starts with the publish call; a published id is recorded
    next, and only relocation and seeding follow. *)
Lemma submit_log target metadata contents st :
  exists metadata' res tail,
    log (submit' target metadata contents st)
    = CallPublishTorrent contents metadata' res :: tail
    /\ match res with
       | Ok id =>
           exists post,
             tail = (if String.eqb id EmptyString then FsTouchFile existingMarker
                     else FsWriteFile marker id) :: post
             /\ Forall (tailEvent target) post
             /\ (String.eqb id EmptyString = false ->
                   ReadFile (fs (final (submit' target metadata contents st))) marker
                   = Ok id
                   \/ ReadFile (fs (final (submit' target metadata contents st)))
                        (markerAt target) = Ok id)
       | Fail _ => Forall (fun e => isSeedingEvent e = true) tail
       end.
Proof.
  unfold submit. rewrite bind_getFs, bind_publishTorrent. cbv zeta.
  match goal with
  | |- context [PublishTorrent W siteInstance contents ?m (world st)] =>
      exists m; destruct (PublishTorrent W siteInstance contents m (world st))
        as [[id | err] w]
  end; cbn [fst snd].
  - exists (Ok id). destruct (String.eqb id EmptyString) eqn:Eid; cbn [negb].
    + rewrite bind_touchFile. eexists. rewrite !log_prepend. split; [reflexivity |].
      eexists. split; [reflexivity |]. split; [apply seed_emits | discriminate].
    + rewrite bind_assoc, bind_writeFile, bind_ret.
      eexists. rewrite !log_prepend, !final_prepend. split; [reflexivity |].
      eexists. split; [reflexivity |]. split; [apply seed_emits |].
      intros _. apply seed_keeps_marker. cbn [fs]. unfold ReadFile.
      now rewrite writeNode_same.
  - exists (Fail err). destruct (_ && _).
    + rewrite bind_assoc, bind_replaceFile. cbn [fs world].
      destruct (fs st contentPath); cbv zeta; rewrite bind_ret, !log_prepend;
        cbn [log Return app];
        eexists; (split; [reflexivity |]); repeat constructor.
    + rewrite bind_ret, log_prepend. cbn [log Return app].
      eexists. split; [reflexivity |]. constructor.
Qed.

(** *** The stages of a run *)

Lemma run_cases st :
  let r := run st in
  ((forall a, outcome (pre st) <> Next a)
   /\ outcome r = abort (outcome (pre st)) /\ final r = st /\ log r = [])
  \/ exists target metadata,
       outcome (pre st) = Next (target, metadata)
       /\ ((FileExists (fs st) marker = true
            /\ outcome r = abort (outcome (pubStep target st))
            /\ final r = final (pubStep target st)
            /\ log r = log (pubStep target st))
           \/ (FileExists (fs st) marker = false
               /\ (((forall a, outcome (exStep metadata st) <> Next a)
                    /\ outcome r = abort (outcome (exStep metadata st))
                    /\ final r = final (exStep metadata st)
                    /\ log r = log (exStep metadata st))
                   \/ (outcome (exStep metadata st) = Next tt
                       /\ let st2 := final (exStep metadata st) in
                          (((forall a, outcome (ensure st2) <> Next a)
                            /\ outcome r = abort (outcome (ensure st2))
                            /\ final r = final (ensure st2)
                            /\ log r = (log (exStep metadata st) ++ log (ensure st2))%list)
                           \/ exists contents,
                                outcome (ensure st2) = Next contents
                                /\ let r3 := submit' target metadata contents
                                               (final (ensure st2)) in
                                   outcome r = outcome r3
                                   /\ final r = final r3
                                   /\ log r = (log (exStep metadata st)
                                               ++ log (ensure st2) ++ log r3)%list))))).
Proof.
  intros r. subst r. unfold publicTorrent.
  destruct (preflight_pure K yamlUnmarshal GetWildcardFilenames Clean contentPath
              otherFields mustMetadataFile savePathMapper imageFiles moveOk dryRun
              mustTags metaArrayKeys st) as [Hpf Hpl].
  destruct (outcome (pre st)) as [[target metadata] | x | msg] eqn:Epre.
  2,3: left; rewrite bind_stop by (rewrite Epre; discriminate);
       rewrite Epre, Hpf, Hpl; cbn [outcome final log];
       (split; [discriminate | auto]).
  right. exists target, metadata. split; [reflexivity |].
  rewrite (bind_step _ _ _ _ Epre), Hpf, Hpl.
  rewrite outcome_prepend, final_prepend, log_prepend. cbn [app].
  destruct (FileExists (fs st) marker) eqn:Emark.
  { left. split; [reflexivity |].
    rewrite bind_stop by (now apply whenPublished_present_ends). auto. }
  right. split; [reflexivity |].
  destruct (whenPublished_absent now K siteInstance clientInstance contentPath
              savePathMapper target st Emark) as (Hpo & Hpf' & Hpl').
  rewrite (bind_step _ _ _ _ Hpo), Hpf', Hpl'.
  rewrite outcome_prepend, final_prepend, log_prepend. cbn [app].
  destruct (outcome (exStep metadata st)) as [[] | x | msg] eqn:Eeg.
  2,3: left; rewrite bind_stop by (rewrite Eeg; discriminate);
       rewrite Eeg; cbn [outcome final log]; (split; [discriminate | auto]).
  right. split; [reflexivity |]. cbv zeta.
  rewrite (bind_step _ _ _ _ Eeg).
  rewrite outcome_prepend, final_prepend, log_prepend.
  destruct (outcome (ensure (final (exStep metadata st)))) as [contents | x | msg] eqn:Een.
  2,3: left; rewrite bind_stop by (rewrite Een; discriminate);
       rewrite Een; cbn [outcome final log]; (split; [discriminate | auto]).
  right. exists contents. split; [reflexivity |].
  rewrite (bind_step _ _ _ _ Een).
  rewrite outcome_prepend, final_prepend, log_prepend. auto.
Qed.


Lemma tailEvent_not_search target e : tailEvent target e -> isSearchCall e = false.
Proof. intros [H | [data ->]]; [now destruct e | reflexivity]. Qed.

(** *** The published marker *)





(** *** The existing marker *)

(** C5, amended. With the [existing] marker in place a run never calls
    [SearchTorrents], whatever the check option and the metadata say; when
    it gets past the checks made before the markers are looked at and there
    is no [published] marker, it ends as [ErrExisting] at once, having done
    and changed nothing. *)
Theorem existing_marker_skips_search st :
  FileExists (fs st) existingMarker = true ->
  let r := run st in
  Forall (fun e => isSearchCall e = false) (log r)
  /\ (forall target metadata,
        outcome (pre st) = Next (target, metadata) ->
        FileExists (fs st) marker = false ->
        outcome r = Returns (EmptyString, Some ErrExisting)
        /\ final r = st /\ log r = []).
Proof.
  intros H r. subst r.
  destruct (run_cases st) as [(Hno & _ & _ & Hl) | (target & metadata & Hpre & Hc)].
  { rewrite Hl. split; [constructor |]. intros t m Hp. now apply Hno in Hp. }
  destruct Hc as [(Hmark & _ & _ & Hl) | (Hmark & Hc)].
  { rewrite Hl. split; [| congruence].
    eapply Forall_impl; [apply whenPublished_emits |].
    intros e He. now apply tailEvent_not_search in He. }
  destruct (whenExisting_marked now siteInstance contentPath checkExisting
              metadata st H) as (Ho & Hf & Hl).
  destruct Hc as [(_ & Ho' & Hf' & Hl') | (Hnext & _)]; [| congruence].
  rewrite Ho', Hf', Hl', Ho, Hf, Hl. split; [constructor |]. auto.
Qed.

(** *** Submission within a run *)

Lemma In_class (C : Event -> Prop) e l : Forall C l -> In e l -> C e.
Proof. intros H Hin. rewrite Forall_forall in H. apply H. now apply list_elem_of_In. Qed.

Lemma whenExisting_not_publish metadata st e :
  In e (log (exStep metadata st)) -> isPublishCall e = false.
Proof.
  intros Hin.
  apply (In_class _ _ _ (whenExisting_emits now siteInstance contentPath
                           checkExisting metadata st)) in Hin
    as [H | [data ->]]; [now destruct e | reflexivity].
Qed.

Lemma ensureTorrent_not_publish st e :
  In e (log (ensure st)) -> isPublishCall e = false.
Proof.
  intros Hin. apply (In_class _ _ _ (ensureTorrent_emits st)) in Hin as [H | H];
    now destruct e.
Qed.

Lemma ensureTorrent_preparation st :
  Forall (fun e => isPreparation e = true) (log (ensure st)).
Proof.
  eapply Forall_impl; [apply ensureTorrent_emits |].
  intros e [H | H]; unfold isPreparation; rewrite H; now rewrite ?orb_true_r.
Qed.


(** *** The torrent file within a run *)

Lemma whenPublished_no_torrent target st e :
  In e (log (pubStep target st)) -> isMakeCall e = false /\ isVerifyCall e = false.
Proof.
  intros Hin.
  apply (In_class _ _ _ (whenPublished_emits now K siteInstance clientInstance
                           contentPath savePathMapper target st)) in Hin
    as [H | [d ->]]; [now destruct e | auto].
Qed.

Lemma whenExisting_no_torrent metadata st e :
  In e (log (exStep metadata st)) -> isMakeCall e = false /\ isVerifyCall e = false.
Proof.
  intros Hin.
  apply (In_class _ _ _ (whenExisting_emits now siteInstance contentPath
                           checkExisting metadata st)) in Hin
    as [H | [d ->]]; [now destruct e | auto].
Qed.

(** The events of a submission: the publish call, with the contents it was
    given, and nothing that concerns the torrent file. *)
Lemma submit_events target metadata contents st e :
  In e (log (submit' target metadata contents st)) ->
  (exists m x, e = CallPublishTorrent contents m x)
  \/ (isPublishCall e = false /\ isMakeCall e = false /\ isVerifyCall e = false).
Proof.
  destruct (submit_log target metadata contents st)
    as (md' & res & tail & -> & Htail).
  intros [<- | Hin]; [eauto |]. right.
  destruct res as [id | err].
  - destruct Htail as (post & -> & Hpost & _).
    destruct Hin as [<- | Hin]; [now destruct (String.eqb id EmptyString) |].
    apply (In_class _ _ _ Hpost) in Hin as [H | [d ->]]; [now destruct e | auto].
  - apply (In_class _ _ _ Htail) in Hin. now destruct e.
Qed.


End WholeRun.

(** ** Runs without a client *)

Section NeverReturns.

Context {W : Type}.
Variable now : W -> Z.

Lemma neverReturns_bind {R A B} (x : R) (m : M W R A) (k : A -> M W R B) :
  neverReturns x m -> (forall a, neverReturns x (k a)) -> neverReturns x (bind m k).
Proof.
  intros Hm Hk st. unfold bind. specialize (Hm st).
  destruct (m st) as [[a | y | msg] st1 l1]; simpl in *; [| congruence | discriminate].
  specialize (Hk a st1). now destruct (k a st1).
Qed.

(** What follows a call is reached only with a value the callee can
    return. *)
Lemma neverReturns_bind_call {R R' B} (x : R) (y : R') (m : M W R' R')
    (k : R' -> M W R B) :
  neverReturns y m -> (forall st, outcome (m st) <> Next y) ->
  (forall a, a <> y -> neverReturns x (k a)) ->
  neverReturns x (bind (call m) k).
Proof.
  intros Hr Hn Hk st. rewrite bind_call. specialize (Hr st). specialize (Hn st).
  destruct (outcome (m st)) as [a | a | msg]; [| | discriminate];
    rewrite outcome_prepend; apply Hk; congruence.
Qed.

Lemma neverReturns_bind_panics {R A B} (x : R) (m : M W R A) (k : A -> M W R B) :
  (forall st, exists msg, outcome (m st) = Panics msg) -> neverReturns x (bind m k).
Proof.
  intros Hm st. destruct (Hm st) as [msg Hmsg].
  rewrite bind_stop by (rewrite Hmsg; discriminate). rewrite Hmsg. discriminate.
Qed.

Lemma neverReturns_ret {R A} (x : R) (a : A) : neverReturns (W := W) x (ret a).
Proof. intros st. discriminate. Qed.

Lemma neverReturns_Return {R A} (x y : R) :
  x <> y -> neverReturns (W := W) (A := A) x (Return y).
Proof. intros H st. cbn. congruence. Qed.

Lemma neverReturns_pure_step {R A} (x : R) (m : M W R A) :
  (forall st, exists a, outcome (m st) = Next a) -> neverReturns x m.
Proof. intros H st. destruct (H st) as [a ->]. discriminate. Qed.

Lemma always_next_fileExists {R} path st :
  exists a, outcome (fileExists W (R := R) path st) = Next a.
Proof. cbn. eauto. Qed.

Lemma always_next_readFile {R} path st :
  exists a, outcome (readFile W (R := R) path st) = Next a.
Proof. cbn. eauto. Qed.

Lemma always_next_getFs {R} st : exists a, outcome (getFs W (R := R) st) = Next a.
Proof. cbn. eauto. Qed.

Lemma always_next_writeFile {R} path data st :
  exists a, outcome (writeFile W now (R := R) path data st) = Next a.
Proof. cbn. eauto. Qed.

Lemma always_next_touchFile {R} path st :
  exists a, outcome (touchFile W now (R := R) path st) = Next a.
Proof. cbn. eauto. Qed.

Lemma always_next_replaceFile {R} source destination st :
  exists a, outcome (replaceFile W (R := R) source destination st) = Next a.
Proof. unfold replaceFile. destruct (fs st source); cbn; eauto. Qed.

Lemma always_next_searchTorrents {R} s keyword baseUrl st :
  exists a, outcome (searchTorrents W (R := R) s keyword baseUrl st) = Next a.
Proof. unfold searchTorrents. destruct (SearchTorrents _ _ _ _ _). cbn. eauto. Qed.

Lemma always_next_publishTorrent {R} s contents metadata st :
  exists a, outcome (publishTorrent W (R := R) s contents metadata st) = Next a.
Proof. unfold publishTorrent. destruct (PublishTorrent _ _ _ _ _). cbn. eauto. Qed.

Lemma always_next_downloadTorrentById {R} s id st :
  exists a, outcome (downloadTorrentById W (R := R) s id st) = Next a.
Proof. unfold downloadTorrentById. destruct (DownloadTorrentById _ _ _ _). cbn. eauto. Qed.

Lemma addTorrent_nil_panics {R} contents opt st :
  exists msg, outcome (addTorrent W (R := R) None contents opt st) = Panics msg.
Proof. cbn. eauto. Qed.

End NeverReturns.

Ltac never_rule :=
  match goal with
  | |- neverReturns _ (bind (addTorrent _ None _ _) _) =>
      apply neverReturns_bind_panics, addTorrent_nil_panics
  | |- neverReturns _ (bind _ _) => apply neverReturns_bind; [| intros ?]
  | |- neverReturns _ (ret _) => apply neverReturns_ret
  | |- neverReturns _ (Return _) => apply neverReturns_Return; congruence
  | |- neverReturns _ (fileExists _ _) =>
      apply neverReturns_pure_step, always_next_fileExists
  | |- neverReturns _ (readFile _ _) =>
      apply neverReturns_pure_step, always_next_readFile
  | |- neverReturns _ (getFs _) =>
      apply neverReturns_pure_step, always_next_getFs
  | |- neverReturns _ (writeFile _ _ _ _) =>
      apply neverReturns_pure_step, always_next_writeFile
  | |- neverReturns _ (touchFile _ _ _) =>
      apply neverReturns_pure_step, always_next_touchFile
  | |- neverReturns _ (replaceFile _ _ _) =>
      apply neverReturns_pure_step, always_next_replaceFile
  | |- neverReturns _ (searchTorrents _ _ _ _) =>
      apply neverReturns_pure_step, always_next_searchTorrents
  | |- neverReturns _ (publishTorrent _ _ _ _) =>
      apply neverReturns_pure_step, always_next_publishTorrent
  | |- neverReturns _ (downloadTorrentById _ _ _) =>
      apply neverReturns_pure_step, always_next_downloadTorrentById
  | |- neverReturns _ (match ?x with _ => _ end) => destruct x
  end.

Ltac step_never := repeat never_rule.

Section NoClient.

Context {W : Type}.
Variable now : W -> Z.
Variable K : Constants.
Variable yamlUnmarshal : string -> result (list (string * any)).
Variable TorrentMeta : Type.
Variable buildTorrent : TorrentMakeOptions -> FS -> result (TorrentMeta * string).
Variable ParseTorrent : string -> result TorrentMeta.
Variable Verify : TorrentMeta -> string -> string -> Z -> FS -> result Z.
Variable GetWildcardFilenames : FS -> string -> list string.
Variable Clean : string -> string.

Variables (siteInstance : Site W)
  (contentPath : string) (otherFields : gmap string (list string))
  (mustMetadataFile checkExisting : bool)
  (savePathMapper : option PathMapper) (minTorrentSize : Z)
  (imageFiles : list string) (moveOk : string) (dryRun : bool)
  (mustTags : option (list string)) (metaArrayKeys : list string).

Local Abbreviation download target :=
  (downloadPublishedTorrent W now K siteInstance None target savePathMapper).

(** Without a client the download-and-seed step never returns nil. *)
Lemma download_needs_client target : neverReturns None (download target).
Proof. unfold downloadPublishedTorrent. step_never. Qed.

Lemma download_needs_client_next target st : outcome (download target st) <> Next None.
Proof. apply (download_ends now K siteInstance None savePathMapper target). Qed.

Lemma always_next_MakeTorrent {R} opts st :
  exists a, outcome (MakeTorrent W now TorrentMeta buildTorrent (R := R) opts st) = Next a.
Proof.
  unfold MakeTorrent. destruct (buildTorrent opts (fs st)) as [[tinfo data] | err];
    cbn; eauto.
Qed.

Lemma always_next_verify {R} tinfo savePath path checkHash st :
  exists a, outcome (verify W TorrentMeta Verify (R := R) tinfo savePath path checkHash st)
            = Next a.
Proof. cbn. eauto. Qed.

Ltac run_rule :=
  match goal with
  | |- neverReturns _ (bind (call (downloadPublishedTorrent _ _ _ _ None _ _)) _) =>
      apply (neverReturns_bind_call _ None);
      [ apply download_needs_client
      | apply download_needs_client_next
      | intros [?|] ?; [| congruence] ]
  | |- neverReturns _ (MakeTorrent _ _ _ _ _) =>
      apply neverReturns_pure_step, always_next_MakeTorrent
  | |- neverReturns _ (verify _ _ _ _ _ _ _) =>
      apply neverReturns_pure_step, always_next_verify
  end.

Ltac step_run := repeat first [run_rule | never_rule].

Local Abbreviation run :=
  (publicTorrent W now K yamlUnmarshal TorrentMeta buildTorrent ParseTorrent Verify
     GetWildcardFilenames Clean siteInstance None contentPath otherFields
     mustMetadataFile checkExisting savePathMapper minTorrentSize imageFiles moveOk
     dryRun mustTags metaArrayKeys).

Lemma run_needs_client_published id : neverReturns (id, None) run.
Proof.
  unfold publicTorrent, preflight, whenPublished, whenExisting, ensureTorrent, submit,
    relocateAndSeed, makeFailed.
  step_run.
Qed.

(** With the marker in place and no client a run never ends as
    [ErrAlreadyPublished]. *)
Lemma run_needs_client_already st :
  FileExists (fs st) (publishedFlagFile W siteInstance contentPath) = true ->
  outcome (run st) <> Returns (EmptyString, Some ErrAlreadyPublished).
Proof.
  intros H.
  destruct (run_cases now K yamlUnmarshal TorrentMeta buildTorrent ParseTorrent Verify
              GetWildcardFilenames Clean siteInstance None contentPath otherFields
              mustMetadataFile checkExisting savePathMapper minTorrentSize imageFiles
              moveOk dryRun mustTags metaArrayKeys st)
    as [(_ & -> & _) | (target & metadata & _ & Hc)].
  - match goal with
    | |- abort (outcome (?m st)) <> _ =>
        assert (neverReturns (EmptyString, Some ErrAlreadyPublished) m) as Hn
          by (unfold preflight; step_never)
    end.
    specialize (Hn st).
    match goal with
    | |- abort ?o <> _ =>
        destruct o as [a | x | msg] eqn:E; cbn; [discriminate | | discriminate]
    end.
    intros [= ->]. now apply Hn.
  - destruct Hc as [(_ & -> & _) | (Hfalse & _)]; [| congruence].
    match goal with
    | |- abort (outcome (?m st)) <> _ =>
        assert (neverReturns (EmptyString, Some ErrAlreadyPublished) m) as Hn
          by (unfold whenPublished; step_run)
    end.
    specialize (Hn st).
    match goal with
    | |- abort ?o <> _ =>
        destruct o as [a | x | msg] eqn:E; cbn; [discriminate | | discriminate]
    end.
    intros [= ->]. now apply Hn.
Qed.

End NoClient.

(** ** The pipeline on concrete folders *)

Local Notation "'at_demo' thm s c moveOk checkExisting" :=
  (thm (fun w : Z => w) Demo.K flatYaml string Demo.buildTorrent Demo.ParseTorrent
     Demo.Verify (fun (_ : FS) (_ : string) => @nil string) (fun p : string => p)
     s c Demo.item (∅ : gmap string (list string)) true checkExisting
     (@None PathMapper) 3 (@nil string) moveOk false (@None (list string)) ["tags"])
  (at level 10, thm at level 9, s at level 9, c at level 9, moveOk at level 9,
   checkExisting at level 9, only parsing).

Ltac find_in := vm_compute; repeat first [left; reflexivity | right].






(** The failing input of C4: no client was asked for. A fresh folder is
    published, its marker written and its torrent downloaded, and then the
    process panics on the nil client; a folder published before fares no
    better. No client operation is completed in either run. *)
Theorem publish_without_client_panics :
  let r := Demo.run Demo.siteOk None EmptyString false (Demo.start Demo.fresh) in
  let r' := Demo.run Demo.siteOk None EmptyString false (Demo.start Demo.published) in
  outcome r = Panics "invalid memory address or nil pointer dereference"
  /\ existsb isPublishCall (log r) = true
  /\ ReadFile (fs (final r)) "dir/item/.published-s" = Ok "123"
  /\ ReadFile (fs (final r)) "dir/item/.s.torrent" = Ok "bytes"
  /\ existsb Demo.isAddCall (log r) = false
  /\ outcome r' = Panics "invalid memory address or nil pointer dereference"
  /\ log r' = [].
Proof. repeat split; vm_compute; reflexivity. Qed.

(** A folder known to exist on the site: with the check asked for and a
    [number] in its metadata the run ends as existing, having done nothing. *)
Lemma existing_marker_skips_search_witness :
  let r := Demo.run Demo.siteFound (Some (Demo.client None)) EmptyString true
             (Demo.start Demo.known) in
  FileExists Demo.known "dir/item/.existing-s" = true
  /\ Values.Get Demo.metadata "number" = "ABC-123"
  /\ outcome r = Returns (EmptyString, Some ErrExisting)
  /\ log r = [].
Proof.
  destruct (at_demo existing_marker_skips_search Demo.siteFound
              (Some (Demo.client None)) EmptyString true (Demo.start Demo.known) eq_refl)
    as [_ H].
  destruct (H Demo.item Demo.metadata) as (Ho & _ & Hl).
  - vm_compute. reflexivity.
  - reflexivity.
  - split; [reflexivity |]. split; [reflexivity |]. split; [exact Ho | exact Hl].
Defined.

(** The [existing] marker is in place and the metadata file is gone: the run
    ends as lacking metadata, not as existing. *)
Lemma existing_marker_skips_search_counterexample :
  let r := Demo.run Demo.siteFound (Some (Demo.client None)) EmptyString true
             (Demo.start Demo.knownBare) in
  FileExists Demo.knownBare "dir/item/.existing-s" = true
  /\ outcome r = Returns (EmptyString, Some ErrNoMetadataFile)
  /\ outcome r <> Returns (EmptyString, Some ErrExisting).
Proof.
  split; [reflexivity |].
  assert (outcome (Demo.run Demo.siteFound (Some (Demo.client None)) EmptyString true
                     (Demo.start Demo.knownBare))
          = Returns (EmptyString, Some ErrNoMetadataFile)) as H
    by (vm_compute; reflexivity).
  split; [exact H |]. cbv zeta. rewrite H. discriminate.
Qed.



(** ** The download-and-seed step, case by case *)

Section DownloadCases.

Context {W : Type}.
Variable now : W -> Z.
Variable K : Constants.
Variables (siteInstance : Site W) (clientInstance : option (Client W))
  (savePathMapper : option PathMapper) (path : string).

Local Abbreviation download :=
  (downloadPublishedTorrent W now K siteInstance clientInstance path savePathMapper).
Local Abbreviation copy :=
  (filepath.Join path (PUBLISHED_TORRENT_FILENAME (GetName siteInstance))).
Local Abbreviation idFile :=
  (filepath.Join path (PUBLISHED_FLAG_FILE (GetName siteInstance))).
Local Abbreviation seeding savePath :=
  {| SkipChecking := true; SavePath := savePath; Category := SEEDING_CAT K |}.
Local Abbreviation stop st err :=
  ({| outcome := Returns (Some err); final := st; log := [] |}
   : Run W (option error) (option error)).

(** Lines 486-502: what is done with the torrent once it is at hand. *)
Local Abbreviation add data savePath st :=
  (match clientInstance with
   | None =>
       {| outcome := Panics "invalid memory address or nil pointer dereference";
          final := st; log := [] |}
   | Some c =>
       {| outcome :=
            Returns match fst (AddTorrent W c data (seeding savePath) (world st)) with
                    | Some err => Some (Errorw "failed to add torrent to client: %w" [] err)
                    | None => None
                    end;
          final := {| fs := fs st;
                      world := snd (AddTorrent W c data (seeding savePath) (world st)) |};
          log := [CallAddTorrent data (seeding savePath)
                    (fst (AddTorrent W c data (seeding savePath) (world st)))] |}
   end : Run W (option error) (option error)).

Local Abbreviation seedWith data st :=
  (match savePathMapper with
   | Some mapper =>
       if snd (Before2After mapper (filepath.Dir path))
       then add data (fst (Before2After mapper (filepath.Dir path))) st
       else stop st (Errorf "local path %q can not be converted to client path"
                       [filepath.Dir path])
   | None => add data (filepath.Dir path) st
   end).

Lemma bind_downloadTorrentById {R B} s id
    (k : result (string * string) -> M W R B) st :
  bind (downloadTorrentById W s id) k st
  = let called := DownloadTorrentById W s id (world st) in
    prepend [CallDownloadTorrentById id (fst called)]
      (k (fst called) {| fs := fs st; world := snd called |}).
Proof.
  unfold bind, downloadTorrentById, prepend. cbv zeta.
  destruct (DownloadTorrentById W s id (world st)) as [res w]. simpl.
  now destruct (k res _).
Qed.

Lemma download_tail data st :
  bind
    match savePathMapper with
    | Some mapper =>
        let '(newSavePath, matched) := Before2After mapper (filepath.Dir path) in
        if negb matched
        then Return (Some (Errorf "local path %q can not be converted to client path"
                             [filepath.Dir path]))
        else ret newSavePath
    | None => ret (filepath.Dir path)
    end
    (fun savePath =>
       bind (addTorrent W clientInstance data (seeding savePath))
         (fun err =>
            match err with
            | Some err =>
                Return (Some (Errorw "failed to add torrent to client: %w" [] err))
            | None => Return None
            end)) st
  = seedWith data st.
Proof.
  destruct savePathMapper as [mapper|].
  - destruct (Before2After mapper (filepath.Dir path)) as [p [|]]; cbn [fst snd negb].
    + rewrite bind_ret. unfold bind, addTorrent. destruct clientInstance as [c|];
        [| reflexivity].
      cbv zeta. destruct (AddTorrent W c data _ (world st)) as [[e|] w]; reflexivity.
    + reflexivity.
  - rewrite bind_ret. unfold bind, addTorrent. destruct clientInstance as [c|];
      [| reflexivity].
    cbv zeta. destruct (AddTorrent W c data _ (world st)) as [[e|] w]; reflexivity.
Qed.

(** [downloadPublishedTorrent], by the state it starts in. *)
Lemma download_cases st :
  download st
  = if FileExists (fs st) copy then
      match ReadFile (fs st) copy with
      | Fail err =>
          stop st (Errorw "failed to read downloaded torrent file: %w" [] err)
      | Ok data => seedWith data st
      end
    else if FileExists (fs st) idFile then
      match ReadFile (fs st) idFile with
      | Fail _ => stop st (Errorf "failed to read %s" [idFile])
      | Ok id =>
          if String.eqb id EmptyString
          then stop st (Errorf "published torrent id file is empty" [])
          else
            let called := DownloadTorrentById W siteInstance id (world st) in
            match fst called with
            | Fail err =>
                {| outcome := Returns (Some err);
                   final := {| fs := fs st; world := snd called |};
                   log := [CallDownloadTorrentById id (Fail err)] |}
            | Ok (data, name) =>
                prepend [CallDownloadTorrentById id (Ok (data, name));
                         FsWriteFile copy data]
                  (seedWith data
                     {| fs := writeNode (fs st) copy (File data (now (snd called)));
                        world := snd called |})
            end
      end
    else stop st (Errorf "id file not exists" []).
Proof.
  unfold downloadPublishedTorrent.
  rewrite bind_fileExists. destruct (FileExists (fs st) copy); cbn [negb].
  - rewrite bind_assoc, bind_readFile.
    destruct (ReadFile (fs st) copy) as [data | err]; [| reflexivity].
    rewrite bind_ret. apply download_tail.
  - rewrite bind_assoc, bind_fileExists.
    destruct (FileExists (fs st) idFile); cbn [negb]; [| reflexivity].
    rewrite bind_assoc, bind_readFile.
    destruct (ReadFile (fs st) idFile) as [id | err]; [| reflexivity].
    destruct (String.eqb id EmptyString); [reflexivity |].
    rewrite bind_assoc, bind_downloadTorrentById. cbv zeta.
    destruct (DownloadTorrentById W siteInstance id (world st)) as [[[data name] | err] w];
      cbn [fst snd]; [| reflexivity].
    rewrite bind_assoc, bind_writeFile, bind_ret. cbn [fs world].
    rewrite download_tail. reflexivity.
Qed.

Local Abbreviation clientPath :=
  (match savePathMapper with
   | Some mapper => fst (Before2After mapper (filepath.Dir path))
   | None => filepath.Dir path
   end).
Local Abbreviation mapped :=
  (match savePathMapper with
   | Some mapper => snd (Before2After mapper (filepath.Dir path)) = true
   | None => True
   end).

(** With the torrent [data] at hand in [st], the step ends without an
    event, or with the one call that gives [data] to the client. *)
Lemma seedWith_facts data st :
  fs (final (seedWith data st)) = fs st
  /\ (log (seedWith data st) = []
      \/ exists err,
           mapped /\ log (seedWith data st) = [CallAddTorrent data (seeding clientPath) err])
  /\ (outcome (seedWith data st) = Returns None ->
      log (seedWith data st) = [CallAddTorrent data (seeding clientPath) None])
  /\ (forall a, outcome (seedWith data st) <> Next a)
  /\ (mapped -> is_Some clientInstance ->
      exists err, log (seedWith data st) = [CallAddTorrent data (seeding clientPath) err]).
Proof.
  destruct savePathMapper as [mapper|];
    [destruct (snd (Before2After mapper _)) |];
    destruct clientInstance as [c|]; cbv zeta;
    try match goal with
      | |- context [AddTorrent W ?c ?d ?o ?w] =>
          destruct (AddTorrent W c d o w) as [[e|] w']
      end;
    cbn [outcome final log fs fst snd];
    repeat split; eauto; try discriminate;
    try (intros _ [? [=]]); try (intros [=]); try (intros [=] _).
Qed.

Lemma FileExists_File f p data mtime :
  f p = Some (File data mtime) -> FileExists f p = true /\ ReadFile f p = Ok data.
Proof. intros H. unfold FileExists, ReadFile. now rewrite H. Qed.

Lemma download_cached st data :
  FileExists (fs st) copy = true ->
  ReadFile (fs st) copy = Ok data ->
  download st = seedWith data st.
Proof. intros He Hr. now rewrite download_cases, He, Hr. Qed.

(** X9. With the copy of the torrent in the folder,
    [downloadPublishedTorrent] does not ask the site for it and leaves the
    file system alone: it does nothing, or calls the client once, with
    the bytes of the copy. *)
Theorem cached_torrent_reused st data mtime :
  fs st copy = Some (File data mtime) ->
  let r := download st in
  fs (final r) = fs st
  /\ (log r = [] \/ exists err, log r = [CallAddTorrent data (seeding clientPath) err]).
Proof.
  intros H r. subst r. apply FileExists_File in H as [He Hr].
  rewrite (download_cached st data He Hr).
  destruct (seedWith_facts data st) as (Hfs & Hlog & _).
  split; [exact Hfs |]. destruct Hlog as [Hl | (err & _ & Hl)]; eauto.
Qed.

(** X10. [downloadPublishedTorrent] downloads from the site only when
    the copy of the torrent is missing, and then by the id it read from the
    [published] marker, which is not empty; the download is the first
    thing the step does. *)
Theorem site_download_by_marker_id st id res :
  In (CallDownloadTorrentById id res) (log (download st)) ->
  FileExists (fs st) copy = false
  /\ ReadFile (fs st) idFile = Ok id
  /\ id <> EmptyString
  /\ exists tail, log (download st) = CallDownloadTorrentById id res :: tail.
Proof.
  rewrite download_cases.
  destruct (FileExists (fs st) copy).
  { destruct (ReadFile (fs st) copy) as [data | err]; [| intros []].
    destruct (seedWith_facts data st) as (_ & [-> | (err & _ & ->)] & _);
      [intros [] | intros [[=] | []]]. }
  destruct (FileExists (fs st) idFile); [| intros []].
  destruct (ReadFile (fs st) idFile) as [id' | err]; [| intros []].
  destruct (String.eqb id' EmptyString) eqn:Eid; [intros [] |].
  apply String.eqb_neq in Eid. cbv zeta.
  destruct (DownloadTorrentById W siteInstance id' (world st)) as [[[data name] | err] w];
    cbn [fst snd].
  - rewrite log_prepend.
    pose proof (seedWith_facts data
                  {| fs := writeNode (fs st) copy (File data (now w)); world := w |})
      as (_ & Hl & _).
    destruct Hl as [Hl | (err & _ & Hl)]; rewrite Hl;
      (intros [Heq | [Heq | Hin]];
       [ injection Heq as <- <-; repeat split; eauto
       | discriminate Heq
       | try (destruct Hin as [Heq | []]; discriminate Heq); try destruct Hin ]).
  - intros [Heq | []]. injection Heq as <- <-. repeat split; eauto.
Qed.



(** The torrent the client is given is the one in the torrent file. *)
Lemma download_added st data opt err :
  In (CallAddTorrent data opt err) (log (download st)) ->
  opt = seeding clientPath /\ mapped
  /\ ReadFile (fs (final (download st))) copy = Ok data
  /\ exists before, log (download st) = (before ++ [CallAddTorrent data opt err])%list.
Proof.
  rewrite download_cases.
  destruct (FileExists (fs st) copy) eqn:Ec.
  { destruct (ReadFile (fs st) copy) as [data' | e] eqn:Er; [| intros []].
    destruct (seedWith_facts data' st) as (Hfs & [Hl | (e & Hm & Hl)] & _);
      rewrite Hl; [intros [] |].
    intros [[= <- <- <-] | []]. rewrite Hfs, Er.
    repeat split; auto. now exists []. }
  destruct (FileExists (fs st) idFile); [| intros []].
  destruct (ReadFile (fs st) idFile) as [id | e]; [| intros []].
  destruct (String.eqb id EmptyString); [intros [] |]. cbv zeta.
  destruct (DownloadTorrentById W siteInstance id (world st)) as [[[data' name] | e] w];
    cbn [fst snd]; [| intros [[=] | []]].
  rewrite log_prepend, final_prepend.
  destruct (seedWith_facts data'
              {| fs := writeNode (fs st) copy (File data' (now w)); world := w |})
    as (Hfs & [Hl | (e & Hm & Hl)] & _);
    rewrite Hl, Hfs; cbn [fs].
  - intros [[=] | [[=] | []]].
  - intros [[=] | [[=] | [[= <- <- <-] | []]]].
    unfold ReadFile. rewrite writeNode_same.
    repeat split; auto. eexists [_; _]. reflexivity.
Qed.

(** X12. What the client is given is the torrent of the folder: the
    bytes the torrent file holds when the step is over, with checking
    skipped, the seeding category and, as save path, the directory of the
    folder, mapped when there is a path mapper, which then matches. The
    call of the client is the last thing the step does. *)
Theorem client_given_torrent_file st data opt err :
  In (CallAddTorrent data opt err) (log (download st)) ->
  opt = seeding clientPath
  /\ mapped
  /\ ReadFile (fs (final (download st))) copy = Ok data
  /\ exists before, log (download st) = (before ++ [CallAddTorrent data opt err])%list.
Proof. apply download_added. Qed.

(** The step returns no error only after the client took the torrent. *)
Lemma download_success st :
  outcome (download st) = Returns None ->
  exists before data,
    log (download st) = (before ++ [CallAddTorrent data (seeding clientPath) None])%list.
Proof.
  rewrite download_cases.
  destruct (FileExists (fs st) copy).
  { destruct (ReadFile (fs st) copy) as [data | e]; [| discriminate].
    destruct (seedWith_facts data st) as (_ & _ & Hok & _).
    intros H. rewrite (Hok H). now exists [], data. }
  destruct (FileExists (fs st) idFile); [| discriminate].
  destruct (ReadFile (fs st) idFile) as [id | e]; [| discriminate].
  destruct (String.eqb id EmptyString); [discriminate |]. cbv zeta.
  destruct (DownloadTorrentById W siteInstance id (world st)) as [[[data name] | e] w];
    cbn [fst snd]; [| discriminate].
  rewrite outcome_prepend, log_prepend.
  destruct (seedWith_facts data
              {| fs := writeNode (fs st) copy (File data (now w)); world := w |})
    as (_ & _ & Hok & _).
  intros H. rewrite (Hok H). eexists [_; _], data. reflexivity.
Qed.


End DownloadCases.

Section RunDetails.

Context {W : Type}.
Variable now : W -> Z.
Variable K : Constants.
Variable yamlUnmarshal : string -> result (list (string * any)).
Variable TorrentMeta : Type.
Variable buildTorrent : TorrentMakeOptions -> FS -> result (TorrentMeta * string).
Variable ParseTorrent : string -> result TorrentMeta.
Variable Verify : TorrentMeta -> string -> string -> Z -> FS -> result Z.
Variable GetWildcardFilenames : FS -> string -> list string.
Variable Clean : string -> string.

Variables (siteInstance : Site W) (clientInstance : option (Client W))
  (contentPath : string) (otherFields : gmap string (list string))
  (mustMetadataFile checkExisting : bool)
  (savePathMapper : option PathMapper) (minTorrentSize : Z)
  (imageFiles : list string) (moveOk : string) (dryRun : bool)
  (mustTags : option (list string)) (metaArrayKeys : list string).

Local Abbreviation marker := (publishedFlagFile W siteInstance contentPath).
Local Abbreviation existingMarker := (existingFlagFile W siteInstance contentPath).
Local Abbreviation torrentFile := (torrent K contentPath).
Local Abbreviation options := (makeTorrentOptions K contentPath minTorrentSize).
Local Abbreviation metadataFile := (filepath.Join contentPath (METADATA_FILE K)).
Local Abbreviation copyAt target :=
  (filepath.Join target (PUBLISHED_TORRENT_FILENAME (GetName siteInstance))).
Local Abbreviation markerAt target :=
  (filepath.Join target (PUBLISHED_FLAG_FILE (GetName siteInstance))).
Local Abbreviation download target :=
  (downloadPublishedTorrent W now K siteInstance clientInstance target savePathMapper).
Local Abbreviation pre :=
  (preflight W K yamlUnmarshal GetWildcardFilenames Clean contentPath otherFields
     mustMetadataFile savePathMapper imageFiles moveOk dryRun mustTags metaArrayKeys).
Local Abbreviation pubStep :=
  (whenPublished W now K siteInstance clientInstance contentPath savePathMapper).
Local Abbreviation exStep :=
  (whenExisting W now siteInstance contentPath checkExisting).
Local Abbreviation ensure :=
  (ensureTorrent W now K TorrentMeta buildTorrent ParseTorrent Verify contentPath
     minTorrentSize).
Local Abbreviation seed :=
  (relocateAndSeed W now K siteInstance clientInstance contentPath savePathMapper).
Local Abbreviation submit' :=
  (submit W now K siteInstance clientInstance contentPath savePathMapper).
Local Abbreviation run :=
  (publicTorrent W now K yamlUnmarshal TorrentMeta buildTorrent ParseTorrent Verify
     GetWildcardFilenames Clean siteInstance clientInstance contentPath otherFields
     mustMetadataFile checkExisting savePathMapper minTorrentSize imageFiles moveOk
     dryRun mustTags metaArrayKeys).

(** Where the folder is to end up. *)
Local Abbreviation destination :=
  (if String.eqb moveOk EmptyString then contentPath
   else filepath.Join moveOk (filepath.Base contentPath)).

(** Lines 301-304: the fields of the file under those of the command line. *)
Local Abbreviation merged parsed :=
  (<[METADATA_KEY_ARRAY_KEYS K := metaArrayKeys]> (otherFields ∪ parsed)
   : gmap string (list string)).

(** Lines 313-337. *)
Local Abbreviation withImages f metadata :=
  (if Nat.ltb 0 (length imageFiles) then
     if Nat.ltb 0 (length (fold_left (addImages K GetWildcardFilenames Clean f contentPath)
                             imageFiles []))
     then <["_images" := fold_left (addImages K GetWildcardFilenames Clean f contentPath)
                           imageFiles []]> metadata
     else metadata
   else metadata : gmap string (list string)).

(** Lines 338-340. *)
Local Abbreviation withDryRun metadata :=
  (if dryRun then Values.Set_ metadata (METADATA_KEY_DRY_RUN K) "1" else metadata
   : gmap string (list string)).

Lemma preflight_next st target metadata :
  outcome (pre st) = Next (target, metadata) ->
  exists parsed : gmap string (list string),
    (if FileExists (fs st) metadataFile
     then parseMetadataFile yamlUnmarshal (fs st) metadataFile metaArrayKeys = Ok parsed
     else parsed = ∅ /\ mustMetadataFile = false)
    /\ target = destination
    /\ match savePathMapper with
       | Some mapper => snd (Before2After mapper (filepath.Dir target)) = true
       | None => True
       end
    /\ String.eqb (Values.Get (merged parsed) "title") EmptyString = false
    /\ match mustTags with
       | Some tags =>
           existsb (fun t => bool_decide (t ∈ Values.at_ (merged parsed) "tags")) tags
           = true
       | None => True
       end
    /\ metadata = withDryRun (withImages (fs st) (merged parsed)).
Proof.
  unfold preflight.
  destruct (String.eqb moveOk EmptyString) eqn:Emove; cbn [negb].
  2: rewrite bind_assoc, bind_fileExists;
     destruct (FileExists (fs st) _); [discriminate |].
  all: rewrite bind_ret.
  all: destruct savePathMapper as [mapper|];
    [destruct (Before2After mapper _) as [p [|]] eqn:Emap; cbn [negb];
     [| discriminate] |].
  all: rewrite bind_ret, bind_fileExists.
  all: destruct (FileExists (fs st) metadataFile);
    [ rewrite bind_assoc, bind_getFs;
      destruct (parseMetadataFile yamlUnmarshal (fs st) metadataFile metaArrayKeys)
        as [parsed | e] eqn:Eparse; [| discriminate]
    | destruct mustMetadataFile eqn:Emust; [discriminate |];
      pose (parsed := (∅ : gmap string (list string))) ].
  all: rewrite bind_ret.
  all: destruct (String.eqb (Values.Get _ "title") EmptyString) eqn:Etitle;
    [discriminate |].
  all: destruct mustTags as [tags|];
    [destruct (existsb _ tags) eqn:Etags; cbn [negb]; [| discriminate] |].
  all: rewrite bind_getFs; intros [= <- <-]; exists parsed.
  all: rewrite ?Emap; cbn [snd]; auto 10.
Qed.

(** *** Relocation and seeding, submission *)

(** The result of [downloadPublishedTorrent] as the result of a run that
    published [id]. *)
Local Abbreviation finish id r :=
  ({| outcome := match outcome r with
                 | Next err | Returns err => Returns (id, err)
                 | Panics msg => Panics msg
                 end;
      final := final r; log := log r |} : Run W Ret Ret).

Local Abbreviation noFolder target :=
  (Errorf "rename %s %s: no such file or directory" [contentPath; target]).

Lemma seed_cases target id st :
  seed target id st
  = if String.eqb target contentPath then finish id (download target st)
    else
      match fs st contentPath with
      | None =>
          {| outcome :=
               Returns (id,
                        Some (Errorw "torrent published (id: %s) but failed to move content folder: %w"
                                [id] (noFolder target)));
             final := st;
             log := [FsReplaceFile contentPath target (Some (noFolder target))] |}
      | Some _ =>
          prepend [FsReplaceFile contentPath target None]
            (finish id
               (download target
                  {| fs := renameTree (fs st) contentPath target; world := world st |}))
      end.
Proof.
  unfold relocateAndSeed. destruct (String.eqb target contentPath); cbn [negb].
  - rewrite bind_ret, bind_call.
    destruct (download target st) as [[[e|] | [e|] | msg] f l];
      unfold prepend; cbn [outcome final log Return]; now rewrite ?app_nil_r.
  - rewrite bind_assoc, bind_replaceFile.
    destruct (fs st contentPath) as [n|]; [| reflexivity].
    rewrite bind_ret, bind_call.
    match goal with
    | |- context [download target ?s] =>
        destruct (download target s) as [[[e|] | [e|] | msg] f l]
    end; unfold prepend; cbn [outcome final log Return]; now rewrite ?app_nil_r.
Qed.

(** Lines 426-429: the cover image, when there is one. *)
Local Abbreviation withCover f metadata :=
  (if negb (String.eqb
              (ExistsFileWithAnySuffix f (filepath.Join contentPath COVER) (ImgExts K))
              EmptyString)
   then Values.Set_ metadata "_cover"
          (ExistsFileWithAnySuffix f (filepath.Join contentPath COVER) (ImgExts K))
   else metadata : gmap string (list string)).

Local Abbreviation answer metadata contents st :=
  (PublishTorrent W siteInstance contents (withCover (fs st) metadata) (world st)).

Local Abbreviation touched st :=
  (match fs st existingMarker with
   | Some (File data _) => File data (now (world st))
   | Some (Dir _) => Dir (now (world st))
   | None => File EmptyString (now (world st))
   end).

Lemma submit_cases target metadata contents st :
  submit' target metadata contents st
  = prepend [CallPublishTorrent contents (withCover (fs st) metadata)
               (fst (answer metadata contents st))]
      match fst (answer metadata contents st) with
      | Fail err =>
          if match err with ErrDryRun => true | _ => false end
             && negb (String.eqb target contentPath)
          then
            match fs st contentPath with
            | None =>
                {| outcome := Returns (EmptyString, Some err);
                   final := {| fs := fs st; world := snd (answer metadata contents st) |};
                   log := [FsReplaceFile contentPath target (Some (noFolder target))] |}
            | Some _ =>
                {| outcome := Returns (EmptyString, Some err);
                   final := {| fs := renameTree (fs st) contentPath target;
                               world := snd (answer metadata contents st) |};
                   log := [FsReplaceFile contentPath target None] |}
            end
          else
            {| outcome := Returns (EmptyString, Some err);
               final := {| fs := fs st; world := snd (answer metadata contents st) |};
               log := [] |}
      | Ok id =>
          if String.eqb id EmptyString then
            prepend [FsTouchFile existingMarker]
              (seed target id
                 {| fs := writeNode (fs st) existingMarker
                            match fs st existingMarker with
                            | Some (File data _) =>
                                File data (now (snd (answer metadata contents st)))
                            | Some (Dir _) => Dir (now (snd (answer metadata contents st)))
                            | None =>
                                File EmptyString (now (snd (answer metadata contents st)))
                            end;
                    world := snd (answer metadata contents st) |})
          else
            prepend [FsWriteFile marker id]
              (seed target id
                 {| fs := writeNode (fs st) marker
                            (File id (now (snd (answer metadata contents st))));
                    world := snd (answer metadata contents st) |})
      end.
Proof.
  unfold submit. rewrite bind_getFs, bind_publishTorrent. cbv zeta. f_equal.
  destruct (PublishTorrent W siteInstance contents _ (world st)) as [[id | err] w];
    cbn [fst snd].
  - destruct (String.eqb id EmptyString); cbn [negb].
    + now rewrite bind_touchFile.
    + now rewrite bind_assoc, bind_writeFile, bind_ret.
  - destruct (_ && _).
    + rewrite bind_assoc, bind_replaceFile. cbn [fs world].
      destruct (fs st contentPath); cbv zeta; now rewrite bind_ret.
    + now rewrite bind_ret.
Qed.

(** The result of [downloadPublishedTorrent] as the result of a run that
    found the folder published. *)
Local Abbreviation already r :=
  ({| outcome := match outcome r with
                 | Next (Some err) | Returns (Some err) =>
                     Returns (EmptyString,
                              Some (Errorw "failed to download published torrent: %w" []
                                      err))
                 | Next None | Returns None =>
                     Returns (EmptyString, Some ErrAlreadyPublished)
                 | Panics msg => Panics msg
                 end;
      final := final r; log := log r |} : Run W Ret unit).


(** *** The torrent file, case by case *)

(** Lines 390-393 and 415-418: the error of a run whose build fails. *)
Local Abbreviation buildFailure err :=
  (match err with
   | TorrentutilErrSmall => ErrSmall
   | _ => Errorw "failed to make torrent: %w" [] err
   end).

Lemma makeFailed_run {A} err st :
  makeFailed W (A := A) err st
  = {| outcome := Returns (EmptyString, Some (buildFailure err)); final := st; log := [] |}.
Proof. now destruct err. Qed.

Lemma ensure_present st data mtime :
  fs st torrentFile = Some (File data mtime) ->
  ensure st
  = match ParseTorrent data with
    | Fail err =>
        {| outcome := Returns (EmptyString,
                               Some (Errorw "failed to parse torrent: %w" [] err));
           final := st; log := [] |}
    | Ok tinfo =>
        prepend [CallVerify contentPath (Verify tinfo EmptyString contentPath 1 (fs st))]
          (if stale (Verify tinfo EmptyString contentPath 1 (fs st)) mtime then
             match buildTorrent options (fs st) with
             | Fail err =>
                 {| outcome := Returns (EmptyString, Some (buildFailure err));
                    final := st; log := [CallMakeTorrent options (Some err)] |}
             | Ok (_, rebuilt) =>
                 {| outcome := Next rebuilt;
                    final := {| fs := writeNode (fs st) torrentFile
                                        (File rebuilt (now (world st)));
                                world := world st |};
                    log := [CallMakeTorrent options None] |}
             end
           else {| outcome := Next data; final := st; log := [] |})
    end.
Proof.
  intros Hfile. unfold ensureTorrent.
  destruct (FileExists_File _ _ _ _ Hfile) as [Hthere Hread].
  rewrite bind_fileExists, Hthere. cbn [negb].
  rewrite bind_ret, bind_getFs. unfold StatModTime. rewrite Hfile.
  rewrite bind_readFile, Hread.
  destruct (ParseTorrent data) as [tinfo | err]; [| reflexivity].
  rewrite bind_verify. f_equal.
  destruct (stale _ mtime); [| reflexivity].
  rewrite bind_MakeTorrent.
  destruct (buildTorrent options (fs st)) as [[tinfo' rebuilt] | err].
  - rewrite bind_readFile. cbn [fs Output makeTorrentOptions].
    unfold ReadFile. rewrite writeNode_same. reflexivity.
  - now rewrite makeFailed_run.
Qed.

Lemma ensure_absent st :
  fs st torrentFile = None ->
  ensure st
  = match buildTorrent options (fs st) with
    | Fail err =>
        {| outcome := Returns (EmptyString, Some (buildFailure err));
           final := st; log := [CallMakeTorrent options (Some err)] |}
    | Ok (_, built) =>
        prepend [CallMakeTorrent options None]
          (ensure {| fs := writeNode (fs st) torrentFile (File built (now (world st)));
                     world := world st |})
    end.
Proof.
  intros Hfile. unfold ensureTorrent at 1.
  assert (FileExists (fs st) torrentFile = false) as Habsent
    by (unfold FileExists; now rewrite Hfile).
  rewrite bind_fileExists, Habsent. cbn [negb].
  rewrite bind_assoc, bind_MakeTorrent.
  destruct (buildTorrent options (fs st)) as [[tinfo built] | err].
  - f_equal. rewrite bind_ret. unfold ensureTorrent.
    rewrite bind_fileExists. cbn [fs Output makeTorrentOptions].
    unfold FileExists at 1. rewrite writeNode_same. cbn [negb].
    now rewrite bind_ret.
  - unfold makeFailed. now destruct err.
Qed.

Lemma ensure_directory st mtime :
  fs st torrentFile = Some (Dir mtime) ->
  ensure st
  = {| outcome :=
         Returns (EmptyString,
                  Some (Errorw "failed to read torrent: %w" []
                          (Errorf "read %s: is a directory" [torrentFile])));
       final := st; log := [] |}.
Proof.
  intros Hfile. unfold ensureTorrent.
  assert (FileExists (fs st) torrentFile = true) as Hthere
    by (unfold FileExists; now rewrite Hfile).
  rewrite bind_fileExists, Hthere. cbn [negb].
  rewrite bind_ret, bind_getFs. unfold StatModTime. rewrite Hfile.
  rewrite bind_readFile. unfold ReadFile. now rewrite Hfile.
Qed.

(** A build that fails is the last thing the block does. *)
Lemma ensure_failed_build st opts err :
  In (CallMakeTorrent opts (Some err)) (log (ensure st)) ->
  outcome (ensure st) = Returns (EmptyString, Some (buildFailure err))
  /\ exists before,
       log (ensure st) = (before ++ [CallMakeTorrent opts (Some err)])%list.
Proof.
  assert (forall st data mtime,
            fs st torrentFile = Some (File data mtime) ->
            In (CallMakeTorrent opts (Some err)) (log (ensure st)) ->
            outcome (ensure st) = Returns (EmptyString, Some (buildFailure err))
            /\ exists before,
                 log (ensure st) = (before ++ [CallMakeTorrent opts (Some err)])%list)
    as Hpresent.
  { intros st' data mtime Hfile. rewrite (ensure_present st' data mtime Hfile).
    destruct (ParseTorrent data) as [tinfo | e]; [| intros []].
    rewrite outcome_prepend, log_prepend.
    destruct (stale _ mtime); [| intros [[=] | []]].
    destruct (buildTorrent options (fs st')) as [[tinfo' rebuilt] | e];
      cbn [outcome log app]; (intros [[=] | [Heq | []]]); inversion Heq; subst.
    split; [reflexivity |]. eexists [_]. reflexivity. }
  destruct (fs st torrentFile) as [[mtime | data mtime] |] eqn:Efile.
  - rewrite (ensure_directory st mtime Efile). intros [].
  - now apply Hpresent with data mtime.
  - rewrite (ensure_absent st Efile).
    destruct (buildTorrent options (fs st)) as [[tinfo built] | e].
    + rewrite outcome_prepend, log_prepend. intros [[=] | Hin].
      eapply Hpresent in Hin as (Ho & before & Hl);
        [| cbn [fs]; apply writeNode_same].
      split; [exact Ho |]. exists (CallMakeTorrent options None :: before).
      now rewrite Hl.
    + cbn [outcome log]. intros [Heq | []]. inversion Heq; subst.
      split; [reflexivity |]. now exists [].
Qed.

(** The block that prepares the torrent file writes nothing else. *)
Lemma ensure_keeps st p :
  p <> torrentFile -> fs (final (ensure st)) p = fs st p.
Proof.
  intros Hp.
  assert (forall st' data mtime,
            fs st' torrentFile = Some (File data mtime) ->
            fs (final (ensure st')) p = fs st' p) as Hpresent.
  { intros st' data mtime Hfile. rewrite (ensure_present st' data mtime Hfile).
    destruct (ParseTorrent data) as [tinfo | e]; [| reflexivity].
    rewrite final_prepend. destruct (stale _ mtime); [| reflexivity].
    destruct (buildTorrent options (fs st')) as [[tinfo' rebuilt] | e];
      [| reflexivity].
    cbn [final fs]. now apply writeNode_other. }
  destruct (fs st torrentFile) as [[mtime | data mtime] |] eqn:Efile.
  - now rewrite (ensure_directory st mtime Efile).
  - now apply Hpresent with data mtime.
  - rewrite (ensure_absent st Efile).
    destruct (buildTorrent options (fs st)) as [[tinfo built] | e]; [| reflexivity].
    rewrite final_prepend. erewrite Hpresent by (cbn [fs]; apply writeNode_same).
    cbn [fs]. now apply writeNode_other.
Qed.

(** *** The stages of a run, once more *)

Local Abbreviation stages st :=
  (run_cases now K yamlUnmarshal TorrentMeta buildTorrent ParseTorrent Verify
     GetWildcardFilenames Clean siteInstance clientInstance contentPath otherFields
     mustMetadataFile checkExisting savePathMapper minTorrentSize imageFiles moveOk
     dryRun mustTags metaArrayKeys st).

Lemma run_eta {R A} (r r' : Run W R A) :
  outcome r = outcome r' -> final r = final r' -> log r = log r' -> r = r'.
Proof. destruct r, r'. simpl. now intros -> -> ->. Qed.

(** A run that calls [PublishTorrent] is a submission after the search
    for an existing release and the preparation of the torrent file. *)
Lemma run_submission_from st c m x :
  In (CallPublishTorrent c m x) (log (run st)) ->
  exists target metadata st3 before,
    outcome (pre st) = Next (target, metadata)
    /\ FileExists (fs st) marker = false
    /\ FileExists (fs st) existingMarker = false
    /\ Forall (fun e => isPreparation e = true) before
    /\ run st = prepend before (submit' target metadata c st3)
    /\ m = withCover (fs st3) metadata
    /\ x = fst (answer metadata c st3)
    /\ forall p, p <> torrentFile -> fs st3 p = fs st p.
Proof.
  intros Hin.
  destruct (stages st) as [(_ & _ & _ & Hl) | (target & metadata & Hpre & Hc)].
  { rewrite Hl in Hin. destruct Hin. }
  destruct Hc as [(Hmark & _ & _ & Hl) | (Hmark & Hc)].
  { rewrite Hl in Hin.
    apply (In_class _ _ _ (whenPublished_emits now K siteInstance clientInstance
                             contentPath savePathMapper target st)) in Hin
      as [Hs | [data Hd]]; discriminate. }
  destruct Hc as [(_ & _ & _ & Hl) | (Hex & Hc)].
  { rewrite Hl in Hin.
    now apply (whenExisting_not_publish now siteInstance contentPath checkExisting)
      in Hin. }
  cbv zeta in Hc.
  destruct (whenExisting_next now siteInstance contentPath checkExisting metadata st tt
              Hex) as (Hfree & _ & Hsearch).
  destruct Hc as [(_ & _ & _ & Hl) | (contents & Hen & Ho & Hf & Hl)].
  { rewrite Hl in Hin. apply in_app_or in Hin as [Hin | Hin].
    - now apply (whenExisting_not_publish now siteInstance contentPath checkExisting)
        in Hin.
    - now apply (ensureTorrent_not_publish now K TorrentMeta buildTorrent ParseTorrent
                   Verify contentPath minTorrentSize) in Hin. }
  set (st2 := final (exStep metadata st)) in *.
  set (st3 := final (ensure st2)) in *.
  rewrite Hl in Hin. apply in_app_or in Hin as [Hin | Hin];
    [now apply (whenExisting_not_publish now siteInstance contentPath checkExisting)
       in Hin |].
  apply in_app_or in Hin as [Hin | Hin];
    [now apply (ensureTorrent_not_publish now K TorrentMeta buildTorrent ParseTorrent
                  Verify contentPath minTorrentSize) in Hin |].
  assert (c = contents /\ m = withCover (fs st3) metadata
          /\ x = fst (answer metadata contents st3)) as (-> & -> & ->).
  { revert Hin. rewrite submit_cases, log_prepend.
    intros [[= <- <- <-] | Hin]; [auto |]. exfalso. revert Hin.
    destruct (fst (answer metadata contents st3)) as [id | err].
    - destruct (String.eqb id EmptyString); rewrite log_prepend;
        (intros [[=] | Hin];
         apply (In_class _ _ _ (seed_emits now K siteInstance clientInstance contentPath
                                  savePathMapper target id _)) in Hin
           as [Hs | [data Hd]]; discriminate).
    - destruct (_ && _); [destruct (fs st3 contentPath) |];
        cbn [log]; intros [[=] | []] || intros []. }
  exists target, metadata, st3, (log (exStep metadata st) ++ log (ensure st2))%list.
  assert (forall p, p <> torrentFile -> fs st3 p = fs st p) as Hkeeps.
  { intros p Hp. subst st3. rewrite (ensure_keeps st2 p Hp). subst st2.
    destruct (whenExisting_next now siteInstance contentPath checkExisting metadata st tt
                Hex) as (_ & -> & _).
    reflexivity. }
  repeat split; auto.
  - apply Forall_app. split.
    + eapply Forall_impl; [exact Hsearch |]. intros e He. cbn beta in He.
      unfold isPreparation. now rewrite He.
    + apply (ensureTorrent_preparation now K TorrentMeta buildTorrent ParseTorrent
               Verify contentPath minTorrentSize).
  - apply run_eta; rewrite ?outcome_prepend, ?final_prepend, ?log_prepend;
      [exact Ho | exact Hf | now rewrite Hl, app_assoc].
Qed.

Lemma run_submission st c m x :
  In (CallPublishTorrent c m x) (log (run st)) ->
  exists target metadata st3 before,
    outcome (pre st) = Next (target, metadata)
    /\ FileExists (fs st) marker = false
    /\ FileExists (fs st) existingMarker = false
    /\ Forall (fun e => isPreparation e = true) before
    /\ run st = prepend before (submit' target metadata c st3)
    /\ m = withCover (fs st3) metadata
    /\ x = fst (answer metadata c st3).
Proof.
  intros Hin. apply run_submission_from in Hin
    as (target & metadata & st3 & before & H1 & H2 & H3 & H4 & H5 & H6 & H7 & _).
  exists target, metadata, st3, before. auto 10.
Qed.

(** *** What the site is given *)

Lemma Get_Set_ne (m : gmap string (list string)) k v k' :
  k <> k' -> Values.Get (Values.Set_ m k v) k' = Values.Get m k'.
Proof. intros H. unfold Values.Get, Values.Set_. now rewrite lookup_insert_ne. Qed.

Lemma Get_Set_eq (m : gmap string (list string)) k v :
  Values.Get (Values.Set_ m k v) k = v.
Proof. unfold Values.Get, Values.Set_. now rewrite lookup_insert_eq. Qed.

(** The metadata of a publish call: what the checks of lines 273-340 let
    through, and the cover image. *)
Lemma run_publish_metadata st c m x :
  In (CallPublishTorrent c m x) (log (run st)) ->
  exists (parsed : gmap string (list string)) f f',
    (if FileExists (fs st) metadataFile
     then parseMetadataFile yamlUnmarshal (fs st) metadataFile metaArrayKeys = Ok parsed
     else parsed = ∅ /\ mustMetadataFile = false)
    /\ String.eqb (Values.Get (merged parsed) "title") EmptyString = false
    /\ match mustTags with
       | Some tags =>
           existsb (fun t => bool_decide (t ∈ Values.at_ (merged parsed) "tags")) tags
           = true
       | None => True
       end
    /\ m = withCover f' (withDryRun (withImages f (merged parsed))).
Proof.
  intros Hin.
  apply run_submission in Hin
    as (target & metadata & st3 & before & Hpre & _ & _ & _ & _ & -> & _).
  apply preflight_next in Hpre as (parsed & Hp & _ & _ & Ht & Htags & ->).
  exists parsed, (fs st), (fs st3). auto.
Qed.

(** X3. The metadata of a publish call, name by name, apart from
    [_images], [_cover] and, in a dry run, the dry-run key: the array-keys
    key holds the array-typed names; any other name given on the command
    line holds the values of the command line alone, whatever the metadata
    file says; any other name holds what the metadata file of the folder
    parses to, or nothing when the file is not there. *)
Theorem command_line_fields_win st c m x :
  In (CallPublishTorrent c m x) (log (run st)) ->
  exists parsed : gmap string (list string),
    (if FileExists (fs st) metadataFile
     then parseMetadataFile yamlUnmarshal (fs st) metadataFile metaArrayKeys = Ok parsed
     else parsed = ∅ /\ mustMetadataFile = false)
    /\ forall k,
         k <> "_images" -> k <> "_cover" ->
         (dryRun = true -> k <> METADATA_KEY_DRY_RUN K) ->
         m !! k = if decide (k = METADATA_KEY_ARRAY_KEYS K) then Some metaArrayKeys
                  else match otherFields !! k with
                       | Some v => Some v
                       | None => parsed !! k
                       end.
Proof.
  intros Hin.
  apply run_publish_metadata in Hin as (parsed & f & f' & Hp & _ & _ & ->).
  exists parsed. split; [exact Hp |]. intros k Himg Hcover Hdry.
  assert (forall md : gmap string (list string), withCover f' md !! k = md !! k) as ->.
  { intros md. destruct (negb _); [| reflexivity].
    unfold Values.Set_. now rewrite lookup_insert_ne by congruence. }
  assert (forall md : gmap string (list string), withDryRun md !! k = md !! k) as ->.
  { intros md. destruct dryRun; [| reflexivity].
    unfold Values.Set_. rewrite lookup_insert_ne; [reflexivity |].
    intros Heq. now apply Hdry. }
  assert (forall md : gmap string (list string), withImages f md !! k = md !! k) as ->.
  { intros md. destruct (Nat.ltb _ _); [| reflexivity].
    destruct (Nat.ltb _ _); [| reflexivity].
    now rewrite lookup_insert_ne by congruence. }
  destruct (decide (k = METADATA_KEY_ARRAY_KEYS K)) as [-> | Hne].
  - apply lookup_insert_eq.
  - rewrite lookup_insert_ne by congruence.
    destruct (otherFields !! k) as [v|] eqn:Eo.
    + now apply lookup_union_Some_l.
    + now apply lookup_union_r.
Qed.

(** X4. No torrent is published without a title: in every publish call
    of a run the metadata hold a non-empty [title]. *)
Theorem submitted_title_not_empty st c m x :
  In (CallPublishTorrent c m x) (log (run st)) ->
  Values.Get m "title" <> EmptyString.
Proof.
  intros Hin.
  apply run_publish_metadata in Hin as (parsed & f & f' & _ & Ht & _ & ->).
  apply String.eqb_neq in Ht.
  destruct (negb _); [rewrite Get_Set_ne by discriminate |].
  all: destruct dryRun;
    [destruct (decide (METADATA_KEY_DRY_RUN K = "title")) as [-> | Hne];
     [now rewrite Get_Set_eq | rewrite Get_Set_ne by exact Hne] |].
  all: destruct (Nat.ltb _ _); [destruct (Nat.ltb _ _) |]; try exact Ht.
  all: unfold Values.Get; rewrite lookup_insert_ne by discriminate; exact Ht.
Qed.

(** X5. With required tags, the metadata of every publish call of a run
    hold at least one of them among their [tags]; in a dry run, provided
    the dry-run key is another key than [tags]. *)
Theorem submitted_has_required_tag st c m x tags :
  mustTags = Some tags ->
  (dryRun = true -> METADATA_KEY_DRY_RUN K <> "tags") ->
  In (CallPublishTorrent c m x) (log (run st)) ->
  exists t, In t tags /\ In t (Values.at_ m "tags").
Proof.
  intros Hmust Hdry Hin.
  apply run_publish_metadata in Hin as (parsed & f & f' & _ & _ & Htags & ->).
  rewrite Hmust in Htags. apply existsb_exists in Htags as (t & Ht & Hmem).
  apply bool_decide_eq_true in Hmem. apply list_elem_of_In in Hmem.
  exists t. split; [exact Ht |].
  assert (forall md md' : gmap string (list string),
            md' !! "tags" = md !! "tags" ->
            Values.at_ md' "tags" = Values.at_ md "tags") as Hat
    by (intros md md' Heq; unfold Values.at_; now rewrite Heq).
  erewrite Hat; [exact Hmem |].
  destruct (negb _);
    [unfold Values.Set_; rewrite lookup_insert_ne by discriminate |].
  all: destruct dryRun;
    [unfold Values.Set_; rewrite lookup_insert_ne by (now apply Hdry) |].
  all: destruct (Nat.ltb _ _); [destruct (Nat.ltb _ _) |]; try reflexivity.
  all: now rewrite lookup_insert_ne by discriminate.
Qed.

(** X6. In a dry run every publish call of a run carries the dry-run
    key set to [1], the key being another one than [_cover]. *)
Theorem dry_run_is_flagged st c m x :
  dryRun = true ->
  METADATA_KEY_DRY_RUN K <> "_cover" ->
  In (CallPublishTorrent c m x) (log (run st)) ->
  m !! METADATA_KEY_DRY_RUN K = Some ["1"].
Proof.
  intros Hdry Hne Hin.
  apply run_publish_metadata in Hin as (parsed & f & f' & _ & _ & _ & ->).
  rewrite Hdry.
  destruct (negb _);
    [unfold Values.Set_ at 1; rewrite lookup_insert_ne by congruence |].
  all: unfold Values.Set_; apply lookup_insert_eq.
Qed.

(** *** A publication that fails *)

(** X7. A publish call that fails ends the run with the error of the
    site, as it is. Only the search for an existing release and the
    preparation of the torrent file come before the call; no marker is
    written, the torrent is not downloaded and the client is not called.
    The one event that can follow is the relocation of the folder, which is
    attempted exactly when the error is [ErrDryRun] and the folder is to
    be moved. *)
Theorem failed_publication_leaves_no_marker st c m err :
  In (CallPublishTorrent c m (Fail err)) (log (run st)) ->
  outcome (run st) = Returns (EmptyString, Some err)
  /\ exists before tail,
       log (run st) = (before ++ CallPublishTorrent c m (Fail err) :: tail)%list
       /\ Forall (fun e => isPreparation e = true) before
       /\ if match err with ErrDryRun => true | _ => false end
             && negb (String.eqb destination contentPath)
          then exists res, tail = [FsReplaceFile contentPath destination res]
          else tail = [].
Proof.
  intros Hin.
  apply run_submission in Hin
    as (target & metadata & st3 & before & Hpre & _ & _ & Hbefore & -> & -> & Hx).
  apply preflight_next in Hpre as (_ & _ & -> & _).
  rewrite submit_cases, <- Hx, outcome_prepend, !log_prepend.
  destruct (_ && _).
  - destruct (fs st3 contentPath); cbn [outcome log app];
      (split; [reflexivity |]); exists before; eexists;
      (split; [reflexivity |]); (split; [exact Hbefore |]); eauto.
  - cbn [outcome log app]. split; [reflexivity |]. exists before, [].
    auto.
Qed.

(** X13. A build of the torrent file that fails ends the run: as
    [ErrSmall] when the contents are too small, with the error of the
    build wrapped otherwise. The failed build is the last event of the run
    and nothing is published. *)
Theorem failed_build_ends_run st opts err :
  In (CallMakeTorrent opts (Some err)) (log (run st)) ->
  outcome (run st)
  = Returns (EmptyString,
             Some match err with
                  | TorrentutilErrSmall => ErrSmall
                  | _ => Errorw "failed to make torrent: %w" [] err
                  end)
  /\ (exists before, log (run st) = (before ++ [CallMakeTorrent opts (Some err)])%list)
  /\ Forall (fun e => isPublishCall e = false) (log (run st)).
Proof.
  intros Hin.
  destruct (stages st) as [(_ & _ & _ & Hl) | (target & metadata & Hpre & Hc)].
  { rewrite Hl in Hin. destruct Hin. }
  destruct Hc as [(Hmark & _ & _ & Hl) | (Hmark & Hc)].
  { rewrite Hl in Hin. now apply whenPublished_no_torrent in Hin as [Hin _]. }
  destruct Hc as [(_ & _ & _ & Hl) | (Hex & Hc)].
  { rewrite Hl in Hin. now apply whenExisting_no_torrent in Hin as [Hin _]. }
  cbv zeta in Hc.
  destruct Hc as [(_ & Ho & _ & Hl) | (contents & Hen & _ & _ & Hl)];
    rewrite Hl in Hin |- *;
    (apply in_app_or in Hin as [Hin | Hin];
     [now apply whenExisting_no_torrent in Hin as [Hin _] |]).
  - apply ensure_failed_build in Hin as (Hout & before & Hlog).
    rewrite Ho, Hout, Hlog. split; [reflexivity |]. split.
    + eexists. now rewrite app_assoc.
    + apply Forall_app. split.
      * apply Forall_forall. intros e He. apply list_elem_of_In in He.
        now apply whenExisting_not_publish in He.
      * rewrite <- Hlog. apply Forall_forall. intros e He.
        apply list_elem_of_In in He. now apply ensureTorrent_not_publish in He.
  - apply in_app_or in Hin as [Hin | Hin].
    + apply ensure_failed_build in Hin as (Hout & _). congruence.
    + apply submit_events in Hin as [(m' & x & [=]) | (_ & Hmake & _)].
      discriminate Hmake.
Qed.

(** *** The run after a publication *)

Lemma existing_flag_ne_copy (s : string) :
  EXISTING_FLAG_FILE s <> PUBLISHED_TORRENT_FILENAME s.
Proof.
  intros H. apply (f_equal Str.len) in H.
  unfold EXISTING_FLAG_FILE, PUBLISHED_TORRENT_FILENAME in H.
  rewrite !len_append in H. simpl in H. lia.
Qed.



(** *** Success *)

Lemma preflight_never_succeeds id : neverReturns (id, None) pre.
Proof. unfold preflight. step_never. Qed.

Lemma whenExisting_never_succeeds id metadata : neverReturns (id, None) (exStep metadata).
Proof. unfold whenExisting. step_never. Qed.

Lemma ensureTorrent_never_succeeds id : neverReturns (id, None) ensure.
Proof.
  unfold ensureTorrent, makeFailed.
  repeat first
    [ apply neverReturns_pure_step, always_next_MakeTorrent
    | apply neverReturns_pure_step, always_next_verify
    | never_rule ].
Qed.

Lemma neverReturns_after_call {R R' B} (x : R) (m : M W R' R') (k : R' -> M W R B) :
  (forall a, neverReturns x (k a)) -> neverReturns x (bind (call m) k).
Proof.
  intros Hk st. rewrite bind_call.
  destruct (outcome (m st)) as [a | a | msg]; [| | discriminate];
    rewrite outcome_prepend; apply Hk.
Qed.

Lemma whenPublished_never_succeeds id target : neverReturns (id, None) (pubStep target).
Proof.
  unfold whenPublished.
  repeat first [apply neverReturns_after_call; intros ? | never_rule].
Qed.

Lemma abort_never {R A B} (x : R) (o : step R A) :
  o <> Returns x -> abort (B := B) o <> Returns x.
Proof. destruct o; cbn; congruence. Qed.

(** X15. A run returns an id and no error only after the site accepted
    the torrent under that id and the client took it: the last event of
    such a run is the call of the client, which returned no error, and the
    publish call that returned the id comes before it. *)
Theorem success_means_published_and_seeded st id :
  outcome (run st) = Returns (id, None) ->
  exists c m before data opt,
    log (run st) = (before ++ [CallAddTorrent data opt None])%list
    /\ In (CallPublishTorrent c m (Ok id)) before.
Proof.
  intros Hout.
  destruct (stages st) as [(_ & Ho & _) | (target & metadata & Hpre & Hc)].
  { rewrite Ho in Hout. now apply abort_never in Hout;
      [| apply preflight_never_succeeds]. }
  destruct Hc as [(Hmark & Ho & _) | (Hmark & Hc)].
  { rewrite Ho in Hout. now apply abort_never in Hout;
      [| apply whenPublished_never_succeeds]. }
  destruct Hc as [(_ & Ho & _) | (Hex & Hc)].
  { rewrite Ho in Hout. now apply abort_never in Hout;
      [| apply whenExisting_never_succeeds]. }
  cbv zeta in Hc. destruct Hc as [(_ & Ho & _) | (contents & Hen & Ho & _ & Hl)].
  { rewrite Ho in Hout. now apply abort_never in Hout;
      [| apply ensureTorrent_never_succeeds]. }
  set (st3 := final (ensure (final (exStep metadata st)))) in *.
  rewrite Ho in Hout. rewrite Hl. clear Ho Hl. revert Hout.
  rewrite submit_cases, outcome_prepend, log_prepend.
  destruct (fst (answer metadata contents st3)) as [id' | err];
    [| destruct (_ && _); [destruct (fs st3 contentPath) |]; discriminate].
  intros Hout. exists contents, (withCover (fs st3) metadata). revert Hout.
  assert (forall st4 l,
            outcome (seed target id' st4) = Returns (id, None) ->
            exists before data opt,
              (l ++ log (seed target id' st4))%list
              = (before ++ [CallAddTorrent data opt None])%list
              /\ id' = id /\ (forall e, In e l -> In e before)) as Hseed.
  { intros st4 l. rewrite seed_cases.
    destruct (String.eqb target contentPath);
      [| destruct (fs st4 contentPath); [rewrite outcome_prepend, log_prepend |];
         [| discriminate]];
      cbn [outcome log];
      match goal with
      | |- context [outcome (download target ?s)] =>
          pose proof (download_success now K siteInstance clientInstance savePathMapper
                        target s) as Hok;
          pose proof (download_ends now K siteInstance clientInstance savePathMapper
                        target s) as Hends;
          destruct (outcome (download target s)) as [e | [e|] | msg];
          [now destruct (Hends e) | discriminate | | discriminate]
      end;
      intros [= ->]; destruct (Hok eq_refl) as (before & data & ->).
    - exists (l ++ before)%list, data. eexists. rewrite app_assoc.
      split; [reflexivity |]. split; [reflexivity |].
      intros e He. apply in_or_app. now left.
    - exists (l ++ FsReplaceFile contentPath target None :: before)%list, data.
      eexists. rewrite <- !app_assoc. cbn [app].
      split; [reflexivity |]. split; [reflexivity |].
      intros e He. apply in_or_app. now left. }
  destruct (String.eqb id' EmptyString); rewrite outcome_prepend, log_prepend;
    intros Hout;
    match goal with
    | |- context [(?a ++ ?b ++ [?x] ++ [?y] ++ log (seed target id' ?s))%list] =>
        destruct (Hseed s (a ++ b ++ [x] ++ [y])%list Hout)
          as (before & data & opt & Heq & -> & Hsub)
    end;
    exists before, data, opt;
    (split; [rewrite <- Heq; now rewrite <- !app_assoc |]);
    apply Hsub, in_or_app; right; apply in_or_app; right; now left.
Qed.

(** *** The client within a run *)


Local Abbreviation seedingAt path :=
  {| SkipChecking := true;
     SavePath := match savePathMapper with
                 | Some mapper => fst (Before2After mapper (filepath.Dir path))
                 | None => filepath.Dir path
                 end;
     Category := SEEDING_CAT K |}.



(** A run returns or panics. *)
Lemma run_ends st a : outcome (run st) <> Next a.
Proof.
  assert (forall {B} (o : step Ret B), abort (B := Ret) o <> Next a) as Habort
    by (intros B [b | x | msg]; discriminate).
  destruct (stages st) as [(_ & -> & _) | (target & metadata & _ & Hc)];
    [apply Habort |].
  destruct Hc as [(_ & -> & _) | (_ & Hc)]; [apply Habort |].
  destruct Hc as [(_ & -> & _) | (_ & Hc)]; [apply Habort |].
  cbv zeta in Hc. destruct Hc as [(_ & -> & _) | (contents & _ & -> & _)];
    [apply Habort |].
  rewrite submit_cases, outcome_prepend.
  destruct (fst (answer _ _ _)) as [id | err].
  - destruct (String.eqb id EmptyString); rewrite outcome_prepend, seed_cases;
      (destruct (String.eqb target contentPath);
       [| match goal with
          | |- context [fs ?s contentPath] => destruct (fs s contentPath)
          end; [rewrite outcome_prepend |]]);
      cbn [outcome];
      try match goal with
        | |- context [outcome (download ?t ?s)] => destruct (outcome (download t s))
        end; discriminate.
  - destruct (_ && _); [destruct (fs _ contentPath) |]; discriminate.
Qed.

(** *** Metadata that cannot be used *)

Lemma preflight_refuses st :
  (FileExists (fs st) metadataFile = false /\ mustMetadataFile = true)
  \/ (FileExists (fs st) metadataFile = true
      /\ exists err,
           parseMetadataFile yamlUnmarshal (fs st) metadataFile metaArrayKeys = Fail err) ->
  exists err,
    outcome (pre st) = Returns (EmptyString, Some err)
    /\ (String.eqb moveOk EmptyString = true -> savePathMapper = None ->
        err = if FileExists (fs st) metadataFile
              then ErrInvalidMetadataFile else ErrNoMetadataFile).
Proof.
  intros H. unfold preflight.
  destruct (String.eqb moveOk EmptyString) eqn:Emove; cbn [negb].
  2: rewrite bind_assoc, bind_fileExists;
     destruct (FileExists (fs st) (filepath.Join moveOk _));
     [eexists; split; [reflexivity | discriminate] |].
  all: rewrite bind_ret.
  all: destruct savePathMapper as [mapper|];
    [destruct (Before2After mapper _) as [p [|]] eqn:Emap; cbn [negb];
     [| eexists; split; [reflexivity | discriminate]] |].
  all: rewrite bind_ret, bind_fileExists.
  all: destruct H as [[-> ->] | (-> & err & Hparse)];
    [| rewrite bind_assoc, bind_getFs, Hparse];
    eexists; (split; [reflexivity |]); try discriminate; auto.
  all: intros _ [=].
Qed.

(** X8. A folder whose metadata file is required and missing, or is
    there and cannot be parsed, is left alone: the run ends with an error,
    changes nothing and calls nobody. When neither relocation nor a path
    mapping is asked for, the error is [ErrNoMetadataFile] for a missing
    file and [ErrInvalidMetadataFile] for a file that fails to parse,
    whatever the error of the parser was. *)
Theorem unusable_metadata_leaves_folder_alone st :
  (FileExists (fs st) metadataFile = false /\ mustMetadataFile = true)
  \/ (FileExists (fs st) metadataFile = true
      /\ exists err,
           parseMetadataFile yamlUnmarshal (fs st) metadataFile metaArrayKeys = Fail err) ->
  final (run st) = st
  /\ log (run st) = []
  /\ (exists err, outcome (run st) = Returns (EmptyString, Some err))
  /\ (String.eqb moveOk EmptyString = true -> savePathMapper = None ->
      outcome (run st)
      = Returns (EmptyString,
                 Some (if FileExists (fs st) metadataFile
                       then ErrInvalidMetadataFile else ErrNoMetadataFile))).
Proof.
  intros H. apply preflight_refuses in H as (err & Hpre & Herr).
  destruct (stages st) as [(_ & Ho & Hf & Hl) | (target & metadata & Hnext & _)];
    [| congruence].
  rewrite Ho, Hf, Hl, Hpre. cbn [abort]. repeat split; eauto.
  intros Hmove Hmapper. now rewrite (Herr Hmove Hmapper).
Qed.

(** *** A publication without an id *)

Lemma preparation_not_seeding e : isPreparation e = true -> isSeedingEvent e = false.
Proof. now destruct e. Qed.

(** Without the marker and without the copy of the torrent the
    download-and-seed step does nothing. *)
Lemma download_nothing target st :
  fs st (copyAt target) = None -> fs st (markerAt target) = None ->
  download target st
  = {| outcome := Returns (Some (Errorf "id file not exists" []));
       final := st; log := [] |}.
Proof.
  intros Hc Hm. rewrite download_cases. unfold FileExists. now rewrite Hc, Hm.
Qed.

(** X23. A publication for which the site returns no id ends in an
    error, no copy of the torrent being in the folder: the [existing]
    marker is touched, and then the download-and-seed step finds no id
    file, or the relocation fails. The torrent is not downloaded and the
    client is not called. (The name of the torrent file is taken to differ
    from those of the marker and of the copy.) *)
Theorem publication_without_id_fails st c m :
  META_TORRENT_FILE K <> PUBLISHED_FLAG_FILE (GetName siteInstance) ->
  META_TORRENT_FILE K <> PUBLISHED_TORRENT_FILENAME (GetName siteInstance) ->
  FileExists (fs st) (copyAt contentPath) = false ->
  In (CallPublishTorrent c m (Ok EmptyString)) (log (run st)) ->
  (outcome (run st) = Returns (EmptyString, Some (Errorf "id file not exists" []))
   \/ exists err,
        outcome (run st)
        = Returns (EmptyString,
                   Some (Errorw "torrent published (id: %s) but failed to move content folder: %w"
                           [EmptyString] err)))
  /\ In (FsTouchFile existingMarker) (log (run st))
  /\ Forall (fun e => isPublishCall e = true \/ isSeedingEvent e = false
                      \/ exists res, e = FsReplaceFile contentPath destination res)
       (log (run st)).
Proof.
  intros Hflag Hcopy Hnocopy Hin.
  apply run_submission_from in Hin
    as (target & metadata & st3 & before & Hpre & Hmark & _ & Hbefore & Hrun & _ & Hx
        & Hkeeps).
  apply preflight_next in Hpre as (_ & _ & -> & _).
  assert (forall st4 : State W,
            (forall p, p <> existingMarker -> fs st4 p = fs st3 p) ->
            fs st4 (copyAt contentPath) = None /\ fs st4 marker = None) as Hnone.
  { intros st4 H4. split.
    - rewrite H4, Hkeeps.
      + unfold FileExists in Hnocopy. now destruct (fs st (copyAt contentPath)).
      + intros Heq. unfold torrent, publishedFlagFile, sitename in Heq.
        apply Join_inj in Heq. congruence.
      + intros Heq. apply Join_inj in Heq. symmetry in Heq.
        now apply existing_flag_ne_copy in Heq.
    - rewrite H4, Hkeeps.
      + unfold FileExists in Hmark. now destruct (fs st marker).
      + intros Heq. unfold torrent, publishedFlagFile, sitename in Heq.
        apply Join_inj in Heq. congruence.
      + intros Heq. apply Join_inj in Heq. symmetry in Heq.
        now apply existing_flag_ne_published in Heq. }
  rewrite Hrun, submit_cases, <- Hx, outcome_prepend, !log_prepend.
  cbn [String.eqb]. rewrite outcome_prepend, log_prepend, seed_cases.
  match goal with
  | |- context [download destination ?s] =>
      destruct (Hnone s) as [Hc4 Hm4];
      [intros p Hp; cbn [fs]; now apply writeNode_other |]
  end.
  assert (Forall (fun e => isPublishCall e = true \/ isSeedingEvent e = false
                           \/ exists res, e = FsReplaceFile contentPath destination res)
            before) as Hfirst.
  { eapply Forall_impl; [exact Hbefore |]. intros e He. right; left.
    now apply preparation_not_seeding. }
  destruct (String.eqb destination contentPath) eqn:Edest.
  - apply String.eqb_eq in Edest. rewrite Edest in *.
    rewrite download_nothing by assumption. cbn [outcome log app].
    split; [now left |]. split.
    + apply in_or_app. right. cbn. auto.
    + apply Forall_app. split; [exact Hfirst |].
      apply Forall_cons_2; [now left |].
      apply Forall_cons_2; [right; now left |]. apply Forall_nil_2.
  - match goal with
    | |- context [fs ?s contentPath] => destruct (fs s contentPath) as [n|] eqn:Efolder
    end.
    + rewrite outcome_prepend, log_prepend, download_nothing.
      * cbn [outcome log app]. split; [now left |]. split.
        -- apply in_or_app. right. cbn. auto.
        -- apply Forall_app. split; [exact Hfirst |].
           apply Forall_cons_2; [now left |].
           apply Forall_cons_2; [right; now left |].
           apply Forall_cons_2; [right; right; eauto |]. apply Forall_nil_2.
      * cbn [fs]. now rewrite renameTree_below.
      * cbn [fs]. now rewrite renameTree_below.
    + cbn [outcome log app]. split; [right; eauto |]. split.
      * apply in_or_app. right. cbn. auto.
      * apply Forall_app. split; [exact Hfirst |].
        apply Forall_cons_2; [now left |].
        apply Forall_cons_2; [right; now left |].
        apply Forall_cons_2; [right; right; eauto |]. apply Forall_nil_2.
Qed.

End RunDetails.

(** ** The command *)

(** What [printResult] makes of an error: the verdict, and the mark of
    the line. *)
Lemma printResult_facts contentPath id err sitename clientname :
  let line := fst (printResult contentPath id err sitename clientname) in
  let ok := fst (snd (printResult contentPath id err sitename clientname)) in
  let published := snd (snd (printResult contentPath id err sitename clientname)) in
  (ok = true <->
     err = None \/ err = Some ErrDryRun \/ err = Some ErrAlreadyPublished
     \/ err = Some ErrNoMetadataFile \/ err = Some ErrExisting \/ err = Some ErrSmall)
  /\ (published = true <-> err = None \/ err = Some ErrDryRun)
  /\ isFailureLine line = negb ok
  /\ isPublishedLine line = published
  /\ (marked "✓" line = true <-> err = None)
  /\ lineFolder line = contentPath.
Proof.
  destruct err as [e|]; [destruct e |]; cbn [printResult fst snd].
  all: try (destruct (negb (String.eqb clientname EmptyString))).
  all: repeat split; try reflexivity; try discriminate; auto 10.
  all: try (intros H; decompose [or] H; discriminate).
Qed.

(** X18. [printResult]: a result is a failure unless the error is nil
    or is one of [ErrDryRun], [ErrAlreadyPublished], [ErrNoMetadataFile],
    [ErrExisting] and [ErrSmall] itself, so that an error that wraps one of
    them is a failure; a result counts as published exactly for nil and
    [ErrDryRun]. Failures are the lines marked [X], published folders the
    lines marked [✓] or [→], and the first operand of every line is the
    folder. *)
Theorem printResult_verdict contentPath id err sitename clientname :
  let line := fst (printResult contentPath id err sitename clientname) in
  let ok := fst (snd (printResult contentPath id err sitename clientname)) in
  let published := snd (snd (printResult contentPath id err sitename clientname)) in
  (ok = true <->
     err = None \/ err = Some ErrDryRun \/ err = Some ErrAlreadyPublished
     \/ err = Some ErrNoMetadataFile \/ err = Some ErrExisting \/ err = Some ErrSmall)
  /\ (published = true <-> err = None \/ err = Some ErrDryRun)
  /\ isFailureLine line = negb ok
  /\ isPublishedLine line = published
  /\ lineFolder line = contentPath.
Proof.
  destruct (printResult_facts contentPath id err sitename clientname)
    as (H1 & H2 & H3 & H4 & _ & H6).
  auto.
Qed.

Lemma printed_effects l : printed (List.map Effect l) = [].
Proof. induction l as [|e l IH]; [reflexivity | exact IH]. Qed.

Lemma printed_app a b : printed (a ++ b) = (printed a ++ printed b)%list.
Proof. apply omap_app. Qed.

Lemma printed_step l line rest :
  printed ((List.map Effect l ++ [Print line]) ++ rest) = line :: printed rest.
Proof. now rewrite !printed_app, printed_effects. Qed.

Lemma printed_last l line : printed (List.map Effect l ++ [Print line]) = [line].
Proof. now rewrite printed_app, printed_effects. Qed.

Lemma int64_small z : - 2 ^ 63 <= z < 2 ^ 63 -> int64 z = z.
Proof. intros H. unfold int64. rewrite Z.mod_small; lia. Qed.

Section CommandFacts.

Context {W : Type}.
Variable now : W -> Z.
Variable K : Constants.
Variable yamlUnmarshal : string -> result (list (string * any)).
Variable TorrentMeta : Type.
Variable buildTorrent : TorrentMakeOptions -> FS -> result (TorrentMeta * string).
Variable ParseTorrent : string -> result TorrentMeta.
Variable Verify : TorrentMeta -> string -> string -> Z -> FS -> result Z.
Variable GetWildcardFilenames : FS -> string -> list string.
Variable Clean : string -> string.
Variable U : util.t.
Variable ParseQuery : string -> result (gmap string (list string)).
Variable NewPathMapper : list string -> result PathMapper.
Variable CreateSite : string -> W -> result (Site W) * W.
Variable SiteGetStatus : Site W -> W -> option error * W.
Variable CreateClient : string -> W -> result (Client W) * W.
Variable ClientGetStatus : Client W -> W -> option error * W.
Variable ReadDir : FS -> string -> result (list DirEntry.t).
Variable MkdirAll : string -> FS -> Z -> option error * FS.
Variable flags : Flags.t.

Local Abbreviation setup :=
  (prepare W now U ParseQuery NewPathMapper CreateSite SiteGetStatus CreateClient
     ClientGetStatus ReadDir MkdirAll flags).
Local Abbreviation loop :=
  (publishAll W now K yamlUnmarshal TorrentMeta buildTorrent ParseTorrent Verify
     GetWildcardFilenames Clean flags).
Local Abbreviation one :=
  (publishOne W now K yamlUnmarshal TorrentMeta buildTorrent ParseTorrent Verify
     GetWildcardFilenames Clean flags).
Local Abbreviation command :=
  (publish W now K yamlUnmarshal TorrentMeta buildTorrent ParseTorrent Verify
     GetWildcardFilenames Clean U ParseQuery NewPathMapper CreateSite SiteGetStatus
     CreateClient ClientGetStatus ReadDir MkdirAll flags).

(** The folders the command is asked to go through. *)
Local Abbreviation folders st :=
  (if String.eqb (Flags.savePath flags) EmptyString then [Flags.contentPath flags]
   else match ReadDir (fs st) (Flags.savePath flags) with
        | Ok entries => listFolders (Flags.savePath flags) entries
        | Fail _ => []
        end).

Lemma bind_createSite {R B} name (k : result (Site W) -> M W R B) st :
  bind (createSite W CreateSite name) k st
  = k (fst (CreateSite name (world st)))
      {| fs := fs st; world := snd (CreateSite name (world st)) |}.
Proof.
  unfold bind, createSite. destruct (CreateSite name (world st)) as [res w]. cbn.
  now destruct (k res _).
Qed.

Lemma bind_siteGetStatus {R B} s (k : option error -> M W R B) st :
  bind (siteGetStatus W SiteGetStatus s) k st
  = k (fst (SiteGetStatus s (world st)))
      {| fs := fs st; world := snd (SiteGetStatus s (world st)) |}.
Proof.
  unfold bind, siteGetStatus. destruct (SiteGetStatus s (world st)) as [res w]. cbn.
  now destruct (k res _).
Qed.

Lemma bind_createClient {R B} name (k : result (Client W) -> M W R B) st :
  bind (createClient W CreateClient name) k st
  = k (fst (CreateClient name (world st)))
      {| fs := fs st; world := snd (CreateClient name (world st)) |}.
Proof.
  unfold bind, createClient. destruct (CreateClient name (world st)) as [res w]. cbn.
  now destruct (k res _).
Qed.

Lemma bind_clientGetStatus {R B} c (k : option error -> M W R B) st :
  bind (clientGetStatus W ClientGetStatus c) k st
  = k (fst (ClientGetStatus c (world st)))
      {| fs := fs st; world := snd (ClientGetStatus c (world st)) |}.
Proof.
  unfold bind, clientGetStatus. destruct (ClientGetStatus c (world st)) as [res w]. cbn.
  now destruct (k res _).
Qed.

Lemma bind_mkdirAll {R B} path (k : option error -> M W R B) st :
  bind (mkdirAll W now MkdirAll path) k st
  = k (fst (MkdirAll path (fs st) (now (world st))))
      {| fs := snd (MkdirAll path (fs st) (now (world st))); world := world st |}.
Proof.
  unfold bind, mkdirAll. destruct (MkdirAll path (fs st) (now (world st))) as [res f].
  cbn. now destruct (k res _).
Qed.

(** What the loop starts from. *)
Lemma prepare_next st s :
  outcome (setup st) = Next s ->
  log (setup st) = []
  /\ contentPathes s = folders st
  /\ (String.eqb (Flags.clientname flags) EmptyString = true -> clientInstance s = None).
Proof.
  unfold prepare.
  destruct (negb (_ =? 1)); [discriminate |].
  destruct (negb _ && negb _); [discriminate |].
  destruct (negb (String.eqb (Flags.commentFile flags) EmptyString));
    [rewrite bind_assoc, bind_readFile;
     destruct (ReadFile (fs st) (Flags.commentFile flags)) as [contents | err];
     [| discriminate] |];
    rewrite bind_ret.
  all: destruct (mergeFields ParseQuery (Flags.fields flags) ∅) as [mv | err];
    [| discriminate]; rewrite bind_ret.
  all: destruct (0 <? length (Flags.mapSavePaths flags))%nat;
    [destruct (NewPathMapper (Flags.mapSavePaths flags)) as [mapper | err];
     [| discriminate] |]; rewrite bind_ret.
  all: rewrite bind_createSite;
    destruct (fst (CreateSite _ _)) as [siteInstance | err]; [| discriminate];
    rewrite bind_siteGetStatus;
    destruct (fst (SiteGetStatus _ _)) as [err |]; [discriminate |].
  all: destruct (String.eqb (Flags.clientname flags) EmptyString) eqn:Eclient;
    cbn [negb];
    [ rewrite bind_ret
    | rewrite bind_assoc, bind_createClient;
      destruct (fst (CreateClient _ _)) as [c | err]; [| discriminate];
      rewrite bind_assoc, bind_clientGetStatus;
      destruct (fst (ClientGetStatus _ _)) as [err |]; [discriminate |];
      rewrite bind_ret ].
  all: destruct (String.eqb (Flags.savePath flags) EmptyString) eqn:Esave;
    cbn [negb];
    [ rewrite bind_ret
    | rewrite bind_assoc, bind_getFs; cbn [fs];
      destruct (ReadDir (fs st) (Flags.savePath flags)) as [entries | err];
      [| discriminate]; rewrite bind_ret ].
  all: destruct (String.eqb (Flags.moveOkTo flags) EmptyString); cbn [negb];
    [ rewrite bind_ret
    | rewrite bind_assoc, bind_mkdirAll;
      destruct (fst (MkdirAll _ _ _)) as [err |]; [discriminate |];
      rewrite bind_ret ].
  all: intros [= <-]; cbn [contentPathes clientInstance]; repeat split;
    try discriminate.
Qed.

Lemma mergeFields_fail fields (m : gmap string (list string)) err :
  mergeFields ParseQuery fields m = Fail err ->
  exists cause, err = Errorw "inalid field value: %w" [] cause.
Proof.
  revert m. induction fields as [|field fields IH]; intros m; cbn; [discriminate |].
  destruct (ParseQuery field) as [values | cause]; [apply IH |].
  intros [= <-]. eauto.
Qed.

(** The errors of lines 109-183 are none of the loop's. *)
Lemma prepare_returns st err :
  outcome (setup st) = Returns err ->
  exists e, err = Some e /\ forall args, e <> Errorf "%d errors" args.
Proof.
  unfold prepare.
  destruct (negb (_ =? 1)); [intros [= <-]; eexists; split; [reflexivity | discriminate] |].
  destruct (negb _ && negb _);
    [intros [= <-]; eexists; split; [reflexivity | discriminate] |].
  destruct (negb (String.eqb (Flags.commentFile flags) EmptyString));
    [rewrite bind_assoc, bind_readFile;
     destruct (ReadFile (fs st) (Flags.commentFile flags)) as [contents | e];
     [| intros [= <-]; eexists; split; [reflexivity | discriminate]] |];
    rewrite bind_ret.
  all: destruct (mergeFields ParseQuery (Flags.fields flags) ∅) as [mv | e] eqn:Emerge;
    [| apply mergeFields_fail in Emerge as [cause ->];
       intros [= <-]; eexists; split; [reflexivity | discriminate]];
    rewrite bind_ret.
  all: destruct (0 <? length (Flags.mapSavePaths flags))%nat;
    [destruct (NewPathMapper (Flags.mapSavePaths flags)) as [mapper | e];
     [| intros [= <-]; eexists; split; [reflexivity | discriminate]] |];
    rewrite bind_ret.
  all: rewrite bind_createSite;
    destruct (fst (CreateSite _ _)) as [siteInstance | e];
    [| intros [= <-]; eexists; split; [reflexivity | discriminate]];
    rewrite bind_siteGetStatus;
    destruct (fst (SiteGetStatus _ _)) as [e |];
    [intros [= <-]; eexists; split; [reflexivity | discriminate] |].
  all: destruct (String.eqb (Flags.clientname flags) EmptyString); cbn [negb];
    [ rewrite bind_ret
    | rewrite bind_assoc, bind_createClient;
      destruct (fst (CreateClient _ _)) as [c | e];
      [| intros [= <-]; eexists; split; [reflexivity | discriminate]];
      rewrite bind_assoc, bind_clientGetStatus;
      destruct (fst (ClientGetStatus _ _)) as [e |];
      [intros [= <-]; eexists; split; [reflexivity | discriminate] |];
      rewrite bind_ret ].
  all: destruct (String.eqb (Flags.savePath flags) EmptyString); cbn [negb];
    [ rewrite bind_ret
    | rewrite bind_assoc, bind_getFs; cbn [fs];
      destruct (ReadDir (fs st) (Flags.savePath flags)) as [entries | e];
      [| intros [= <-]; eexists; split; [reflexivity | discriminate]];
      rewrite bind_ret ].
  all: destruct (String.eqb (Flags.moveOkTo flags) EmptyString); cbn [negb];
    [ rewrite bind_ret
    | rewrite bind_assoc, bind_mkdirAll;
      destruct (fst (MkdirAll _ _ _)) as [e |];
      [intros [= <-]; eexists; split; [reflexivity | discriminate] |];
      rewrite bind_ret ].
  all: discriminate.
Qed.

(** *** The loop *)

Local Abbreviation verdict path ret :=
  (printResult path (fst ret) (snd ret) (Flags.sitename flags) (Flags.clientname flags)).

(** One turn of the loop. *)
Lemma loop_cons s path paths e h st :
  loop s (path :: paths) e h st
  = match outcome (one s path st) with
    | Panics msg =>
        {| ended := Panics msg; state := final (one s path st);
           trace := List.map Effect (log (one s path st)) |}
    | Next ret | Returns ret =>
        let e' := if negb (fst (snd (verdict path ret))) then int64 (e + 1) else e in
        let h' := if negb (fst (snd (verdict path ret))) || snd (snd (verdict path ret))
                  then int64 (h + 1) else h in
        let here := (List.map Effect (log (one s path st))
                     ++ [Print (fst (verdict path ret))])%list in
        if (Flags.maxTorrents flags >? 0) && (h' >=? Flags.maxTorrents flags)
        then {| ended := Next e'; state := final (one s path st); trace := here |}
        else
          {| ended := ended (loop s paths e' h' (final (one s path st)));
             state := state (loop s paths e' h' (final (one s path st)));
             trace := (here ++ trace (loop s paths e' h' (final (one s path st))))%list |}
    end.
Proof.
  cbn [publishAll].
  destruct (outcome (one s path st)) as [[id err] | [id err] | msg]; [| | reflexivity];
    cbn [fst snd]; now destruct (printResult path id err _ _) as [line [ok published]].
Qed.

Local Abbreviation failures t :=
  (Z.of_nat (length (List.filter isFailureLine (printed t)))).
Local Abbreviation handled t :=
  (Z.of_nat (length (List.filter (fun l => isFailureLine l || isPublishedLine l)
                       (printed t)))).

Lemma loop_never_returns s paths e h st err :
  ended (loop s paths e h st) <> Returns err.
Proof.
  revert e h st. induction paths as [|path paths IH]; intros e h st; [discriminate |].
  rewrite loop_cons.
  destruct (outcome (one s path st)) as [ret | ret | msg]; [| | discriminate];
    cbv zeta; destruct (_ && _); cbn [ended]; try discriminate; apply IH.
Qed.

(** The folders gone through are the first of the folders given, in
    their order: all of them when there is no limit and no panic. *)
Lemma loop_folders s paths e h st :
  List.map lineFolder (printed (trace (loop s paths e h st))) `prefix_of` paths
  /\ (Flags.maxTorrents flags <= 0 ->
      forall e', ended (loop s paths e h st) = Next e' ->
      List.map lineFolder (printed (trace (loop s paths e h st))) = paths).
Proof.
  revert e h st. induction paths as [|path paths IH]; intros e h st;
    [split; [apply prefix_nil | reflexivity] |].
  rewrite loop_cons.
  destruct (outcome (one s path st)) as [ret | ret | msg];
    [| | cbn [trace ended]; rewrite printed_effects;
         split; [apply prefix_nil | discriminate]].
  all: cbv zeta;
    pose proof (printResult_facts path (fst ret) (snd ret) (Flags.sitename flags)
                  (Flags.clientname flags)) as (_ & _ & _ & _ & _ & Hfolder);
    cbv zeta in Hfolder.
  all: destruct (Flags.maxTorrents flags >? 0) eqn:Ecap; cbn [andb];
    [destruct (_ >=? Flags.maxTorrents flags) |]; cbn [trace ended].
  all: rewrite ?printed_last, ?printed_step; cbn [printed omap List.map];
    rewrite Hfolder.
  all: split;
    [ first [ apply prefix_cons, prefix_nil | apply prefix_cons, IH ]
    | intros Hno e' He';
      first [ apply Z.gtb_lt in Ecap; lia
            | f_equal; now apply (proj2 (IH _ _ _) Hno e') ] ].
Qed.


(** Without overflow, the loop goes on with the number of failed
    folders added to its error counter. *)
Lemma loop_counts s paths e h st e' :
  0 <= e -> e + Z.of_nat (length paths) < 2 ^ 63 ->
  ended (loop s paths e h st) = Next e' ->
  e' = e + failures (trace (loop s paths e h st)).
Proof.
  revert e h st. induction paths as [|path paths IH]; intros e h st He Hlen;
    [cbn; intros [= <-]; lia |].
  rewrite loop_cons. cbn [length] in Hlen.
  destruct (outcome (one s path st)) as [ret | ret | msg]; [| | discriminate].
  all: cbv zeta;
    pose proof (printResult_facts path (fst ret) (snd ret) (Flags.sitename flags)
                  (Flags.clientname flags)) as (_ & _ & Hfail & _);
    cbv zeta in Hfail.
  all: destruct (fst (snd (verdict path ret))); cbn [negb] in *.
  all: rewrite ?(int64_small (e + 1)) by lia.
  all: destruct (_ && _); cbn [ended trace];
    rewrite ?printed_last, ?printed_step;
    cbn [printed omap List.filter]; rewrite Hfail; cbn [length].
  all: try (intros [= <-]; lia).
  all: intros Hend; apply IH in Hend; lia.
Qed.

(** Without a client no folder is reported as published. *)
Lemma loop_without_client s paths e h st :
  clientInstance s = None ->
  Forall (fun l => marked "✓" l = false) (printed (trace (loop s paths e h st))).
Proof.
  intros Hclient. revert e h st.
  induction paths as [|path paths IH]; intros e h st; [constructor |].
  rewrite loop_cons.
  assert (forall a, outcome (one s path st) <> Next a) as Hends
    by (intros a; unfold publishOne; apply run_ends).
  assert (forall id, outcome (one s path st) <> Returns (id, None)) as Hnone
    by (intros id; unfold publishOne; rewrite Hclient;
        apply run_needs_client_published).
  match goal with
  | |- context [outcome ?r] => destruct (outcome r) as [ret | [id err] | msg] eqn:Eo
  end;
    [now destruct (Hends ret) | | cbn [trace]; rewrite printed_effects; constructor].
  assert (err <> None) as Herr by (intros ->; now apply (Hnone id)).
  cbv zeta.
  pose proof (printResult_facts path id err (Flags.sitename flags)
                (Flags.clientname flags)) as (_ & _ & _ & _ & Hmark & _).
  cbv zeta in Hmark. cbn [fst snd].
  assert (marked "✓" (fst (printResult path id err (Flags.sitename flags)
                             (Flags.clientname flags))) = false) as Hline.
  { destruct (marked _ _); [| reflexivity]. now destruct Herr; apply Hmark. }
  destruct (_ && _); cbn [trace];
    rewrite ?printed_last, ?printed_step; constructor; auto.
Qed.

(** *** The command as a whole *)

Lemma listFolders_length savePath entries :
  (length (listFolders savePath entries) <= length entries)%nat.
Proof.
  unfold listFolders. rewrite length_map. apply List.filter_length_le.
Qed.


(** X20. The command returns nil only when no folder failed, and when
    n > 0 folders failed it returns the error [n errors], unless it
    panicked; the save path having fewer than 2^63 entries, so that the
    counter does not overflow. *)
Theorem failures_counted st :
  (forall entries,
     ReadDir (fs st) (Flags.savePath flags) = Ok entries ->
     Z.of_nat (length entries) < 2 ^ 63) ->
  (ended (command st) = Returns None -> failures (trace (command st)) = 0)
  /\ (0 < failures (trace (command st)) ->
      (exists msg, ended (command st) = Panics msg)
      \/ ended (command st)
         = Returns (Some (Errorf "%d errors" [itoa (failures (trace (command st)))]))).
Proof.
  intros Hdir. unfold publish.
  destruct (outcome (setup st)) as [s | err | msg] eqn:Esetup; cbn [trace ended];
    [| split; [reflexivity | cbn; lia] | split; [reflexivity | cbn; lia]].
  apply prepare_next in Esetup as (_ & Hpaths & _).
  assert (Z.of_nat (length (contentPathes s)) < 2 ^ 63) as Hlen.
  { rewrite Hpaths. destruct (String.eqb (Flags.savePath flags) EmptyString);
      [cbn; lia |].
    destruct (ReadDir (fs st) (Flags.savePath flags)) as [entries | err] eqn:Edir;
      [| cbn; lia].
    pose proof (listFolders_length (Flags.savePath flags) entries).
    specialize (Hdir entries eq_refl). lia. }
  pose proof (loop_counts s (contentPathes s) 0 0 (final (setup st))) as Hcount.
  pose proof (loop_never_returns s (contentPathes s) 0 0 (final (setup st))) as Hnever.
  destruct (ended (loop s (contentPathes s) 0 0 (final (setup st))))
    as [errorCnt | err | msg]; [| now destruct (Hnever err) | ].
  - specialize (Hcount errorCnt ltac:(lia) ltac:(lia) eq_refl). rewrite Z.add_0_l in Hcount.
    rewrite <- Hcount. destruct (errorCnt >? 0) eqn:Epos.
    + split; [discriminate | auto].
    + rewrite Z.gtb_ltb in Epos. apply Z.ltb_ge in Epos. split; [lia | lia].
  - split; [discriminate | eauto].
Qed.

(** X21. Without the [client] flag the command reports no folder as
    published: a run of [publicTorrent] that gets as far as the client
    panics on the nil interface, and every other run ends with an
    error. *)
Theorem publish_without_client_reports_no_success st :
  Flags.clientname flags = EmptyString ->
  Forall (fun l => marked "✓" l = false) (printed (trace (command st))).
Proof.
  intros Hclient. unfold publish.
  destruct (outcome (setup st)) as [s | err | msg] eqn:Esetup; cbn [trace];
    [| constructor | constructor].
  apply prepare_next in Esetup as (_ & _ & Hnone).
  apply loop_without_client, Hnone. now rewrite Hclient.
Qed.

(** X22. The command goes through the folders in order, printing one
    line for each: the lines are about the first folders of the list,
    which is the content path, or the directories listed under the save
    path whose names do not start with a dot, in the order of the listing;
    they are about all of them when there is no limit and the command
    returns from the loop. *)
Theorem folders_in_listing_order st :
  List.map lineFolder (printed (trace (command st))) `prefix_of` folders st
  /\ (forall folder,
        In folder (List.map lineFolder (printed (trace (command st)))) ->
        String.eqb (Flags.savePath flags) EmptyString = false ->
        exists entry entries,
          ReadDir (fs st) (Flags.savePath flags) = Ok entries
          /\ In entry entries
          /\ DirEntry.IsDir entry = true
          /\ Str.HasPrefix (DirEntry.Name entry) "." = false
          /\ folder = filepath.Join (Flags.savePath flags) (DirEntry.Name entry))
  /\ (Flags.maxTorrents flags <= 0 ->
      ended (command st) = Returns None
      \/ (exists n, ended (command st) = Returns (Some (Errorf "%d errors" [n]))) ->
      List.map lineFolder (printed (trace (command st))) = folders st).
Proof.
  assert (List.map lineFolder (printed (trace (command st))) `prefix_of` folders st)
    as Hprefix.
  { unfold publish.
    destruct (outcome (setup st)) as [s | err | msg] eqn:Esetup; cbn [trace];
      [| apply prefix_nil | apply prefix_nil].
    apply prepare_next in Esetup as (_ & <- & _). apply loop_folders. }
  split; [exact Hprefix |]. split.
  - intros folder Hin Hsave. destruct Hprefix as [rest Hrest].
    assert (In folder (folders st)) as Hfolder
      by (rewrite Hrest; apply in_or_app; now left).
    rewrite Hsave in Hfolder.
    destruct (ReadDir (fs st) (Flags.savePath flags)) as [entries | err];
      [| destruct Hfolder].
    unfold listFolders in Hfolder. apply in_map_iff in Hfolder as (entry & <- & Hentry).
    apply filter_In in Hentry as [Hentry Hkeep].
    apply negb_true_iff, orb_false_iff in Hkeep as [Hdir Hdot].
    apply negb_false_iff in Hdir. exists entry, entries. auto.
  - intros Hno Hend. revert Hend. unfold publish.
    destruct (outcome (setup st)) as [s | err | msg] eqn:Esetup; cbn [trace ended].
    + pose proof Esetup as Hs. apply prepare_next in Hs as (_ & <- & _).
      pose proof (proj2 (loop_folders s (contentPathes s) 0 0 (final (setup st))) Hno)
        as Hall.
      pose proof (loop_never_returns s (contentPathes s) 0 0 (final (setup st)))
        as Hnever.
      destruct (ended (loop s (contentPathes s) 0 0 (final (setup st))))
        as [errorCnt | err | msg];
        [intros _; now apply (Hall errorCnt) | now destruct (Hnever err) |].
      intros [[=] | [n [=]]].
    + apply prepare_returns in Esetup as (e & -> & Hne).
      intros [[=] | [n [= ->]]]. now destruct (Hne [n]).
    + intros [[=] | [n [=]]].
Qed.

(** The line that says so. *)
Local Abbreviation saysAdded l :=
  (match l with
   | Printf format _ => Str.HasSuffix format ("; added to client" ++ nl)
   end).

Lemma printResult_added path id err :
  saysAdded (fst (printResult path id err (Flags.sitename flags) (Flags.clientname flags)))
  = true ->
  err = None /\ String.eqb (Flags.clientname flags) EmptyString = true.
Proof.
  destruct err as [e|]; [destruct e; discriminate |].
  cbn [printResult fst]. destruct (String.eqb (Flags.clientname flags) EmptyString);
    [auto | discriminate].
Qed.

Lemma loop_never_says_added s paths e h st :
  (String.eqb (Flags.clientname flags) EmptyString = true -> clientInstance s = None) ->
  Forall (fun l => saysAdded l = false) (printed (trace (loop s paths e h st))).
Proof.
  intros Hclient. revert e h st.
  induction paths as [|path paths IH]; intros e h st; [constructor |].
  rewrite loop_cons.
  assert (forall a, outcome (one s path st) <> Next a) as Hends
    by (intros a; unfold publishOne; apply run_ends).
  destruct (outcome (one s path st)) as [ret | [id err] | msg] eqn:Eo;
    [now destruct (Hends ret) | | cbn [trace]; rewrite printed_effects; constructor].
  cbv zeta. cbn [fst snd].
  assert (saysAdded (fst (printResult path id err (Flags.sitename flags)
                            (Flags.clientname flags))) = false) as Hline.
  { destruct (saysAdded _) eqn:Eadded; [| reflexivity].
    apply printResult_added in Eadded as [-> Hnone]. exfalso.
    revert Eo. unfold publishOne. rewrite (Hclient Hnone).
    apply run_needs_client_published. }
  destruct (_ && _); cbn [trace];
    rewrite ?printed_last, ?printed_step; constructor; auto.
Qed.

(** X24. The line according to which the torrent was added to the
    client is never printed: [printResult] chooses it when no client name
    is given, and without a client no run of [publicTorrent] returns
    without an error. *)
Theorem added_to_client_never_printed st :
  Forall (fun l => saysAdded l = false) (printed (trace (command st))).
Proof.
  unfold publish.
  destruct (outcome (setup st)) as [s | err | msg] eqn:Esetup; cbn [trace];
    [| constructor | constructor].
  apply prepare_next in Esetup as (_ & _ & Hnone).
  now apply loop_never_says_added.
Qed.

End CommandFacts.

(** ** The fields of a metadata file, one by one *)

Section FieldFacts.

Variable arrayKeys : list string.

Local Abbreviation name field := (normalizeKey (fst field)).

(** What a field stores under its name, given what is there. *)
Local Abbreviation stored field before :=
  (match snd field with
   | AString v =>
       Some (if bool_decide (name field ∈ arrayKeys) then SplitCsv v else [v])
   | AStrings v => Some v
   | ASlice [] => before
   | ASlice v => Some (app (default [] before) (List.map Sprint v))
   | AOther printed => Some [printed]
   end : option (list string)).

Lemma addSlice_lookup key v (m : gmap string (list string)) :
  fold_left (fun m vi => Values.Add m key (Sprint vi)) v m !! key
  = match v with
    | [] => m !! key
    | _ => Some (default [] (m !! key) ++ List.map Sprint v)%list
    end.
Proof.
  revert m. induction v as [|vi v IH]; intros m; [reflexivity |].
  cbn [fold_left]. rewrite IH. unfold Values.Add. rewrite lookup_insert_eq.
  destruct v; cbn [default List.map]; [reflexivity |].
  unfold id. now rewrite <- app_assoc.
Qed.

Lemma addField_lookup (m : gmap string (list string)) field :
  addField arrayKeys m field !! name field = stored field (m !! name field).
Proof.
  unfold addField. destruct (snd field) as [v | v | v | v].
  - case_bool_decide; unfold Values.Set_; now rewrite lookup_insert_eq.
  - now rewrite lookup_insert_eq.
  - rewrite addSlice_lookup. now destruct v.
  - unfold Values.Set_. now rewrite lookup_insert_eq.
Qed.

(** Fields with different names can be added in either order. *)
Lemma addField_comm (m : gmap string (list string)) f g :
  name f <> name g ->
  addField arrayKeys (addField arrayKeys m f) g
  = addField arrayKeys (addField arrayKeys m g) f.
Proof.
  intros Hne. apply map_eq. intros k.
  destruct (decide (name g = k)) as [<- | Hg].
  - rewrite addField_lookup, (addField_other _ _ f) by exact Hne.
    now rewrite (addField_other _ _ f), addField_lookup by exact Hne.
  - rewrite (addField_other _ _ g) by exact Hg.
    destruct (decide (name f = k)) as [<- | Hf].
    + rewrite !addField_lookup. now rewrite (addField_other _ _ g) by congruence.
    + now rewrite !addField_other by assumption.
Qed.

Lemma addFields_permutation raw raw' (m : gmap string (list string)) :
  Permutation raw raw' ->
  NoDup (List.map (fun field => name field) raw) ->
  fold_left (addField arrayKeys) raw m = fold_left (addField arrayKeys) raw' m.
Proof.
  intros Hperm. revert m.
  induction Hperm as [| f raw raw' Hperm IH | f g raw | raw raw' raw'' H1 IH1 H2 IH2];
    intros m Hnodup.
  - reflexivity.
  - cbn [fold_left]. apply IH. now apply NoDup_cons_1_2 in Hnodup.
  - cbn [fold_left]. f_equal. apply addField_comm.
    cbn [List.map] in Hnodup. apply NoDup_cons_1_1 in Hnodup.
    intros Heq. apply Hnodup. rewrite Heq. now left.
  - rewrite IH1 by exact Hnodup. apply IH2.
    assert (List.map (fun field => name field) raw
            ≡ₚ List.map (fun field => name field) raw') as Hmap
      by (now apply Permutation_map).
    now rewrite <- Hmap.
Qed.

(** A field whose name no other field has decides what is stored under
    that name. *)
Lemma addFields_lookup raw field :
  In field raw ->
  NoDup (List.map (fun field => name field) raw) ->
  fold_left (addField arrayKeys) raw ∅ !! name field = stored field None.
Proof.
  intros Hin Hnodup.
  apply list_elem_of_In, elem_of_Permutation in Hin as [rest Hperm].
  rewrite (addFields_permutation _ _ _ Hperm Hnodup). cbn [fold_left].
  assert (forall f, In f rest -> name f <> name field) as Hrest.
  { assert (List.map (fun field => name field) raw
            ≡ₚ List.map (fun field => name field) (field :: rest)) as Hmap
      by (now apply Permutation_map).
    rewrite Hmap in Hnodup.
    cbn [List.map] in Hnodup. apply NoDup_cons_1_1 in Hnodup.
    intros f Hf Heq. apply Hnodup. rewrite <- Heq.
    apply list_elem_of_In, in_map_iff. eauto. }
  clear Hperm Hnodup.
  assert (forall m : gmap string (list string),
            fold_left (addField arrayKeys) rest m !! name field = m !! name field) as ->.
  { induction rest as [|f rest IH]; intros m; [reflexivity |].
    cbn [fold_left]. rewrite IH by (intros g Hg; apply Hrest; now right).
    apply addField_other, Hrest. now left. }
  rewrite addField_lookup. now rewrite lookup_empty.
Qed.

End FieldFacts.

Section OrderFacts.

Local Abbreviation opening := ("---" ++ nl).
Local Abbreviation closing := (nl ++ "---" ++ nl).

(** X1. The order in which the decoded fields are visited does not
    matter as long as no two of them are stored under the same name: two
    decoders that return the same fields in different orders, under
    pairwise different stored names, and that fail alike, give the same
    result of [parseMetadataFile]. *)
Theorem parse_order_irrelevant
    (decode decode' : string -> result (list (string * any))) fs path arrayKeys :
  (forall block,
     match decode block, decode' block with
     | Ok raw, Ok raw' =>
         Permutation raw raw'
         /\ NoDup (List.map (fun field => normalizeKey (fst field)) raw)
     | Fail err, Fail err' => err = err'
     | _, _ => False
     end) ->
  parseMetadataFile decode fs path arrayKeys
  = parseMetadataFile decode' fs path arrayKeys.
Proof.
  intros Hsame. unfold parseMetadataFile.
  destruct (ReadFile fs path) as [contents | err]; [| reflexivity].
  cbv zeta. destruct (_ || _); [reflexivity |].
  destruct (_ <? 3); [reflexivity |].
  match goal with
  | |- context [decode ?block] => specialize (Hsame block);
                                  destruct (decode block) as [raw | err],
                                      (decode' block) as [raw' | err']
  end; try contradiction; [| congruence].
  destruct Hsame as [Hperm Hnodup].
  now rewrite (addFields_permutation arrayKeys raw raw' ∅ Hperm Hnodup).
Qed.

(** X2. What parsing stores under the name of a field, the stored names
    of the fields being pairwise different and the name not reserved: a
    string as it is, or what [util.SplitCsv] makes of it for an array-typed
    name; a list of strings as it is; a list of other values as the
    renderings of its elements, in their order; any other value as its
    rendering. For an empty list nothing is stored at all. *)
Theorem parsed_field_by_kind decode fs path arrayKeys block rest raw key value :
  ReadFile fs path = Ok (opening ++ block ++ closing ++ rest) ->
  Str.find closing (block ++ closing ++ rest) = Some (Str.len block) ->
  (3 <= Str.len block)%nat ->
  decode block = Ok raw ->
  NoDup (List.map (fun field => normalizeKey (fst field)) raw) ->
  In (key, value) raw ->
  normalizeKey key <> "_text" -> normalizeKey key <> "_meta" ->
  exists m : gmap string (list string),
    parseMetadataFile decode fs path arrayKeys = Ok m
    /\ m !! normalizeKey key
       = match value with
         | AString v =>
             Some (if bool_decide (normalizeKey key ∈ arrayKeys)
                   then SplitCsv v else [v])
         | AStrings v => Some v
         | ASlice [] => None
         | ASlice v => Some (List.map Sprint v)
         | AOther printed => Some [printed]
         end.
Proof.
  intros Hread Hfind Hlen Hraw Hnodup Hin Htext Hmeta.
  rewrite (parse_delimited decode _ _ _ block rest) by assumption. rewrite Hraw.
  eexists. split; [reflexivity |]. unfold Values.Set_.
  rewrite !lookup_insert_ne by congruence.
  pose proof (addFields_lookup arrayKeys raw (key, value) Hin Hnodup) as Hfield.
  cbn [fst snd] in Hfield. rewrite Hfield.
  now destruct value as [v | v | [|vi v] | v].
Qed.

End OrderFacts.

(** ** The new properties on concrete folders *)

Local Notation "'on_item' thm s c moveOk dryRun mustTags" :=
  (thm (fun w : Z => w) Demo.K flatYaml string Demo.buildTorrent Demo.ParseTorrent
     Demo.Verify (fun (_ : FS) (_ : string) => @nil string) (fun p : string => p)
     s c Demo.item (∅ : gmap string (list string)) true false
     (@None PathMapper) 3 (@nil string) moveOk dryRun mustTags ["tags"])
  (at level 10, thm at level 9, s at level 9, c at level 9, moveOk at level 9,
   dryRun at level 9, mustTags at level 9, only parsing).

Local Notation "'on_copy' thm s c" :=
  (thm (fun w : Z => w) Demo.K s c (@None PathMapper) Demo.item)
  (at level 10, thm at level 9, s at level 9, c at level 9, only parsing).

(** The two decoders of [Cases] agree on the file of [Demo.fresh]. *)
Lemma parse_order_irrelevant_witness :
  parseMetadataFile Cases.decode Demo.fresh "dir/item/metadata.nfo" ["tags"]
  = parseMetadataFile Cases.decode' Demo.fresh "dir/item/metadata.nfo" ["tags"].
Proof.
  apply parse_order_irrelevant. intros block. split.
  - apply Permutation_rev.
  - vm_compute. repeat constructor; vm_compute; intros H;
      repeat (apply elem_of_cons in H as [H | H]; [discriminate H |]);
      now apply elem_of_nil in H.
Defined.

(** A list of two values, a string and a number, and an empty list. *)
Lemma parsed_field_by_kind_witness :
  exists m : gmap string (list string),
    parseMetadataFile Cases.decode Demo.fresh "dir/item/metadata.nfo" [] = Ok m
    /\ m !! "tags" = Some ["a"; "7"].
Proof.
  destruct (parsed_field_by_kind Cases.decode Demo.fresh "dir/item/metadata.nfo" []
              ("title: Foo" ++ nl ++ "number: ABC-123") ("text" ++ nl) Cases.fields
              "tags" (ASlice [AString "a"; AOther "7"])
              eq_refl eq_refl ltac:(simpl; lia) eq_refl) as (m & Hm & H).
  - vm_compute. repeat constructor; vm_compute; intros H;
      repeat (apply elem_of_cons in H as [H | H]; [discriminate H |]);
      now apply elem_of_nil in H.
  - simpl. auto.
  - discriminate.
  - discriminate.
  - exists m. split; [exact Hm | exact H].
Defined.

(** A fresh folder with tags, published as 123: what the site is given is
    what the metadata file parses to, under the array-keys key. *)
Lemma command_line_fields_win_witness :
  let r := Cases.run Demo.siteOk (Some (Demo.client None)) EmptyString false None
             (Demo.start Cases.labelled) in
  In (CallPublishTorrent "torrent:content" Cases.tagged (Ok "123")) (log r)
  /\ exists parsed : gmap string (list string),
       parseMetadataFile flatYaml Cases.labelled "dir/item/metadata.nfo" ["tags"]
       = Ok parsed
       /\ Cases.tagged !! "tags" = parsed !! "tags".
Proof.
  assert (In (CallPublishTorrent "torrent:content" Cases.tagged (Ok "123"))
            (log (Cases.run Demo.siteOk (Some (Demo.client None)) EmptyString false None
                    (Demo.start Cases.labelled)))) as Hin by find_in.
  split; [exact Hin |].
  destruct (on_item command_line_fields_win Demo.siteOk (Some (Demo.client None))
              EmptyString false None (Demo.start Cases.labelled) _ _ _ Hin)
    as (parsed & Hparsed & H).
  exists parsed. split; [exact Hparsed |].
  apply (H "tags"); discriminate.
Defined.

Lemma submitted_title_not_empty_witness :
  let r := Cases.run Demo.siteOk (Some (Demo.client None)) EmptyString false None
             (Demo.start Demo.fresh) in
  In (CallPublishTorrent "torrent:content" Demo.metadata (Ok "123")) (log r)
  /\ Values.Get Demo.metadata "title" <> EmptyString.
Proof.
  assert (In (CallPublishTorrent "torrent:content" Demo.metadata (Ok "123"))
            (log (Cases.run Demo.siteOk (Some (Demo.client None)) EmptyString false None
                    (Demo.start Demo.fresh)))) as Hin by find_in.
  split; [exact Hin |].
  apply (on_item submitted_title_not_empty Demo.siteOk (Some (Demo.client None))
           EmptyString false None (Demo.start Demo.fresh)
           "torrent:content" Demo.metadata (Ok "123") Hin).
Defined.

(** One of the tags [b] and [z] is required: the folder has [b]. *)
Lemma submitted_has_required_tag_witness :
  let r := Cases.run Demo.siteOk (Some (Demo.client None)) EmptyString false
             (Some ["b"; "z"]) (Demo.start Cases.labelled) in
  In (CallPublishTorrent "torrent:content" Cases.tagged (Ok "123")) (log r)
  /\ exists t, In t ["b"; "z"] /\ In t (Values.at_ Cases.tagged "tags").
Proof.
  assert (In (CallPublishTorrent "torrent:content" Cases.tagged (Ok "123"))
            (log (Cases.run Demo.siteOk (Some (Demo.client None)) EmptyString false
                    (Some ["b"; "z"]) (Demo.start Cases.labelled)))) as Hin by find_in.
  split; [exact Hin |].
  apply (on_item submitted_has_required_tag Demo.siteOk (Some (Demo.client None))
           EmptyString false (Some ["b"; "z"]) (Demo.start Cases.labelled)
           "torrent:content" Cases.tagged (Ok "123") ["b"; "z"] eq_refl);
    [discriminate | exact Hin].
Defined.

Lemma dry_run_is_flagged_witness :
  let r := Cases.run Cases.siteDryRun (Some (Demo.client None)) EmptyString true None
             (Demo.start Demo.fresh) in
  In (CallPublishTorrent "torrent:content" Cases.rehearsed (Fail ErrDryRun)) (log r)
  /\ Cases.rehearsed !! "_dry_run" = Some ["1"].
Proof.
  assert (In (CallPublishTorrent "torrent:content" Cases.rehearsed (Fail ErrDryRun))
            (log (Cases.run Cases.siteDryRun (Some (Demo.client None)) EmptyString true
                    None (Demo.start Demo.fresh)))) as Hin by find_in.
  split; [exact Hin |].
  apply (on_item dry_run_is_flagged Cases.siteDryRun (Some (Demo.client None))
           EmptyString true None (Demo.start Demo.fresh)
           "torrent:content" Cases.rehearsed (Fail ErrDryRun) eq_refl);
    [discriminate | exact Hin].
Defined.

(** A dry run with a relocation target: the folder is moved and nothing
    else follows the call. *)
Lemma failed_publication_leaves_no_marker_witness :
  let r := Cases.run Cases.siteDryRun (Some (Demo.client None)) "done" true None
             (Demo.start Demo.fresh) in
  outcome r = Returns (EmptyString, Some ErrDryRun)
  /\ exists before res,
       log r = (before ++ [CallPublishTorrent "torrent:content" Cases.rehearsed
                             (Fail ErrDryRun);
                           FsReplaceFile "dir/item" "done/item" res])%list.
Proof.
  assert (In (CallPublishTorrent "torrent:content" Cases.rehearsed (Fail ErrDryRun))
            (log (Cases.run Cases.siteDryRun (Some (Demo.client None)) "done" true None
                    (Demo.start Demo.fresh)))) as Hin by find_in.
  destruct (on_item failed_publication_leaves_no_marker Cases.siteDryRun
              (Some (Demo.client None)) "done" true None (Demo.start Demo.fresh)
              "torrent:content" Cases.rehearsed ErrDryRun Hin)
    as (Hout & before & tail & Hlog & _ & Htail).
  split; [exact Hout |]. destruct Htail as [res ->].
  exists before, res. exact Hlog.
Defined.

(** A folder without a metadata file. *)
Lemma unusable_metadata_leaves_folder_alone_witness :
  let r := Cases.run Demo.siteOk (Some (Demo.client None)) EmptyString false None
             (Demo.start Cases.bare) in
  outcome r = Returns (EmptyString, Some ErrNoMetadataFile)
  /\ final r = Demo.start Cases.bare /\ log r = [].
Proof.
  destruct (on_item unusable_metadata_leaves_folder_alone Demo.siteOk
              (Some (Demo.client None)) EmptyString false None (Demo.start Cases.bare)
              ltac:(left; split; reflexivity))
    as (Hfinal & Hlog & _ & Hout).
  split; [exact (Hout eq_refl eq_refl) |]. split; [exact Hfinal | exact Hlog].
Defined.

(** Published before, the copy of the torrent in the folder. *)
Lemma cached_torrent_reused_witness :
  let r := Cases.download Demo.siteOk (Some (Demo.client None))
             (Demo.start Demo.published) in
  fs (final r) = Demo.published
  /\ (log r = [] \/ exists err, log r = [CallAddTorrent "bytes" Cases.seeding err]).
Proof.
  apply (on_copy cached_torrent_reused Demo.siteOk (Some (Demo.client None))
           (Demo.start Demo.published) "bytes" 7 eq_refl).
Defined.

(** Published before as 123, the copy of the torrent missing. *)
Lemma site_download_by_marker_id_witness :
  let r := Cases.download Demo.siteOk (Some (Demo.client None))
             (Demo.start Demo.publishedNoCopy) in
  In (CallDownloadTorrentById "123" (Ok ("bytes", "x.torrent"))) (log r)
  /\ FileExists Demo.publishedNoCopy "dir/item/.s.torrent" = false
  /\ ReadFile Demo.publishedNoCopy "dir/item/.published-s" = Ok "123".
Proof.
  assert (In (CallDownloadTorrentById "123" (Ok ("bytes", "x.torrent")))
            (log (Cases.download Demo.siteOk (Some (Demo.client None))
                    (Demo.start Demo.publishedNoCopy)))) as Hin by find_in.
  split; [exact Hin |].
  destruct (on_copy site_download_by_marker_id Demo.siteOk (Some (Demo.client None))
              (Demo.start Demo.publishedNoCopy) "123" (Ok ("bytes", "x.torrent")) Hin)
    as (Hcopy & Hid & _).
  split; [exact Hcopy | exact Hid].
Defined.


Lemma client_given_torrent_file_witness :
  let r := Cases.download Demo.siteOk (Some (Demo.client None))
             (Demo.start Demo.publishedNoCopy) in
  ReadFile (fs (final r)) "dir/item/.s.torrent" = Ok "bytes"
  /\ exists before, log r = (before ++ [CallAddTorrent "bytes" Cases.seeding None])%list.
Proof.
  assert (In (CallAddTorrent "bytes" Cases.seeding None)
            (log (Cases.download Demo.siteOk (Some (Demo.client None))
                    (Demo.start Demo.publishedNoCopy)))) as Hin by find_in.
  destruct (on_copy client_given_torrent_file Demo.siteOk (Some (Demo.client None))
              (Demo.start Demo.publishedNoCopy) "bytes" Cases.seeding None Hin)
    as (_ & _ & Hfile & Hlast).
  split; [exact Hfile | exact Hlast].
Defined.

(** Contents of two bytes, three being asked for. *)
Lemma failed_build_ends_run_witness :
  let r := Cases.run Demo.siteOk (Some (Demo.client None)) EmptyString false None
             (Demo.start Cases.tiny) in
  outcome r = Returns (EmptyString, Some ErrSmall)
  /\ Forall (fun e => isPublishCall e = false) (log r).
Proof.
  assert (In (CallMakeTorrent (makeTorrentOptions Demo.K Demo.item 3)
                (Some TorrentutilErrSmall))
            (log (Cases.run Demo.siteOk (Some (Demo.client None)) EmptyString false None
                    (Demo.start Cases.tiny)))) as Hin by find_in.
  destruct (on_item failed_build_ends_run Demo.siteOk (Some (Demo.client None))
              EmptyString false None (Demo.start Cases.tiny)
              (makeTorrentOptions Demo.K Demo.item 3) TorrentutilErrSmall Hin)
    as (Hout & _ & Hquiet).
  split; [exact Hout | exact Hquiet].
Defined.


Lemma success_means_published_and_seeded_witness :
  let r := Cases.run Demo.siteOk (Some (Demo.client None)) EmptyString false None
             (Demo.start Demo.fresh) in
  exists c m before data opt,
    log r = (before ++ [CallAddTorrent data opt None])%list
    /\ In (CallPublishTorrent c m (Ok "123")) before.
Proof.
  apply (on_item success_means_published_and_seeded Demo.siteOk
           (Some (Demo.client None)) EmptyString false None (Demo.start Demo.fresh)
           "123").
  vm_compute. reflexivity.
Defined.



(** The site accepts the torrent and returns no id. *)
Lemma publication_without_id_fails_witness :
  let r := Cases.run Demo.siteDuplicate (Some (Demo.client None)) EmptyString false None
             (Demo.start Demo.fresh) in
  (outcome r = Returns (EmptyString, Some (Errorf "id file not exists" []))
   \/ exists err,
        outcome r
        = Returns (EmptyString,
                   Some (Errorw "torrent published (id: %s) but failed to move content folder: %w"
                           [EmptyString] err)))
  /\ In (FsTouchFile "dir/item/.existing-s") (log r).
Proof.
  assert (In (CallPublishTorrent "torrent:content" Demo.metadata (Ok EmptyString))
            (log (Cases.run Demo.siteDuplicate (Some (Demo.client None)) EmptyString
                    false None (Demo.start Demo.fresh)))) as Hin by find_in.
  destruct (on_item publication_without_id_fails Demo.siteDuplicate
              (Some (Demo.client None)) EmptyString false None (Demo.start Demo.fresh)
              "torrent:content" Demo.metadata
              ltac:(discriminate) ltac:(discriminate) eq_refl Hin)
    as (Hout & Htouch & _).
  split; [exact Hout | exact Htouch].
Defined.

(** ** The command on a concrete save path *)

Local Notation "'on_shelf' thm s c flags" :=
  (thm (fun w : Z => w) Demo.K flatYaml string Demo.buildTorrent Demo.ParseTorrent
     Demo.Verify (fun (_ : FS) (_ : string) => @nil string) (fun p : string => p)
     Batch.U Batch.ParseQuery Batch.NewPathMapper (Batch.CreateSite s)
     (@Batch.GetStatus (Site Z)) (Batch.CreateClient c) (@Batch.GetStatus (Client Z))
     Batch.ReadDir Batch.MkdirAll flags)
  (at level 10, thm at level 9, s at level 9, c at level 9, flags at level 9,
   only parsing).


(** Three folders, of which one fails. *)
Lemma failures_counted_witness :
  let r := Batch.run Demo.siteOk (Demo.client None) (Batch.flags "c" (-1))
             (Demo.start Batch.shelf) in
  Batch.count isFailureLine (trace r) = 1
  /\ ended r = Returns (Some (Errorf "%d errors" ["1"])).
Proof.
  destruct (on_shelf failures_counted Demo.siteOk (Demo.client None)
              (Batch.flags "c" (-1)) (Demo.start Batch.shelf)) as (_ & H).
  - intros entries [= <-]. vm_compute. reflexivity.
  - split; [vm_compute; reflexivity |].
    destruct H as [[msg Hmsg] | H]; [vm_compute; reflexivity | | exact H].
    vm_compute in Hmsg. discriminate Hmsg.
Defined.

(** No client: the dry run of the three folders reports none as
    published. *)
Lemma publish_without_client_reports_no_success_witness :
  Forall (fun l => marked "✓" l = false)
    (printed (trace (Batch.run Cases.siteDryRun (Demo.client None)
                       (Batch.flags EmptyString (-1)) (Demo.start Batch.shelf)))).
Proof.
  apply (on_shelf publish_without_client_reports_no_success Cases.siteDryRun
           (Demo.client None) (Batch.flags EmptyString (-1)) (Demo.start Batch.shelf)).
  reflexivity.
Defined.
